(** * RMG reaction model: core/edge bookkeeping, flux screening, batch reactor

    A shallow embedding of [source/rmg/model.py].

    - Python floats and numpy float64 entries are IEEE binary64 numbers:
      Rocq's primitive [float].
    - Python lists are [list]; a [dict] is an association list kept in
      insertion order, with in-place update of an existing key.
    - A call that may raise returns a [result]: [Ret v] or [Raise e].
    - Species and reactions are objects compared by identity; the
      embedding gives each an identifier field, and equality of the
      records stands for [==].
    - The collaborators the module only calls ([rxn.getRate],
      [rxn.getStoichiometricCoefficient], [reaction.kineticsDatabase],
      the ordering of species objects, [scipy.integrate.odeint]) are the
      fields of the classes [Collaborators] and [Integrator]. *)

From Stdlib Require Import List Bool Arith ZArith Lia String Floats.
Import ListNotations.

Set Implicit Arguments.
Set Warnings "-inexact-float".

(* ================================================================== *)
(** ** Python runtime: exceptions, sequences, dictionaries, floats     *)
(* ================================================================== *)

Module Py.

Inductive exn : Type :=
| ValueError
| IndexError
| KeyError
| OverflowError
| TypeError
| AttributeError
| InvalidReactionSystemException (label : string).

Inductive result (A : Type) : Type :=
| Ret (a : A)
| Raise (e : exn).
Arguments Ret {A} a.
Arguments Raise {A} e.

Definition bind {A B} (c : result A) (k : A -> result B) : result B :=
  match c with
  | Ret a => k a
  | Raise e => Raise e
  end.

(** [x in l] *)
Definition contains {A} (eq_dec : forall a b : A, {a = b} + {a <> b})
           (x : A) (l : list A) : bool :=
  if in_dec eq_dec x l then true else false.

(** The list without the first occurrence of [x]. *)
Fixpoint remove_first {A} (eq_dec : forall a b : A, {a = b} + {a <> b})
         (x : A) (l : list A) : list A :=
  match l with
  | [] => []
  | y :: l' => if eq_dec x y then l' else y :: remove_first eq_dec x l'
  end.

(** [l.remove(x)]: drops the first occurrence only, [ValueError] when
    there is none. *)
Definition list_remove {A} (eq_dec : forall a b : A, {a = b} + {a <> b})
           (x : A) (l : list A) : result (list A) :=
  if contains eq_dec x l then Ret (remove_first eq_dec x l)
  else Raise ValueError.

(** [d[k]] *)
Fixpoint dict_get {K V} (eq_dec : forall a b : K, {a = b} + {a <> b})
         (d : list (K * V)) (k : K) : result V :=
  match d with
  | [] => Raise KeyError
  | (k', v) :: d' => if eq_dec k k' then Ret v else dict_get eq_dec d' k
  end.

(** [d[k] = v] *)
Fixpoint dict_set {K V} (eq_dec : forall a b : K, {a = b} + {a <> b})
         (d : list (K * V)) (k : K) (v : V) : list (K * V) :=
  match d with
  | [] => [(k, v)]
  | (k', v') :: d' =>
      if eq_dec k k' then (k', v) :: d' else (k', v') :: dict_set eq_dec d' k v
  end.

(** [max(l)]: the first item is the candidate, a later item replaces
    it when [item > candidate]; [ValueError] on the empty list. *)
Fixpoint max_from {A} (gt : A -> A -> bool) (best : A) (l : list A) : A :=
  match l with
  | [] => best
  | x :: l' => max_from gt (if gt x best then x else best) l'
  end.

Definition max {A} (gt : A -> A -> bool) (l : list A) : result A :=
  match l with
  | [] => Raise ValueError
  | x :: l' => Ret (max_from gt x l')
  end.

(** [a > b] on 2-tuples: the first components decide unless they are
    [==], then the second ones do. *)
Definition tuple_gt {B} (eqb2 gt2 : B -> B -> bool)
           (a b : float * B) : bool :=
  if PrimFloat.eqb (fst a) (fst b)
  then (if eqb2 (snd a) (snd b) then false else gt2 (snd a) (snd b))
  else PrimFloat.ltb (fst b) (fst a).

(** [enumerate(l)] *)
Fixpoint enumerate_from {A} (i : nat) (l : list A) : list (nat * A) :=
  match l with
  | [] => []
  | x :: l' => (i, x) :: enumerate_from (S i) l'
  end.
Definition enumerate {A} (l : list A) := enumerate_from 0 l.

(** [l[i]] *)
Definition index {A} (l : list A) (i : nat) : result A :=
  match nth_error l i with
  | Some x => Ret x
  | None => Raise IndexError
  end.

(** [l[-1]] *)
Definition last_item {A} (l : list A) : result A :=
  match rev l with
  | x :: _ => Ret x
  | [] => Raise IndexError
  end.

(** Run [f] over a list, stopping at the first exception. *)
Fixpoint mapM {A B} (f : A -> result B) (l : list A) : result (list B) :=
  match l with
  | [] => Ret []
  | x :: l' =>
      match f x with
      | Ret y => match mapM f l' with
                 | Ret ys => Ret (y :: ys)
                 | Raise e => Raise e
                 end
      | Raise e => Raise e
      end
  end.

(** [x ** 2] on Python floats: the product, but [OverflowError] when a
    finite operand overflows. *)
Definition float_pow2 (x : float) : result float :=
  let y := PrimFloat.mul x x in
  if is_finite x && is_infinity y then Raise OverflowError else Ret y.

(** [sum(l)] and [numpy.sum(l)], taken left to right from zero. *)
Definition sum (l : list float) : float :=
  fold_left PrimFloat.add l 0%float.

(** [math.sqrt(x)]: [ValueError] below zero. *)
Definition math_sqrt (x : float) : result float :=
  if PrimFloat.ltb x 0%float then Raise ValueError else Ret (PrimFloat.sqrt x).

(** [numpy.dot(a, b)] of two vectors: shapes must agree. *)
Definition dot (a b : list float) : result float :=
  if Nat.eqb (List.length a) (List.length b)
  then Ret (sum (map (fun p => PrimFloat.mul (fst p) (snd p)) (combine a b)))
  else Raise ValueError.

(** [numpy.dot(M, v)] of a matrix (its rows) and a vector. *)
Definition matvec (M : list (list float)) (v : list float)
  : result (list float) :=
  mapM (fun row => dot row v) M.

End Py.

Import Py.

Declare Scope py_scope.
Notation "x <- c ;; k" := (Py.bind c (fun x => k))
  (at level 61, c at next level, right associativity) : py_scope.
Notation "' pat <- c ;; k" := (Py.bind c (fun x => match x with pat => k end))
  (at level 61, pat pattern, c at next level, right associativity) : py_scope.
Open Scope py_scope.

(* ================================================================== *)
(** ** Species and reactions                                           *)
(* ================================================================== *)

(** A species object: its identity and the [reactive] flag. *)
Record Species : Type := mkSpecies {
  sid : nat;
  reactive : bool
}.

(** A reaction object: its identity, [reactants] and [products]. *)
Record Reaction : Type := mkReaction {
  rid : nat;
  reactants : list Species;
  products : list Species
}.

Definition Species_eq_dec (a b : Species) : {a = b} + {a <> b}.
Proof. decide equality; [apply bool_dec | apply Nat.eq_dec]. Defined.

Definition Reaction_eq_dec (a b : Reaction) : {a = b} + {a <> b}.
Proof.
  decide equality;
    try apply (list_eq_dec Species_eq_dec); apply Nat.eq_dec.
Defined.

Definition Species_eqb (a b : Species) : bool :=
  if Species_eq_dec a b then true else false.

(** A concentration dictionary, species to float. *)
Definition Conc : Type := list (Species * float).

(** What the module calls but does not define. *)
Class Collaborators : Type := {
  (** [rxn.getRate(T, P, conc)] *)
  getRate : Reaction -> float -> float -> Conc -> float;
  (** [rxn.getStoichiometricCoefficient(spec)], as stored in the float
      stoichiometry array *)
  getStoichiometricCoefficient : Reaction -> Species -> float;
  (** [reaction.kineticsDatabase.getReactions(speciesList)] *)
  getReactions : list Species -> list Reaction;
  (** [a > b] on species objects, reached by [max] over
      [(flux, species)] tuples of equal flux *)
  species_gt : Species -> Species -> bool
}.

(* ================================================================== *)
(** ** ReactionModel and CoreEdgeReactionModel                         *)
(* ================================================================== *)

Module ReactionModel.

Record t : Type := mk {
  species : list Species;
  reactions : list Reaction
}.

(** [ReactionModel(species=None, reactions=None)] *)
Definition init (species : option (list Species))
           (reactions : option (list Reaction)) : t :=
  mk (match species with Some (x :: l) => x :: l | _ => [] end)
     (match reactions with Some (x :: l) => x :: l | _ => [] end).

End ReactionModel.

Module CoreEdgeReactionModel.

Import ReactionModel.

Record t : Type := mk {
  core : ReactionModel.t;
  edge : ReactionModel.t;
  fluxTolerance : float;
  absoluteTolerance : float;
  relativeTolerance : float
}.

(** [CoreEdgeReactionModel(core=None, edge=None)] *)
Definition init (core edge : option ReactionModel.t) : t :=
  mk (match core with None => ReactionModel.init None None | Some c => c end)
     (match edge with None => ReactionModel.init None None | Some e => e end)
     1.0%float 1.0e-8%float 1.0e-4%float.

Definition set_core (m : t) (c : ReactionModel.t) : t :=
  mk c (edge m) (fluxTolerance m) (absoluteTolerance m) (relativeTolerance m).
Definition set_edge (m : t) (e : ReactionModel.t) : t :=
  mk (core m) e (fluxTolerance m) (absoluteTolerance m) (relativeTolerance m).

Definition inCore (m : t) (spec : Species) : bool :=
  contains Species_eq_dec spec (species (core m)).
Definition inEdge (m : t) (spec : Species) : bool :=
  contains Species_eq_dec spec (species (edge m)).

(** [self.edge.species.append(spec)] *)
Definition addSpeciesToEdge (spec : Species) (m : t) : t :=
  set_edge m (ReactionModel.mk (species (edge m) ++ [spec]) (reactions (edge m))).

(** [self.core.reactions.append(rxn)], then the guarded
    [self.edge.reactions.remove(rxn)] *)
Definition addReactionToCore (rxn : Reaction) (m : t) : t :=
  let m1 := set_core m (ReactionModel.mk (species (core m)) (reactions (core m) ++ [rxn])) in
  if contains Reaction_eq_dec rxn (reactions (edge m1))
  then set_edge m1 (ReactionModel.mk (species (edge m1))
                      (remove_first Reaction_eq_dec rxn (reactions (edge m1))))
  else m1.

(** [self.edge.reactions.append(rxn)] *)
Definition addReactionToEdge (rxn : Reaction) (m : t) : t :=
  set_edge m (ReactionModel.mk (species (edge m)) (reactions (edge m) ++ [rxn])).

(** The flag [allCore] of [addSpeciesToCore]: it starts true and every
    reactant and product outside [core.species] clears it. *)
Definition allCore (m : t) (rxn : Reaction) : bool :=
  forallb (inCore m) (reactants rxn) && forallb (inCore m) (products rxn).

Definition addSpeciesToCore (spec : Species) (m : t) : t :=
  let m1 := set_core m (ReactionModel.mk (species (core m) ++ [spec]) (reactions (core m))) in
  if inEdge m1 spec then
    let m2 := set_edge m1 (ReactionModel.mk
                             (remove_first Species_eq_dec spec (species (edge m1)))
                             (reactions (edge m1))) in
    let rxnList := filter (allCore m2) (reactions (edge m2)) in
    fold_left (fun m' rxn => addReactionToCore rxn m') rxnList m2
  else m1.

(** [speciesList, reactionList = self.getLists()] *)
Definition getLists (m : t) : list Species * list Reaction :=
  (species (core m) ++ species (edge m), reactions (core m) ++ reactions (edge m)).

Section WithCollaborators.
Context {C : Collaborators}.

(** The loop over [rxn.reactants] (or [rxn.products]) in
    [initialize]: a species in neither edge nor core joins the edge. *)
Definition addMissingToEdge (specs : list Species) (m : t) : t :=
  fold_left (fun m' spec =>
               if negb (inEdge m' spec) && negb (inCore m' spec)
               then addSpeciesToEdge spec m' else m')
            specs m.

(** One turn of the loop [for species1 in coreSpecies]. *)
Definition initialize_species (m : t) (species1 : Species) : t :=
  let rxnList :=
    if reactive species1
    then getReactions [species1]
         ++ flat_map (fun species2 => getReactions [species1; species2])
                     (species (core m))
    else [] in
  let m1 := addSpeciesToCore species1 m in
  fold_left (fun m' rxn =>
               addReactionToEdge rxn
                 (addMissingToEdge (products rxn)
                    (addMissingToEdge (reactants rxn) m')))
            rxnList m1.

Definition initialize (coreSpecies : list Species) (m : t) : t :=
  fold_left initialize_species coreSpecies m.

(** The loop over [rxn.reactants] (or [rxn.products]) in [enlarge],
    threading the flag [allSpeciesInCore]. *)
Definition scanSpecies (specs : list Species) (st : bool * t) : bool * t :=
  fold_left (fun (st' : bool * t) spec =>
               let (allSpeciesInCore, m') := st' in
               let flag := if negb (inCore m' spec) then false
                           else allSpeciesInCore in
               (flag,
                if negb (inEdge m' spec) && negb (inCore m' spec)
                then addSpeciesToEdge spec m' else m'))
            specs st.

(** One turn of the loop [for rxn in rxnList] of [enlarge]. *)
Definition enlarge_reaction (m : t) (rxn : Reaction) : t :=
  let (allSpeciesInCore, m') :=
    scanSpecies (products rxn) (scanSpecies (reactants rxn) (true, m)) in
  if allSpeciesInCore then addReactionToCore rxn m'
  else addReactionToEdge rxn m'.

Definition enlarge (newSpecies : Species) (m : t) : t :=
  let rxnList :=
    getReactions [newSpecies]
    ++ flat_map (fun coreSpecies =>
                   if reactive coreSpecies
                   then getReactions [newSpecies; coreSpecies] else [])
                (species (core m)) in
  let m1 := addSpeciesToCore newSpecies m in
  fold_left enlarge_reaction rxnList m1.

(** [rxnFlux]: the dictionary from core reaction to its rate. *)
Definition rxnFlux (m : t) (T P : float) (conc : Conc)
  : list (Reaction * float) :=
  fold_left (fun d rxn => dict_set Reaction_eq_dec d rxn (getRate rxn T P conc))
            (reactions (core m)) [].

(** [self.fluxTolerance * math.sqrt(sum([flux**2 for flux in rxnFlux.values()]))] *)
Definition charFlux (m : t) (T P : float) (conc : Conc) : result float :=
  squares <- mapM float_pow2 (map snd (rxnFlux m T P conc)) ;;
  root <- math_sqrt (Py.sum squares) ;;
  Ret (PrimFloat.mul (fluxTolerance m) root).

(** [if reactant in self.edge.species]: [specFlux[reactant] -= rxnFlux[rxn]],
    or [specFlux[reactant] = -rxnFlux[rxn]] on [KeyError]. *)
Definition subFlux (m : t) (flux : list (Reaction * float)) (rxn : Reaction)
           (acc : result (list (Species * float))) (reactant : Species)
  : result (list (Species * float)) :=
  d <- acc ;;
  if inEdge m reactant then
    rate <- dict_get Reaction_eq_dec flux rxn ;;
    match dict_get Species_eq_dec d reactant with
    | Ret f => Ret (dict_set Species_eq_dec d reactant (PrimFloat.sub f rate))
    | Raise _ => Ret (dict_set Species_eq_dec d reactant (PrimFloat.opp rate))
    end
  else Ret d.

(** [if product in self.edge.species]: [specFlux[product] += rxnFlux[rxn]],
    or [specFlux[product] = rxnFlux[rxn]] on [KeyError]. *)
Definition addFlux (m : t) (flux : list (Reaction * float)) (rxn : Reaction)
           (acc : result (list (Species * float))) (product : Species)
  : result (list (Species * float)) :=
  d <- acc ;;
  if inEdge m product then
    rate <- dict_get Reaction_eq_dec flux rxn ;;
    match dict_get Species_eq_dec d product with
    | Ret f => Ret (dict_set Species_eq_dec d product (PrimFloat.add f rate))
    | Raise _ => Ret (dict_set Species_eq_dec d product rate)
    end
  else Ret d.

(** One turn of the loop [for rxn in self.core.reactions] that fills
    [specFlux]: the reactants, then the products. *)
Definition specFlux_reaction (m : t) (flux : list (Reaction * float))
           (acc : result (list (Species * float))) (rxn : Reaction)
  : result (list (Species * float)) :=
  fold_left (addFlux m flux rxn) (products rxn)
            (fold_left (subFlux m flux rxn) (reactants rxn) acc).

Definition specFlux (m : t) (T P : float) (conc : Conc)
  : result (list (Species * float)) :=
  fold_left (specFlux_reaction m (rxnFlux m T P conc))
            (reactions (core m)) (Ret []).

(** [max([(specFlux[x], x) for x in specFlux])] *)
Definition maxSpecFlux (d : list (Species * float)) : result (float * Species) :=
  Py.max (tuple_gt Species_eqb species_gt)
         (map (fun kv => (snd kv, fst kv)) d).

Definition isValid (m : t) (T P : float) (conc : Conc) : result bool :=
  cf <- charFlux m T P conc ;;
  d <- specFlux m T P conc ;;
  mx <- maxSpecFlux d ;;
  if PrimFloat.ltb cf (fst mx) then Ret false else Ret true.

(** [self.getReactionRates(T, P, Ci)]: core reactions first. *)
Definition getReactionRates (m : t) (T P : float) (Ci : Conc) : list float :=
  map (fun rxn => getRate rxn T P Ci) (snd (getLists m)).

End WithCollaborators.

End CoreEdgeReactionModel.

(* ================================================================== *)
(** ** Temperature and pressure profiles                               *)
(* ================================================================== *)

Module TemperatureModel.

(** [temperatures] holds the breakpoints [[time, value]]; [A] is the
    type of the values handed to [setIsothermal]. *)
Record t (A : Type) : Type := mk {
  type : string;
  temperatures : list (float * A)
}.

Definition init {A} : t A := mk EmptyString [].

Definition isIsothermal {A} (self : t A) : bool :=
  String.eqb (type self) "isothermal".

Definition setIsothermal {A} (self : t A) (temperature : A) : t A :=
  mk "isothermal" [(0.0%float, temperature)].

(** [None] of Python is [Ret None]. *)
Definition getTemperature {A} (self : t A) (time : float) : result (option A) :=
  if isIsothermal self then
    row <- index (temperatures self) 0 ;;
    Ret (Some (snd row))
  else Ret None.

End TemperatureModel.

Module PressureModel.

Record t (A : Type) : Type := mk {
  type : string;
  pressures : list (float * A)
}.

Definition init {A} : t A := mk EmptyString [].

Definition isIsobaric {A} (self : t A) : bool :=
  String.eqb (type self) "isobaric".

Definition setIsobaric {A} (self : t A) (pressure : A) : t A :=
  mk "isobaric" [(0.0%float, pressure)].

Definition getPressure {A} (self : t A) (time : float) : result (option A) :=
  if isIsobaric self then
    row <- index (pressures self) 0 ;;
    Ret (Some (snd row))
  else Ret None.

End PressureModel.

(* ================================================================== *)
(** ** Equation of state                                               *)
(* ================================================================== *)

(** The methods [getResidual] calls on [self.equationOfState]. *)
Record EquationOfState : Type := mkEquationOfState {
  getdVdP : float -> float -> float -> list float -> float;
  getdVdT : float -> float -> float -> list float -> float;
  getdVdNi : float -> float -> float -> list float -> float -> float
}.

Module IdealGas.

(** The mole numbers [N] are taken as a sequence; for a dictionary the
    source sums its values instead. *)
Definition getdPdV (P V T : float) (N : list float) : float :=
  PrimFloat.div (PrimFloat.opp P) V.
Definition getdPdT (P V T : float) (N : list float) : float :=
  PrimFloat.div P T.
Definition getdVdT (P V T : float) (N : list float) : float :=
  PrimFloat.div V T.
Definition getdVdP (P V T : float) (N : list float) : float :=
  PrimFloat.div 1.0%float (getdPdV P V T N).
Definition getdTdP (P V T : float) (N : list float) : float :=
  PrimFloat.div 1.0%float (getdPdT P V T N).
Definition getdTdV (P V T : float) (N : list float) : float :=
  PrimFloat.div 1.0%float (getdVdT P V T N).
Definition getdPdNi (P V T : float) (N : list float) (i : float) : float :=
  PrimFloat.div P (Py.sum N).
Definition getdVdNi (P V T : float) (N : list float) (i : float) : float :=
  PrimFloat.div V (Py.sum N).
Definition getdTdNi (P V T : float) (N : list float) (i : float) : float :=
  PrimFloat.div (PrimFloat.opp T) (Py.sum N).

Definition equationOfState : EquationOfState :=
  mkEquationOfState getdVdP getdVdT getdVdNi.

End IdealGas.

(* ================================================================== *)
(** ** ReactionSystem and BatchReactor                                 *)
(* ================================================================== *)

Module ReactionSystem.

(** [VM] is the type of volume models, for which the module has no
    class. [equationOfState] is an attribute the constructor leaves
    unset. *)
Record t (VM : Type) : Type := mk {
  temperatureModel : option (TemperatureModel.t float);
  pressureModel : option (PressureModel.t float);
  volumeModel : option VM;
  initialConcentration : Conc;
  equationOfState : option EquationOfState
}.

Definition blank {VM} : t VM := mk None None None [] None.

Definition setModels {VM} (self : t VM)
           (temperatureModel : option (TemperatureModel.t float))
           (pressureModel : option (PressureModel.t float))
           (volumeModel : option VM) : result (t VM) :=
  match temperatureModel, pressureModel, volumeModel with
  | Some _, Some _, Some _ =>
      Raise (InvalidReactionSystemException
               "Attempted to specify temperature, pressure, and volume models; can only specify two of these at a time.")
  | _, _, _ =>
      Ret (mk temperatureModel pressureModel volumeModel
              (initialConcentration self) (equationOfState self))
  end.

(** [ReactionSystem(temperatureModel, pressureModel, volumeModel,
    initialConcentration)] *)
Definition init {VM}
           (temperatureModel : option (TemperatureModel.t float))
           (pressureModel : option (PressureModel.t float))
           (volumeModel : option VM)
           (initialConcentration : option Conc) : result (t VM) :=
  self <- setModels blank temperatureModel pressureModel volumeModel ;;
  Ret (mk (ReactionSystem.temperatureModel self)
          (ReactionSystem.pressureModel self)
          (ReactionSystem.volumeModel self)
          (match initialConcentration with Some (x :: d) => x :: d | _ => [] end)
          (equationOfState self)).

End ReactionSystem.

(** [scipy.integrate.odeint(residual, y, (t0, tf), atol, rtol,
    full_output=True)]: the rows of the solution and [info['tcur']]. *)
Class Integrator : Type := {
  odeint : (list float -> float -> result (list float)) ->
           list float -> float * float -> float -> float ->
           list (list float) * list float
}.

Module BatchReactor.

Import ReactionModel CoreEdgeReactionModel.

(** A batch reactor is a reaction system; its constructor only calls
    the one of [ReactionSystem]. *)
Definition t := ReactionSystem.t.

Definition init {VM}
           (temperatureModel : option (TemperatureModel.t float))
           (pressureModel : option (PressureModel.t float))
           (volumeModel : option VM)
           (initialConcentration : option Conc) : result (t VM) :=
  ReactionSystem.init temperatureModel pressureModel volumeModel
                      initialConcentration.

(** [P, V, T = y[0:3]; Ni = y[3:]] *)
Definition unpack (y : list float) : result (float * float * float * list float) :=
  match y with
  | P :: V :: T :: Ni => Ret (P, V, T, Ni)
  | _ => Raise ValueError
  end.

Section WithCollaborators.
Context {C : Collaborators} {VM : Type}.

(** [Ci[spec] = Ni[i] / V] over [enumerate(model.core.species)], then
    the model's own [getReactionRates]. *)
Definition getReactionRates (self : t VM) (P V T : float) (Ni : list float)
           (model : CoreEdgeReactionModel.t) : result (list float) :=
  Ci <- fold_left (fun (acc : result Conc) (ispec : nat * Species) =>
                     d <- acc ;;
                     n <- index Ni (fst ispec) ;;
                     Ret (dict_set Species_eq_dec d (snd ispec) (PrimFloat.div n V)))
                  (enumerate (species (core model))) (Ret []) ;;
  Ret (CoreEdgeReactionModel.getReactionRates model T P Ci).

Definition getResidual (self : t VM) (y : list float) (time : float)
           (model : CoreEdgeReactionModel.t)
           (stoichiometry : list (list float)) : result (list float) :=
  '(P, V, T, Ni) <- unpack y ;;
  rxnRate <- getReactionRates self P V T Ni model ;;
  let nc := List.length (species (core model)) in
  let nr := List.length (reactions (core model)) in
  dNidt <- matvec (map (firstn nr) (firstn nc stoichiometry)) (firstn nr rxnRate) ;;
  let dTdt := 0.0%float in
  let dPdt := 0.0%float in
  match ReactionSystem.equationOfState self with
  | None => Raise AttributeError
  | Some eos =>
      let dVdP := getdVdP eos P V T Ni in
      let dVdT := getdVdT eos P V T Ni in
      let dVdNi := map (fun i => getdVdNi eos P V T Ni i) Ni in
      s <- dot dVdNi dNidt ;;
      let dVdt := PrimFloat.add (PrimFloat.add (PrimFloat.mul dVdP dPdt)
                                               (PrimFloat.mul dVdT dTdt)) s in
      Ret (dPdt :: dVdt :: dTdt :: dNidt)
  end.

(** The squares here are those of numpy float64 entries: plain
    products. The last parameter [time] only feeds the log. *)
Definition isModelValid (self : t VM) (model : CoreEdgeReactionModel.t)
           (P V T : float) (Ni : list float)
           (stoichiometry : list (list float)) (time : float)
  : result (bool * option Species) :=
  let (speciesList, reactionList) := getLists model in
  rxnRates <- getReactionRates self P V T Ni model ;;
  let nr := List.length (reactions (core model)) in
  let nc := List.length (species (core model)) in
  root <- math_sqrt (Py.sum (map (fun x => PrimFloat.mul x x) (firstn nr rxnRates))) ;;
  let charFlux := PrimFloat.mul (fluxTolerance model) root in
  dNidt <- matvec stoichiometry rxnRates ;;
  mx <- Py.max (tuple_gt Nat.eqb (fun a b => Nat.ltb b a))
               (map (fun iv => (snd iv, fst iv + nc)) (enumerate (skipn nc dNidt))) ;;
  let (maxSpeciesFlux, maxSpecies) := (mx : float * nat) in
  if PrimFloat.ltb charFlux maxSpeciesFlux then
    spec <- index speciesList maxSpecies ;;
    Ret (false, Some spec)
  else Ret (true, None).

(** The stoichiometry matrix of [simulate]: a row per species (core,
    then edge), a column per reaction (core, then edge). *)
Definition stoichiometryMatrix (model : CoreEdgeReactionModel.t)
  : list (list float) :=
  let (speciesList, reactionList) := getLists model in
  map (fun spec => map (fun rxn => getStoichiometricCoefficient rxn spec)
                       reactionList)
      speciesList.

(** [float(self.pressureModel.getPressure(0))] *)
Definition initialPressure (self : t VM) : result float :=
  match ReactionSystem.pressureModel self with
  | None => Raise AttributeError
  | Some pm =>
      v <- PressureModel.getPressure pm 0%float ;;
      match v with Some p => Ret p | None => Raise TypeError end
  end.

(** [float(self.temperatureModel.getTemperature(0))] *)
Definition initialTemperature (self : t VM) : result float :=
  match ReactionSystem.temperatureModel self with
  | None => Raise AttributeError
  | Some tm =>
      v <- TemperatureModel.getTemperature tm 0%float ;;
      match v with Some p => Ret p | None => Raise TypeError end
  end.

(** [Ni[i] = self.initialConcentration[spec] * V] for the species in
    the dictionary, zero for the others. *)
Definition initialMoles (self : t VM) (model : CoreEdgeReactionModel.t)
           (V : float) : list float :=
  map (fun spec =>
         match dict_get Species_eq_dec (ReactionSystem.initialConcentration self) spec with
         | Ret c => PrimFloat.mul c V
         | Raise _ => 0.0%float
         end)
      (species (core model)).

(** What one turn of the [while] loop leaves. *)
Inductive step : Type :=
| Return (r : bool * option Species)
| Continue (t0 tf : float) (y : list float).

Context {I : Integrator}.

(** The body of [while t0 < 1.0e0]. *)
Definition simulate_span (self : t VM) (model : CoreEdgeReactionModel.t)
           (stoichiometry : list (list float)) (y0 : list float)
           (t0 tf : float) (y : list float) : result step :=
  let (ys, tcur) :=
    odeint (fun y' t' => getResidual self y' t' model stoichiometry)
           y (t0, tf) (absoluteTolerance model) (relativeTolerance model) in
  y1 <- last_item ys ;;
  '(P, V, T, Ni) <- unpack y1 ;;
  vs <- isModelValid self model P V T Ni stoichiometry tf ;;
  let (valid, newSpecies) := (vs : bool * option Species) in
  if negb valid then Ret (Return (false, newSpecies))
  else
    lead <- index y1 3 ;;
    lead0 <- index y0 3 ;;
    if PrimFloat.ltb lead (PrimFloat.mul 0.1%float lead0)
    then Ret (Return (true, None))
    else
      tc <- last_item tcur ;;
      Ret (Continue tf (PrimFloat.mul tc 1.1%float) y1).

(** The [while] loop, [fuel] turns at most. The answer comes with the
    number of integrations made; [None] when the fuel runs out. *)
Fixpoint simulate_loop (fuel : nat) (self : t VM)
         (model : CoreEdgeReactionModel.t)
         (stoichiometry : list (list float)) (y0 : list float)
         (t0 tf : float) (y : list float)
  : option (result (bool * option Species) * nat) :=
  if negb (PrimFloat.ltb t0 1.0e0%float) then Some (Ret (true, None), 0)
  else
    match fuel with
    | 0 => None
    | S fuel' =>
        match simulate_span self model stoichiometry y0 t0 tf y with
        | Raise e => Some (Raise e, 1)
        | Ret (Return r) => Some (Ret r, 1)
        | Ret (Continue t0' tf' y') =>
            match simulate_loop fuel' self model stoichiometry y0 t0' tf' y' with
            | Some (r, n) => Some (r, S n)
            | None => None
            end
        end
    end.

(** [spans n st st']: from the loop state [st = (t0, tf, y)], [n] turns
    of the loop, each one entered ([t0 < 1.0]) and left for a next
    turn, lead to the loop state [st']. *)
Inductive spans (self : t VM) (model : CoreEdgeReactionModel.t)
          (stoichiometry : list (list float)) (y0 : list float)
  : nat -> float * float * list float -> float * float * list float -> Prop :=
| spans_here st : spans self model stoichiometry y0 0 st st
| spans_next n t0 tf y t0' tf' y' st :
    PrimFloat.ltb t0 1.0e0%float = true ->
    simulate_span self model stoichiometry y0 t0 tf y = Ret (Continue t0' tf' y') ->
    spans self model stoichiometry y0 n (t0', tf', y') st ->
    spans self model stoichiometry y0 (S n) (t0, tf, y) st.

(** [simulate] up to the loop: the matrix, the initial state and the
    validity test of the seed state. *)
Definition simulate_start (self : t VM) (model : CoreEdgeReactionModel.t)
  : result (bool * option Species * list (list float) * list float) :=
  let stoichiometry := stoichiometryMatrix model in
  P <- initialPressure self ;;
  T <- initialTemperature self ;;
  let V := 1.0%float in
  let Ni := initialMoles self model V in
  vs <- isModelValid self model P V T Ni stoichiometry 0.0%float ;;
  Ret (vs, stoichiometry, P :: V :: T :: Ni).

Definition simulate (fuel : nat) (self : t VM) (model : CoreEdgeReactionModel.t)
  : option (result (bool * option Species) * nat) :=
  match simulate_start self model with
  | Raise e => Some (Raise e, 0)
  | Ret (valid, newSpecies, stoichiometry, y) =>
      if negb valid then Some (Ret (false, newSpecies), 0)
      else simulate_loop fuel self model stoichiometry y
                         1e-20%float (PrimFloat.mul 1e-20%float 1.1%float) y
  end.

End WithCollaborators.

End BatchReactor.

(* ================================================================== *)
(** ** Concrete species, reactions and collaborators                   *)
(* ================================================================== *)

Module Examples.

Import ReactionModel CoreEdgeReactionModel.

(** The species and the reaction pair of the module's own script. *)
Definition CH3 : Species := mkSpecies 1 true.
Definition H : Species := mkSpecies 2 true.
Definition CH4 : Species := mkSpecies 3 true.
Definition forward : Reaction := mkReaction 1 [CH3; H] [CH4].
Definition reverse : Reaction := mkReaction 2 [CH4] [CH3; H].

(** Three species and two reactions for the flux tests: [A -> D] and
    [A -> B]. *)
Definition A : Species := mkSpecies 11 true.
Definition B : Species := mkSpecies 12 true.
Definition D : Species := mkSpecies 13 true.
Definition rAD : Reaction := mkReaction 11 [A] [D].
Definition rAB : Reaction := mkReaction 12 [A] [B].

(** Modelled from the spec: [getStoichiometricCoefficient] of the absent
    [reaction] module, "negative for net-consumed, positive for
    net-produced, zero if absent": the occurrences among the products
    minus those among the reactants. *)
Definition stoichiometricCoefficient (rxn : Reaction) (spec : Species) : float :=
  fold_left (fun acc s => if Species_eqb s spec then PrimFloat.sub acc 1%float else acc)
            (reactants rxn)
            (fold_left (fun acc s => if Species_eqb s spec then PrimFloat.add acc 1%float else acc)
                       (products rxn) 0%float).

(** A kinetics database that knows [CH3 + H -> CH4] and its reverse. *)
Definition methaneReactions (l : list Species) : list Reaction :=
  match l with
  | [s] => if Species_eqb s CH4 then [reverse] else []
  | [s1; s2] =>
      if (Species_eqb s1 H && Species_eqb s2 CH3)
         || (Species_eqb s1 CH3 && Species_eqb s2 H)
      then [forward] else []
  | _ => []
  end.

(** Rates by reaction: 10 for [rAD], 20 for [rAB], 50 for the reaction
    of identifier 16, 1 for the others. *)
Definition rateTable (rxn : Reaction) (T P : float) (conc : Conc) : float :=
  if Nat.eqb (rid rxn) 11 then 10%float
  else if Nat.eqb (rid rxn) 12 then 20%float
  else if Nat.eqb (rid rxn) 16 then 50%float
  else 1%float.

Definition bySid (a b : Species) : bool := Nat.ltb (sid b) (sid a).

Definition methane : Collaborators :=
  Build_Collaborators rateTable stoichiometricCoefficient methaneReactions bySid.

(** A model within invariants (1)-(4): [A], [D] and [A -> D] in the
    core, [B] and [A -> B] in the edge. *)
Definition fluxModel : CoreEdgeReactionModel.t :=
  CoreEdgeReactionModel.mk (ReactionModel.mk [A; D] [rAD])
                           (ReactionModel.mk [B] [rAB])
                           1.0%float 1.0e-8%float 1.0e-4%float.

(** The same species with [A -> B] counted as a core reaction and
    [A -> B] once more in the edge, at rate 1 in the core (identifier 14)
    and 20 in the edge. *)
Definition rAB' : Reaction := mkReaction 14 [A] [B].
Definition mixedModel : CoreEdgeReactionModel.t :=
  CoreEdgeReactionModel.mk (ReactionModel.mk [A] [rAB'])
                           (ReactionModel.mk [B] [rAB])
                           1.0%float 1.0e-8%float 1.0e-4%float.

(** [mixedModel] at half the flux tolerance. *)
Definition halfModel : CoreEdgeReactionModel.t :=
  CoreEdgeReactionModel.mk (ReactionModel.mk [A] [rAB'])
                           (ReactionModel.mk [B] [rAB])
                           0.5%float 1.0e-8%float 1.0e-4%float.

(** A core reaction [B -> A] that consumes the edge species [B] at rate
    50, at half the flux tolerance. *)
Definition rBA : Reaction := mkReaction 16 [B] [A].
Definition drainModel : CoreEdgeReactionModel.t :=
  CoreEdgeReactionModel.mk (ReactionModel.mk [A] [rBA])
                           (ReactionModel.mk [B] [])
                           0.5%float 1.0e-8%float 1.0e-4%float.

(** [fluxModel] with a slow edge reaction (identifier 15, rate 1). *)
Definition rAB1 : Reaction := mkReaction 15 [A] [B].
Definition calmModel : CoreEdgeReactionModel.t :=
  CoreEdgeReactionModel.mk (ReactionModel.mk [A; D] [rAD])
                           (ReactionModel.mk [B] [rAB1])
                           1.0%float 1.0e-8%float 1.0e-4%float.

(** A reactor at 1000 K and 1 bar holding one mole of [A] per cubic
    metre. *)
Definition reactor : BatchReactor.t unit :=
  ReactionSystem.mk
    (Some (TemperatureModel.setIsothermal TemperatureModel.init 1000%float))
    (Some (PressureModel.setIsobaric PressureModel.init 100000%float))
    None [(A, 1.0%float)] (Some IdealGas.equationOfState).

(** An integrator that leaves 5% of the lead species after its first
    span. *)
Definition depleting : Integrator :=
  Build_Integrator
    (fun residual y span atol rtol =>
       match y with
       | P :: V :: T :: n :: rest =>
           ([y; P :: V :: T :: PrimFloat.mul 0.05%float n :: rest], [snd span])
       | _ => ([y; y], [snd span])
       end).

(** [CH3] in the core, [H] in the edge, no reaction yet. *)
Definition methylModel : CoreEdgeReactionModel.t :=
  CoreEdgeReactionModel.mk (ReactionModel.mk [CH3] [])
                           (ReactionModel.mk [H] [])
                           1.0%float 1.0e-8%float 1.0e-4%float.

(** A kinetics database that knows no reaction. *)
Definition noReactions : Collaborators :=
  Build_Collaborators rateTable stoichiometricCoefficient (fun _ => []) bySid.

(** An integrator that leaves a quarter of the lead species after each
    span and reports the end of the span as the time reached. *)
Definition quartering : Integrator :=
  Build_Integrator
    (fun residual y span atol rtol =>
       match y with
       | P :: V :: T :: n :: rest =>
           ([y; P :: V :: T :: PrimFloat.mul 0.25%float n :: rest], [snd span])
       | _ => ([y; y], [snd span])
       end).

(** [drainModel] with a negative flux tolerance. *)
Definition overdrawnModel : CoreEdgeReactionModel.t :=
  CoreEdgeReactionModel.mk (ReactionModel.mk [A] [rBA])
                           (ReactionModel.mk [B] [])
                           (-2)%float 1.0e-8%float 1.0e-4%float.

(** [A], [D] and [A -> D] in the core, an empty edge. *)
Definition sealedModel : CoreEdgeReactionModel.t :=
  CoreEdgeReactionModel.mk (ReactionModel.mk [A; D] [rAD])
                           (ReactionModel.mk [] [])
                           1.0%float 1.0e-8%float 1.0e-4%float.

(** An integrator that leaves the state as it is and reports [tc] as
    the time reached. *)
Definition resting (tc : float) : Integrator :=
  Build_Integrator (fun residual y span atol rtol => ([y; y], [tc])).

End Examples.

(* ================================================================== *)
(** ** The invariants of the core/edge partition                       *)
(* ================================================================== *)

Module Invariants.

Import ReactionModel CoreEdgeReactionModel.

(** The species a reaction refers to. *)
Definition referenced (rxn : Reaction) : list Species :=
  reactants rxn ++ products rxn.

(** (1) no species is both in the core and in the edge. *)
Definition disjointSpecies (m : CoreEdgeReactionModel.t) : Prop :=
  forall s, In s (species (core m)) -> ~ In s (species (edge m)).

(** (2) no reaction is both in the core and in the edge. *)
Definition disjointReactions (m : CoreEdgeReactionModel.t) : Prop :=
  forall r, In r (reactions (core m)) -> ~ In r (reactions (edge m)).

(** (3) a reaction of the model is a core reaction exactly when all its
    reactants and products are core species (otherwise it is an edge
    reaction, being in the model). *)
Definition coreMembership (m : CoreEdgeReactionModel.t) : Prop :=
  forall r, In r (reactions (core m) ++ reactions (edge m)) ->
            (In r (reactions (core m))
             <-> forall s, In s (referenced r) -> In s (species (core m))).

(** (4) every species a reaction of the model refers to is in the core
    or in the edge. *)
Definition speciesPresent (m : CoreEdgeReactionModel.t) : Prop :=
  forall r, In r (reactions (core m) ++ reactions (edge m)) ->
            forall s, In s (referenced r) ->
                      In s (species (core m) ++ species (edge m)).

Definition invariants (m : CoreEdgeReactionModel.t) : Prop :=
  disjointSpecies m /\ disjointReactions m /\ coreMembership m /\ speciesPresent m.

End Invariants.

(* ================================================================== *)
(** ** Signs of binary64 numbers                                       *)
(* ================================================================== *)

Module FloatSign.

(** Zero of either sign, a positive number, plus infinity, or a NaN. *)
Definition notNegative (x : spec_float) : Prop :=
  match x with
  | S754_nan | S754_zero _ => True
  | S754_infinity s | S754_finite s _ _ => s = false
  end.

(** A number below zero, or minus infinity. *)
Definition negative (x : spec_float) : Prop :=
  match x with
  | S754_infinity s | S754_finite s _ _ => s = true
  | _ => False
  end.

(** A NaN. *)
Definition isNaN (x : spec_float) : Prop :=
  match x with S754_nan => True | _ => False end.

End FloatSign.

(* ================================================================== *)
(** ** Facts about the Python runtime                                  *)
(* ================================================================== *)

Lemma contains_In {A} (eq_dec : forall a b : A, {a = b} + {a <> b}) x l :
  contains eq_dec x l = true <-> In x l.
Proof.
  unfold contains. destruct (in_dec eq_dec x l); split; intro; auto; discriminate.
Qed.

Lemma contains_not_In {A} (eq_dec : forall a b : A, {a = b} + {a <> b}) x l :
  contains eq_dec x l = false <-> ~ In x l.
Proof.
  unfold contains. destruct (in_dec eq_dec x l); split; intro; auto;
    [discriminate | contradiction].
Qed.

Lemma remove_first_length {A} (eq_dec : forall a b : A, {a = b} + {a <> b}) x l :
  In x l -> S (List.length (remove_first eq_dec x l)) = List.length l.
Proof.
  induction l as [|y l IH]; simpl; [tauto|].
  intros Hin. destruct (eq_dec x y) as [E|E]; [reflexivity|].
  destruct Hin as [E'|Hin]; [congruence|].
  simpl. rewrite IH; auto.
Qed.

Lemma remove_first_In {A} (eq_dec : forall a b : A, {a = b} + {a <> b}) x y l :
  In y (remove_first eq_dec x l) -> In y l.
Proof.
  induction l as [|z l IH]; simpl; auto.
  destruct (eq_dec x z); simpl; intuition.
Qed.

Lemma remove_first_other {A} (eq_dec : forall a b : A, {a = b} + {a <> b}) x y l :
  x <> y -> In y l -> In y (remove_first eq_dec x l).
Proof.
  intros Hne. induction l as [|z l IH]; simpl; auto.
  destruct (eq_dec x z) as [->|E]; simpl; intuition congruence.
Qed.

Lemma remove_first_NoDup {A} (eq_dec : forall a b : A, {a = b} + {a <> b}) x l :
  NoDup l -> ~ In x (remove_first eq_dec x l).
Proof.
  induction 1 as [|y l Hy Hnd IH]; simpl; auto.
  destruct (eq_dec x y) as [->|E]; simpl; intuition.
Qed.

Lemma count_remove_first {A} (eq_dec : forall a b : A, {a = b} + {a <> b}) x y l :
  count_occ eq_dec (remove_first eq_dec x l) y =
  if eq_dec x y then pred (count_occ eq_dec l y) else count_occ eq_dec l y.
Proof.
  induction l as [|z l IH]; simpl.
  - destruct (eq_dec x y); reflexivity.
  - destruct (eq_dec x z) as [->|E].
    + destruct (eq_dec z y); reflexivity.
    + simpl. destruct (eq_dec z y) as [->|E'].
      * destruct (eq_dec x y); [congruence|]. rewrite IH.
        destruct (eq_dec x y); congruence.
      * exact IH.
Qed.

Lemma max_from_In {A} (gt : A -> A -> bool) l : forall best,
  max_from gt best l = best \/ In (max_from gt best l) l.
Proof.
  induction l as [|x l IH]; simpl; intro best; auto.
  destruct (IH (if gt x best then x else best)) as [E|E]; auto.
  rewrite E. destruct (gt x best); auto.
Qed.

Lemma max_In {A} (gt : A -> A -> bool) l m :
  Py.max gt l = Ret m -> In m l.
Proof.
  destruct l as [|x l]; simpl; [discriminate|].
  intros [= <-]. destruct (max_from_In gt l x) as [E|E]; auto.
Qed.

Lemma max_nonempty {A} (gt : A -> A -> bool) l :
  l <> [] -> exists m, Py.max gt l = Ret m.
Proof. destruct l; [congruence|]. intros _. simpl. eauto. Qed.

(* ================================================================== *)
(** ** Construction of a reaction system                               *)
(* ================================================================== *)

Lemma setModels_three {VM} (self : ReactionSystem.t VM) tm pm vm :
  exists label,
    ReactionSystem.setModels self (Some tm) (Some pm) (Some vm)
    = Raise (InvalidReactionSystemException label).
Proof. simpl. eauto. Qed.

Lemma setModels_at_most_two {VM} (self : ReactionSystem.t VM) tm pm vm :
  tm = None \/ pm = None \/ vm = None ->
  ReactionSystem.setModels self tm pm vm
  = Ret (ReactionSystem.mk tm pm vm
           (ReactionSystem.initialConcentration self)
           (ReactionSystem.equationOfState self)).
Proof.
  destruct tm, pm, vm; intros [H | [H | H]]; try discriminate H; reflexivity.
Qed.

(** C8. The constructor of [ReactionSystem] (and the one of
    [BatchReactor], which only calls it) raises, and then raises
    [InvalidReactionSystemException], exactly when the temperature,
    pressure and volume models are all three given; with at most two of
    them given it returns a system that holds exactly the three
    arguments. *)
Theorem init_raises_iff_three_models
        (VM : Type)
        (tm : option (TemperatureModel.t float))
        (pm : option (PressureModel.t float))
        (vm : option VM) (ic : option Conc) :
  ((exists e, ReactionSystem.init tm pm vm ic = Raise e)
   <-> (tm <> None /\ pm <> None /\ vm <> None))
  /\ (forall e, ReactionSystem.init tm pm vm ic = Raise e ->
                exists label, e = InvalidReactionSystemException label)
  /\ (tm = None \/ pm = None \/ vm = None ->
      exists self,
        ReactionSystem.init tm pm vm ic = Ret self
        /\ ReactionSystem.temperatureModel self = tm
        /\ ReactionSystem.pressureModel self = pm
        /\ ReactionSystem.volumeModel self = vm)
  /\ BatchReactor.init tm pm vm ic = ReactionSystem.init tm pm vm ic.
Proof.
  split; [split | split; [| split]].
  - intros [e He]. destruct tm, pm, vm; try discriminate He.
    repeat split; discriminate.
  - intros (Ht & Hp & Hv). destruct tm, pm, vm; try congruence.
    unfold ReactionSystem.init.
    destruct (setModels_three (@ReactionSystem.blank VM) t t0 v) as [label ->].
    simpl. eauto.
  - intros e He. destruct tm, pm, vm; try discriminate He.
    unfold ReactionSystem.init in He.
    destruct (setModels_three (@ReactionSystem.blank VM) t t0 v) as [label E].
    rewrite E in He. simpl in He. injection He as <-. eauto.
  - intros Hnone. unfold ReactionSystem.init.
    rewrite (setModels_at_most_two _ Hnone). simpl. eauto.
  - reflexivity.
Qed.

Lemma init_raises_iff_three_models_witness :
  exists self,
    ReactionSystem.init (VM := unit)
      (Some (TemperatureModel.setIsothermal TemperatureModel.init 1000%float))
      (Some (PressureModel.setIsobaric PressureModel.init 100000%float))
      None None = Ret self
    /\ ReactionSystem.temperatureModel self
       = Some (TemperatureModel.setIsothermal TemperatureModel.init 1000%float)
    /\ ReactionSystem.pressureModel self
       = Some (PressureModel.setIsobaric PressureModel.init 100000%float)
    /\ ReactionSystem.volumeModel self = None.
Proof.
  apply (init_raises_iff_three_models
           (Some (TemperatureModel.setIsothermal TemperatureModel.init 1000%float))
           (Some (PressureModel.setIsobaric PressureModel.init 100000%float))
           (@None unit) None).
  right. right. reflexivity.
Defined.

(* ================================================================== *)
(** ** Temperature and pressure profiles                               *)
(* ================================================================== *)

(** C10. At every time, a temperature model whose type is not
    ['isothermal'] (a fresh one in particular) answers [None] to
    [getTemperature], and one set isothermal answers the value it was
    given, unchanged; likewise for a pressure model, [getPressure] and
    ['isobaric']. *)
Theorem profile_unset_none_constant_value (A : Type) (time : float) :
  (forall m : TemperatureModel.t A,
      TemperatureModel.type m <> "isothermal"%string ->
      TemperatureModel.getTemperature m time = Ret None)
  /\ TemperatureModel.getTemperature (@TemperatureModel.init A) time = Ret None
  /\ (forall (m : TemperatureModel.t A) (v : A),
         TemperatureModel.getTemperature (TemperatureModel.setIsothermal m v) time
         = Ret (Some v))
  /\ (forall m : PressureModel.t A,
         PressureModel.type m <> "isobaric"%string ->
         PressureModel.getPressure m time = Ret None)
  /\ PressureModel.getPressure (@PressureModel.init A) time = Ret None
  /\ (forall (m : PressureModel.t A) (v : A),
         PressureModel.getPressure (PressureModel.setIsobaric m v) time
         = Ret (Some v)).
Proof.
  repeat split; try reflexivity.
  - intros m Hm. unfold TemperatureModel.getTemperature, TemperatureModel.isIsothermal.
    destruct (String.eqb_spec (TemperatureModel.type m) "isothermal"); [contradiction|].
    reflexivity.
  - intros m Hm. unfold PressureModel.getPressure, PressureModel.isIsobaric.
    destruct (String.eqb_spec (PressureModel.type m) "isobaric"); [contradiction|].
    reflexivity.
Qed.

Lemma profile_unset_none_constant_value_witness :
  TemperatureModel.getTemperature
    (TemperatureModel.mk "adiabatic" [(0%float, 300%float)]) 5%float = Ret None
  /\ PressureModel.getPressure
       (PressureModel.mk "" [(0%float, 2%float)]) 5%float = Ret None.
Proof.
  destruct (profile_unset_none_constant_value float 5%float)
    as (Ht & _ & _ & Hp & _ & _).
  split; [apply Ht | apply Hp]; discriminate.
Defined.

(* ================================================================== *)
(** ** Species counts under the core/edge operations                   *)
(* ================================================================== *)

Section CoreEdgeCounts.

Import ReactionModel CoreEdgeReactionModel.

Lemma addReactionToCore_species rxn m :
  species (core (addReactionToCore rxn m)) = species (core m)
  /\ species (edge (addReactionToCore rxn m)) = species (edge m).
Proof.
  unfold addReactionToCore. simpl.
  destruct (contains Reaction_eq_dec rxn (reactions (edge m))); simpl; auto.
Qed.

Lemma promote_species l : forall m,
  species (core (fold_left (fun m' rxn => addReactionToCore rxn m') l m))
  = species (core m)
  /\ species (edge (fold_left (fun m' rxn => addReactionToCore rxn m') l m))
     = species (edge m).
Proof.
  induction l as [|rxn l IH]; simpl; intro m; auto.
  destruct (IH (addReactionToCore rxn m)) as [-> ->].
  apply addReactionToCore_species.
Qed.

Lemma addSpeciesToCore_core spec m :
  species (core (addSpeciesToCore spec m)) = species (core m) ++ [spec].
Proof.
  unfold addSpeciesToCore. simpl.
  destruct (inEdge _ spec); simpl; auto.
  match goal with |- context [fold_left ?f ?l ?m0] =>
    destruct (promote_species l m0) as [-> _] end.
  reflexivity.
Qed.

Lemma addSpeciesToCore_edge spec m :
  species (edge (addSpeciesToCore spec m))
  = if inEdge m spec then remove_first Species_eq_dec spec (species (edge m))
    else species (edge m).
Proof.
  unfold addSpeciesToCore, inEdge. simpl.
  destruct (contains Species_eq_dec spec (species (edge m))); simpl; auto.
  match goal with |- context [fold_left ?f ?l ?m0] =>
    destruct (promote_species l m0) as [_ ->] end.
  reflexivity.
Qed.

Context {C : Collaborators}.

Lemma scanSpecies_counts specs : forall st,
  species (core (snd (scanSpecies specs st))) = species (core (snd st))
  /\ List.length (species (edge (snd st)))
     <= List.length (species (edge (snd (scanSpecies specs st)))).
Proof.
  unfold scanSpecies.
  induction specs as [|spec specs IH]; simpl; intros [flag m]; auto.
  match goal with |- context [fold_left ?f specs ?st0] =>
    destruct (IH st0) as [Hc He] end.
  simpl in *. rewrite Hc. split.
  - destruct (negb (inEdge m spec) && negb (inCore m spec)); reflexivity.
  - eapply Nat.le_trans; [|exact He].
    destruct (negb (inEdge m spec) && negb (inCore m spec)); simpl; auto.
    rewrite length_app. simpl. lia.
Qed.

Lemma enlarge_reaction_counts m rxn :
  species (core (enlarge_reaction m rxn)) = species (core m)
  /\ List.length (species (edge m))
     <= List.length (species (edge (enlarge_reaction m rxn))).
Proof.
  unfold enlarge_reaction.
  pose proof (scanSpecies_counts (reactants rxn) (true, m)) as [Hc1 He1].
  pose proof (scanSpecies_counts (products rxn)
                (scanSpecies (reactants rxn) (true, m))) as [Hc2 He2].
  destruct (scanSpecies (products rxn) (scanSpecies (reactants rxn) (true, m)))
    as [flag m'].
  simpl in *. destruct flag.
  - destruct (addReactionToCore_species rxn m') as [-> ->].
    split; [congruence | lia].
  - simpl. split; [congruence | lia].
Qed.

Lemma enlarge_reactions_counts l : forall m,
  species (core (fold_left enlarge_reaction l m)) = species (core m)
  /\ List.length (species (edge m))
     <= List.length (species (edge (fold_left enlarge_reaction l m))).
Proof.
  induction l as [|rxn l IH]; simpl; intro m; auto.
  destruct (IH (enlarge_reaction m rxn)) as [-> He].
  destruct (enlarge_reaction_counts m rxn) as [-> He'].
  split; [reflexivity | lia].
Qed.

(** C7. [enlarge] never lowers the number of core species (it adds
    exactly one), and the number of core species plus the number of
    edge species never falls across the call. *)
Theorem enlarge_counts_nondecreasing (newSpecies : Species)
        (m : CoreEdgeReactionModel.t) :
  List.length (species (core m))
  <= List.length (species (core (enlarge newSpecies m)))
  /\ List.length (species (core m)) + List.length (species (edge m))
     <= List.length (species (core (enlarge newSpecies m)))
        + List.length (species (edge (enlarge newSpecies m)))
  /\ List.length (species (core (enlarge newSpecies m)))
     = S (List.length (species (core m))).
Proof.
  unfold enlarge.
  match goal with |- context [fold_left enlarge_reaction ?l ?m0] =>
    destruct (enlarge_reactions_counts l m0) as [Hc He] end.
  rewrite Hc. rewrite addSpeciesToCore_core in *.
  rewrite addSpeciesToCore_edge in He.
  rewrite length_app. simpl.
  assert (List.length (species (edge m))
          <= S (List.length (species (edge (fold_left enlarge_reaction
                (getReactions [newSpecies] ++
                 flat_map (fun coreSpecies : Species =>
                   if reactive coreSpecies
                   then getReactions [newSpecies; coreSpecies] else [])
                   (species (core m)))
                (addSpeciesToCore newSpecies m)))))) as Hedge.
  { unfold inEdge in He.
    destruct (contains Species_eq_dec newSpecies (species (edge m))) eqn:Hin.
    - apply contains_In in Hin.
      rewrite <- (remove_first_length Species_eq_dec _ _ Hin). lia.
    - lia. }
  lia.
Qed.

End CoreEdgeCounts.

(* ================================================================== *)
(** ** Promotion of edge reactions by [addSpeciesToCore]               *)
(* ================================================================== *)

Section Promotion.

Import ReactionModel CoreEdgeReactionModel Invariants.

Lemma allCore_spec m rxn :
  allCore m rxn = true
  <-> forall s, In s (referenced rxn) -> In s (species (core m)).
Proof.
  unfold allCore, referenced, inCore.
  rewrite andb_true_iff, !forallb_forall. split.
  - intros [Hr Hp] s Hs. apply in_app_or in Hs.
    destruct Hs as [Hs|Hs]; [apply Hr in Hs | apply Hp in Hs];
      apply contains_In in Hs; exact Hs.
  - intros H. split; intros s Hs; apply contains_In, H, in_or_app; auto.
Qed.

Lemma addReactionToCore_reactions rxn m :
  reactions (core (addReactionToCore rxn m)) = reactions (core m) ++ [rxn]
  /\ forall r, count_occ Reaction_eq_dec (reactions (edge (addReactionToCore rxn m))) r
               = count_occ Reaction_eq_dec (reactions (edge m)) r
                 - (if Reaction_eq_dec rxn r then 1 else 0).
Proof.
  unfold addReactionToCore. simpl.
  destruct (contains Reaction_eq_dec rxn (reactions (edge m))) eqn:Hin; simpl.
  - split; [reflexivity|]. intro r. rewrite count_remove_first.
    destruct (Reaction_eq_dec rxn r); lia.
  - split; [reflexivity|]. intro r.
    destruct (Reaction_eq_dec rxn r) as [<-|]; [|lia].
    apply contains_not_In in Hin.
    apply (count_occ_not_In Reaction_eq_dec) in Hin. lia.
Qed.

Lemma promote_reactions l : forall m,
  reactions (core (fold_left (fun m' rxn => addReactionToCore rxn m') l m))
  = reactions (core m) ++ l
  /\ forall r,
       count_occ Reaction_eq_dec
         (reactions (edge (fold_left (fun m' rxn => addReactionToCore rxn m') l m))) r
       = count_occ Reaction_eq_dec (reactions (edge m)) r
         - count_occ Reaction_eq_dec l r.
Proof.
  induction l as [|rxn l IH]; simpl; intro m.
  - rewrite app_nil_r. split; [reflexivity | intro; lia].
  - destruct (IH (addReactionToCore rxn m)) as [Hc He].
    destruct (addReactionToCore_reactions rxn m) as [Hc1 He1].
    rewrite Hc, Hc1, <- app_assoc. split; [reflexivity|].
    intro r. rewrite He, He1. destruct (Reaction_eq_dec rxn r); lia.
Qed.

Lemma count_occ_filter_true (keep : Reaction -> bool) l r :
  keep r = true ->
  count_occ Reaction_eq_dec (filter keep l) r = count_occ Reaction_eq_dec l r.
Proof.
  intro Hk. induction l as [|x l IH]; simpl; auto.
  destruct (keep x) eqn:Hx; simpl.
  - destruct (Reaction_eq_dec x r); congruence.
  - destruct (Reaction_eq_dec x r); congruence.
Qed.

(** With [spec] in the edge, the scan promotes every edge reaction that
    has become all-core; no invariant is needed for this. *)
Lemma addSpeciesToCore_cascade spec m r :
  inEdge m spec = true ->
  In r (reactions (edge m)) ->
  (forall s, In s (referenced r) -> In s (species (core (addSpeciesToCore spec m)))) ->
  In r (reactions (core (addSpeciesToCore spec m)))
  /\ ~ In r (reactions (edge (addSpeciesToCore spec m))).
Proof.
  intros Hedge Hr Hall. rewrite addSpeciesToCore_core in Hall.
  unfold addSpeciesToCore. unfold inEdge in *. simpl. rewrite Hedge. simpl.
  match goal with |- context [fold_left ?f ?l ?m0] =>
    destruct (promote_reactions l m0) as [Hc He]; set (m2 := m0) in * end.
  assert (Hkeep : allCore m2 r = true) by (apply allCore_spec; exact Hall).
  rewrite Hc. split.
  - apply in_or_app. right. apply filter_In. split; assumption.
  - apply (count_occ_not_In Reaction_eq_dec). rewrite He.
    rewrite (count_occ_filter_true _ _ _ Hkeep). simpl. lia.
Qed.

End Promotion.

Lemma NoDup_calm_edge :
  NoDup (ReactionModel.species (CoreEdgeReactionModel.edge Examples.calmModel)).
Proof. simpl. constructor; [simpl; tauto | constructor]. Qed.

Lemma invariants_calmModel : Invariants.invariants Examples.calmModel.
Proof.
  unfold Invariants.invariants, Invariants.disjointSpecies,
    Invariants.disjointReactions, Invariants.coreMembership,
    Invariants.speciesPresent, Invariants.referenced. simpl.
  repeat split.
  - intros s [<-|[<-|[]]] [E|[]]; discriminate E.
  - intros r [<-|[]] [E|[]]; discriminate E.
  - intros [<-|[]] s; simpl; intuition (subst; auto).
  - intros Hall. destruct H as [<-|[<-|[]]]; [auto|].
    exfalso. simpl in Hall. destruct (Hall Examples.B) as [E|[E|[]]];
      [auto | discriminate E | discriminate E].
  - intros r [<-|[<-|[]]] s; simpl; intuition (subst; auto).
Qed.

(* ================================================================== *)
(** ** Comparisons of binary64 numbers                                 *)
(* ================================================================== *)

Section FloatFacts.

Import FloatSign.

Lemma binary_round_aux_sign prec emax mx ex lx :
  notNegative (binary_round_aux prec emax false mx ex lx).
Proof.
  unfold binary_round_aux.
  destruct (shr_fexp prec emax mx ex lx) as [mrs' e'].
  destruct (shr_fexp prec emax _ e' loc_Exact) as [mrs'' e''].
  destruct (shr_m mrs''); simpl; auto.
  destruct (Z.leb e'' (emax - prec)); simpl; auto.
Qed.

Lemma SFsqrt_sign prec emax x : notNegative (SFsqrt prec emax x).
Proof.
  destruct x as [s|s| |s m e]; simpl; auto.
  - destruct s; simpl; auto.
  - destruct s; simpl; auto.
    destruct (SFsqrt_core_binary prec emax (Z.pos m) e) as [[mz ez] lz].
    apply binary_round_aux_sign.
Qed.

Lemma SFmul_sign prec emax x y :
  notNegative x -> notNegative y -> notNegative (SFmul prec emax x y).
Proof.
  destruct x as [sx|sx| |sx mx ex], y as [sy|sy| |sy my ey]; simpl; auto;
    intros; subst; simpl; auto.
  apply binary_round_aux_sign.
Qed.

Lemma ltb_zero_sign x :
  PrimFloat.ltb x 0%float = true -> negative (Prim2SF x).
Proof.
  rewrite ltb_spec. change (Prim2SF 0) with (S754_zero false).
  destruct (Prim2SF x) as [[]|[]| |[] m e]; simpl; auto; discriminate.
Qed.

Lemma SFltb_signs c f : notNegative c -> negative f -> SFltb c f = false.
Proof.
  destruct c as [sc|sc| |sc mc ec], f as [sf|sf| |sf mf ef]; simpl;
    intros; subst; try contradiction; reflexivity.
Qed.

(** [x > x] is false for every float, a NaN included. *)
Lemma ltb_irrefl x : PrimFloat.ltb x x = false.
Proof.
  rewrite ltb_spec. unfold SFltb, SFcompare.
  destruct (Prim2SF x) as [s|s| |s m e]; auto.
  - destruct s; reflexivity.
  - rewrite Z.compare_refl, Pos.compare_cont_refl. destruct s; reflexivity.
Qed.

Lemma not_below_zero_sign x :
  PrimFloat.ltb x 0%float = false -> notNegative (Prim2SF x).
Proof.
  rewrite ltb_spec. change (Prim2SF 0) with (S754_zero false).
  destruct (Prim2SF x) as [[]|[]| |[] m e]; simpl; auto; discriminate.
Qed.

(** A tolerance that is not below zero (a NaN included), times a square
    root, is never below a negative number. *)
Lemma scaled_root_not_below tol x f :
  PrimFloat.ltb tol 0%float = false -> PrimFloat.ltb f 0%float = true ->
  PrimFloat.ltb (PrimFloat.mul tol (PrimFloat.sqrt x)) f = false.
Proof.
  intros Htol Hf. rewrite ltb_spec, mul_spec, sqrt_spec.
  apply SFltb_signs; [|apply ltb_zero_sign; exact Hf].
  apply SFmul_sign; [apply not_below_zero_sign; exact Htol | apply SFsqrt_sign].
Qed.

Ltac split_compare :=
  repeat match goal with
         | H : context [(?a ?= ?b)%Z] |- _ => destruct (Z.compare_spec a b)
         | |- context [(?a ?= ?b)%Z] => destruct (Z.compare_spec a b)
         | H : context [Pos.compare_cont Eq ?a ?b] |- _ =>
             change (Pos.compare_cont Eq a b) with (Pos.compare a b) in *;
             destruct (Pos.compare_spec a b)
         | |- context [Pos.compare_cont Eq ?a ?b] =>
             change (Pos.compare_cont Eq a b) with (Pos.compare a b) in *;
             destruct (Pos.compare_spec a b)
         end.

Lemma SFltb_false_trans x y z :
  ~ isNaN y ->
  SFltb y x = false -> SFltb z y = false -> SFltb z x = false.
Proof.
  unfold SFltb, SFcompare.
  destruct x as [[]|[]| |[] mx ex], y as [[]|[]| |[] my ey], z as [[]|[]| |[] mz ez];
    simpl; intros Hy H1 H2; try reflexivity; try discriminate; try tauto;
    split_compare; subst; simpl in *; try reflexivity; try discriminate; try lia.
Qed.

Lemma SFeqb_ltb_false x y :
  SFeqb x y = true -> SFltb y x = false /\ SFltb x y = false.
Proof.
  unfold SFeqb, SFltb, SFcompare.
  destruct x as [[]|[]| |[] mx ex], y as [[]|[]| |[] my ey];
    simpl; intros H; split; try reflexivity; try discriminate;
    split_compare; subst; simpl in *; try reflexivity; try discriminate; try lia.
Qed.

Lemma SFltb_asym x y : SFltb x y = true -> SFltb y x = false.
Proof.
  unfold SFltb, SFcompare.
  destruct x as [[]|[]| |[] mx ex], y as [[]|[]| |[] my ey];
    simpl; intros H; try reflexivity; try discriminate;
    split_compare; subst; simpl in *; try reflexivity; try discriminate; try lia.
Qed.

Lemma is_nan_false x : PrimFloat.is_nan x = false -> ~ isNaN (Prim2SF x).
Proof.
  unfold PrimFloat.is_nan. rewrite FloatAxioms.eqb_spec.
  destruct (Prim2SF x); simpl; auto; discriminate.
Qed.

(** Not above, for floats: [a > b] is false. *)
Lemma ltb_false_trans a b c :
  PrimFloat.is_nan b = false ->
  PrimFloat.ltb b a = false -> PrimFloat.ltb c b = false ->
  PrimFloat.ltb c a = false.
Proof.
  rewrite !ltb_spec. intro Hb. apply SFltb_false_trans, is_nan_false, Hb.
Qed.

Lemma eqb_ltb_false a b :
  PrimFloat.eqb a b = true ->
  PrimFloat.ltb b a = false /\ PrimFloat.ltb a b = false.
Proof. rewrite FloatAxioms.eqb_spec, !ltb_spec. apply SFeqb_ltb_false. Qed.

Lemma ltb_asym a b : PrimFloat.ltb a b = true -> PrimFloat.ltb b a = false.
Proof. rewrite !ltb_spec. apply SFltb_asym. Qed.

(** Among tuples whose first components are not NaN, [max] selects one
    whose first component no other exceeds. *)
Lemma max_from_first_maximal {B} (eqb2 gt2 : B -> B -> bool) l : forall best,
  PrimFloat.is_nan (fst best) = false ->
  (forall x, In x l -> PrimFloat.is_nan (fst x) = false) ->
  PrimFloat.is_nan (fst (max_from (tuple_gt eqb2 gt2) best l)) = false
  /\ forall x, x = best \/ In x l ->
               PrimFloat.ltb (fst (max_from (tuple_gt eqb2 gt2) best l)) (fst x)
               = false.
Proof.
  induction l as [|x l IH]; simpl; intros best Hbest Hl.
  - split; [exact Hbest|]. intros y [->|[]]. apply ltb_irrefl.
  - set (best' := if tuple_gt eqb2 gt2 x best then x else best).
    assert (Hnan : PrimFloat.is_nan (fst best') = false).
    { unfold best'. destruct (tuple_gt eqb2 gt2 x best); auto. }
    assert (Hstep : PrimFloat.ltb (fst best') (fst best) = false
                    /\ PrimFloat.ltb (fst best') (fst x) = false).
    { unfold best', tuple_gt.
      destruct (PrimFloat.eqb (fst x) (fst best)) eqn:He.
      - destruct (eqb_ltb_false He) as [H1 H2].
        destruct (eqb2 (snd x) (snd best)); [|destruct (gt2 (snd x) (snd best))];
          split; auto using ltb_irrefl.
      - destruct (PrimFloat.ltb (fst best) (fst x)) eqn:Hlt; split;
          auto using ltb_irrefl, ltb_asym. }
    destruct (IH best' Hnan (fun y Hy => Hl y (or_intror Hy))) as [Hm Hmax].
    split; [exact Hm|].
    intros y [->|[->|Hy]].
    + apply (ltb_false_trans Hnan (proj1 Hstep)). apply Hmax. auto.
    + apply (ltb_false_trans Hnan (proj2 Hstep)). apply Hmax. auto.
    + apply Hmax. auto.
Qed.

Lemma max_first_maximal {B} (eqb2 gt2 : B -> B -> bool) l m :
  (forall x, In x l -> PrimFloat.is_nan (fst x) = false) ->
  Py.max (tuple_gt eqb2 gt2) l = Ret m ->
  forall x, In x l -> PrimFloat.ltb (fst m) (fst x) = false.
Proof.
  destruct l as [|best l]; simpl; [discriminate|].
  intros Hl [= <-] x Hx.
  apply (@max_from_first_maximal B eqb2 gt2 l best); auto.
  destruct Hx; auto.
Qed.

End FloatFacts.

(* ================================================================== *)
(** ** [CoreEdgeReactionModel.isValid]                                 *)
(* ================================================================== *)

Lemma dict_get_set {K V} (eq_dec : forall a b : K, {a = b} + {a <> b})
      (d : list (K * V)) k v k' :
  dict_get eq_dec (dict_set eq_dec d k v) k'
  = if eq_dec k' k then Ret v else dict_get eq_dec d k'.
Proof.
  induction d as [|[k0 v0] d IH]; simpl.
  - destruct (eq_dec k' k); reflexivity.
  - destruct (eq_dec k k0) as [->|Hk]; simpl.
    + destruct (eq_dec k' k0); reflexivity.
    + destruct (eq_dec k' k0) as [->|Hk'].
      * destruct (eq_dec k0 k); [congruence | reflexivity].
      * exact IH.
Qed.

Section IsValid.

Import ReactionModel CoreEdgeReactionModel.
Context {C : Collaborators}.

Lemma rxnFlux_fold_defined (rate : Reaction -> float) l rxn : forall d,
  (In rxn l \/ exists v, dict_get Reaction_eq_dec d rxn = Ret v) ->
  exists v,
    dict_get Reaction_eq_dec
      (fold_left (fun d' r => dict_set Reaction_eq_dec d' r (rate r)) l d) rxn
    = Ret v.
Proof.
  induction l as [|r l IH]; simpl; intros d H.
  - destruct H as [[]|H]; exact H.
  - apply IH. destruct (Reaction_eq_dec rxn r) as [->|Hne].
    + right. rewrite dict_get_set.
      destruct (Reaction_eq_dec r r); [eauto | congruence].
    + destruct H as [[E|H]|[v H]]; [congruence | left; exact H |].
      right. rewrite dict_get_set.
      destruct (Reaction_eq_dec rxn r); [congruence | eauto].
Qed.

Lemma rxnFlux_defined m T P conc rxn :
  In rxn (reactions (core m)) ->
  exists v, dict_get Reaction_eq_dec (rxnFlux m T P conc) rxn = Ret v.
Proof.
  intro H. unfold rxnFlux.
  apply (rxnFlux_fold_defined (fun r => getRate r T P conc)). auto.
Qed.

Lemma subFlux_total m flux rxn rate d s :
  dict_get Reaction_eq_dec flux rxn = Ret rate ->
  exists d', subFlux m flux rxn (Ret d) s = Ret d'.
Proof.
  intro Hr. unfold subFlux. simpl. destruct (inEdge m s); eauto.
  rewrite Hr. simpl. destruct (dict_get Species_eq_dec d s); eauto.
Qed.

Lemma addFlux_total m flux rxn rate d s :
  dict_get Reaction_eq_dec flux rxn = Ret rate ->
  exists d', addFlux m flux rxn (Ret d) s = Ret d'.
Proof.
  intro Hr. unfold addFlux. simpl. destruct (inEdge m s); eauto.
  rewrite Hr. simpl. destruct (dict_get Species_eq_dec d s); eauto.
Qed.

Lemma subFlux_fold_total m flux rxn rate l : forall d,
  dict_get Reaction_eq_dec flux rxn = Ret rate ->
  exists d', fold_left (subFlux m flux rxn) l (Ret d) = Ret d'.
Proof.
  induction l as [|s l IH]; cbn [fold_left]; intros d Hr; eauto.
  destruct (@subFlux_total m flux rxn rate d s Hr) as [d' ->]. apply IH. exact Hr.
Qed.

Lemma addFlux_fold_total m flux rxn rate l : forall d,
  dict_get Reaction_eq_dec flux rxn = Ret rate ->
  exists d', fold_left (addFlux m flux rxn) l (Ret d) = Ret d'.
Proof.
  induction l as [|s l IH]; cbn [fold_left]; intros d Hr; eauto.
  destruct (@addFlux_total m flux rxn rate d s Hr) as [d' ->]. apply IH. exact Hr.
Qed.

Lemma specFlux_fold_total m flux l : forall d,
  (forall rxn, In rxn l -> exists v, dict_get Reaction_eq_dec flux rxn = Ret v) ->
  exists d', fold_left (specFlux_reaction m flux) l (Ret d) = Ret d'.
Proof.
  induction l as [|rxn l IH]; cbn [fold_left]; intros d H; eauto.
  destruct (H rxn (or_introl eq_refl)) as [rate Hr].
  assert (Hstep : exists d2, specFlux_reaction m flux (Ret d) rxn = Ret d2).
  { unfold specFlux_reaction.
    destruct (@subFlux_fold_total m flux rxn rate (reactants rxn) d Hr) as [d1 ->].
    apply (@addFlux_fold_total m flux rxn rate (products rxn) d1 Hr). }
  destruct Hstep as [d2 ->].
  apply IH. intros r Hin. apply H. right. exact Hin.
Qed.

(** The species fluxes are always computed: [rxnFlux[rxn]] is defined
    for every core reaction. *)
Lemma specFlux_total m T P conc :
  exists d, specFlux m T P conc = Ret d.
Proof.
  unfold specFlux. apply specFlux_fold_total.
  intros rxn Hin. apply rxnFlux_defined. exact Hin.
Qed.

Lemma subFlux_fold_no_edge m flux rxn l : forall acc,
  species (edge m) = [] ->
  fold_left (subFlux m flux rxn) l (Ret acc) = Ret acc.
Proof.
  induction l as [|s l IH]; cbn [fold_left]; intros acc He; auto.
  replace (subFlux m flux rxn (Ret acc) s) with (Ret acc : result (list (Species * float)));
    [apply IH; exact He|].
  unfold subFlux, inEdge. rewrite He. reflexivity.
Qed.

Lemma addFlux_fold_no_edge m flux rxn l : forall acc,
  species (edge m) = [] ->
  fold_left (addFlux m flux rxn) l (Ret acc) = Ret acc.
Proof.
  induction l as [|s l IH]; cbn [fold_left]; intros acc He; auto.
  replace (addFlux m flux rxn (Ret acc) s) with (Ret acc : result (list (Species * float)));
    [apply IH; exact He|].
  unfold addFlux, inEdge. rewrite He. reflexivity.
Qed.

Lemma specFlux_no_edge_species m T P conc :
  species (edge m) = [] -> specFlux m T P conc = Ret [].
Proof.
  intro He. unfold specFlux. generalize (rxnFlux m T P conc) as flux. intro flux.
  induction (reactions (core m)) as [|rxn l IH]; cbn [fold_left]; auto.
  replace (specFlux_reaction m flux (Ret []) rxn)
    with (Ret [] : result (list (Species * float))); [exact IH|].
  unfold specFlux_reaction.
  rewrite subFlux_fold_no_edge, addFlux_fold_no_edge; auto.
Qed.

Lemma charFlux_shape m T P conc cf :
  charFlux m T P conc = Ret cf ->
  exists x, cf = PrimFloat.mul (fluxTolerance m) (PrimFloat.sqrt x).
Proof.
  unfold charFlux.
  destruct (mapM float_pow2 (map snd (rxnFlux m T P conc))) as [squares|e];
    simpl; [|discriminate].
  unfold math_sqrt. destruct (PrimFloat.ltb (Py.sum squares) 0); simpl;
    [discriminate|].
  intros [= <-]. eauto.
Qed.

(** C3, evaluated on the code. When no edge species receives any flux
    the selection of the maximum is not guarded: [isValid] never
    returns a verdict there. With no core reaction it raises
    [ValueError], whatever the species, the edge reactions and the
    conditions are; with no edge species, or with an empty flux
    dictionary for any other reason, it returns neither [True] nor
    [False]. *)
Theorem isValid_without_flux_raises (T P : float) (conc : Conc) :
  (forall coreSpecies e tol atol rtol,
      isValid (CoreEdgeReactionModel.mk (ReactionModel.mk coreSpecies []) e
                                        tol atol rtol) T P conc
      = Raise ValueError)
  /\ (forall m, specFlux m T P conc = Ret [] ->
                exists e, isValid m T P conc = Raise e)
  /\ (forall m, species (edge m) = [] ->
                exists e, isValid m T P conc = Raise e)
  /\ isValid (CoreEdgeReactionModel.init None None) T P conc = Raise ValueError.
Proof.
  assert (Hempty : forall m, specFlux m T P conc = Ret [] ->
                             exists e, isValid m T P conc = Raise e).
  { intros m Hd. unfold isValid.
    destruct (charFlux m T P conc) as [cf|e]; simpl; eauto.
    rewrite Hd. simpl. eauto. }
  split; [|split; [exact Hempty | split]].
  - intros. reflexivity.
  - intros m He. apply Hempty, specFlux_no_edge_species, He.
  - reflexivity.
Qed.

(** C5, as the code has it. [isValid] compares with a strict [>].
    Whenever the characteristic flux [cf] is computed, the species
    fluxes are computed too, and for the entry [mx] that [max] selects
    among them (an entry of the flux dictionary, chosen by signed
    value): the verdict is [not (mx > cf)]; it is valid when the
    maximum equals the characteristic flux, and invalid only when the
    maximum is strictly greater. With a flux tolerance that is not
    below zero, a negative maximum flux, however large in magnitude,
    leaves the model valid; so does a flux dictionary whose entries are
    all negative. The entry selected is a maximum by value: no flux
    that is a number exceeds it. *)
Theorem isValid_strict_comparison (m : CoreEdgeReactionModel.t)
        (T P : float) (conc : Conc) (cf : float) :
  charFlux m T P conc = Ret cf ->
  exists d,
    specFlux m T P conc = Ret d
    /\ forall mx,
        maxSpecFlux d = Ret mx ->
        In (snd mx, fst mx) d
        /\ isValid m T P conc = Ret (negb (PrimFloat.ltb cf (fst mx)))
        /\ (fst mx = cf -> isValid m T P conc = Ret true)
        /\ (isValid m T P conc = Ret false <-> PrimFloat.ltb cf (fst mx) = true)
        /\ (PrimFloat.ltb (fluxTolerance m) 0%float = false ->
            PrimFloat.ltb (fst mx) 0%float = true ->
            isValid m T P conc = Ret true)
        /\ (PrimFloat.ltb (fluxTolerance m) 0%float = false ->
            (forall s f, In (s, f) d -> PrimFloat.ltb f 0%float = true) ->
            isValid m T P conc = Ret true)
        /\ ((forall s f, In (s, f) d -> PrimFloat.is_nan f = false) ->
            forall s f, In (s, f) d -> PrimFloat.ltb (fst mx) f = false).
Proof.
  intro Hcf. destruct (specFlux_total m T P conc) as [d Hd].
  exists d. split; [exact Hd|]. intros mx Hmx.
  assert (Hin : In (snd mx, fst mx) d).
  { unfold maxSpecFlux in Hmx. apply max_In in Hmx.
    apply in_map_iff in Hmx. destruct Hmx as [[s f] [<- Hin]]. exact Hin. }
  assert (Hval : isValid m T P conc = Ret (negb (PrimFloat.ltb cf (fst mx)))).
  { unfold isValid. rewrite Hcf, Hd. simpl. rewrite Hmx. simpl.
    destruct (PrimFloat.ltb cf (fst mx)); reflexivity. }
  assert (Hneg : PrimFloat.ltb (fluxTolerance m) 0%float = false ->
                 PrimFloat.ltb (fst mx) 0%float = true ->
                 Ret (negb (PrimFloat.ltb cf (fst mx))) = Ret true :> result bool).
  { intros Htol Hmax. destruct (charFlux_shape _ _ _ _ Hcf) as [x ->].
    rewrite (scaled_root_not_below x Htol Hmax). reflexivity. }
  split; [exact Hin|]. split; [exact Hval|]. rewrite Hval.
  split; [|split; [|split; [|split]]].
  - intros ->. rewrite ltb_irrefl. reflexivity.
  - destruct (PrimFloat.ltb cf (fst mx)); simpl; split; congruence.
  - exact Hneg.
  - intros Htol Hall. apply Hneg; [exact Htol|]. exact (Hall _ _ Hin).
  - intros Hnan s f Hsf. unfold maxSpecFlux in Hmx.
    refine (@max_first_maximal _ _ _ (map (fun kv => (snd kv, fst kv)) d)
              mx _ Hmx (f, s) _).
    + intros x Hx. apply in_map_iff in Hx. destruct Hx as [[s' f'] [<- Hx]].
      simpl. eapply Hnan; eauto.
    + apply in_map_iff. exists (s, f). auto.
Qed.

End IsValid.

Lemma isValid_without_flux_raises_witness :
  exists e,
    CoreEdgeReactionModel.isValid (C := Examples.methane)
            (CoreEdgeReactionModel.mk (ReactionModel.mk [Examples.A] [Examples.rAD])
                                      (ReactionModel.mk [] [])
                                      1.0%float 1.0e-8%float 1.0e-4%float)
            1000%float 100000%float []
    = Raise e.
Proof.
  apply (isValid_without_flux_raises (C := Examples.methane) 1000%float 100000%float []).
  reflexivity.
Defined.

Lemma isValid_strict_comparison_witness :
  CoreEdgeReactionModel.charFlux (C := Examples.methane) Examples.drainModel
                                 1000%float 100000%float [] = Ret 25%float
  /\ CoreEdgeReactionModel.specFlux (C := Examples.methane) Examples.drainModel
                                    1000%float 100000%float []
     = Ret [(Examples.B, (-50)%float)]
  /\ CoreEdgeReactionModel.isValid (C := Examples.methane) Examples.drainModel
                                   1000%float 100000%float [] = Ret true.
Proof.
  assert (Hcf : CoreEdgeReactionModel.charFlux (C := Examples.methane)
                  Examples.drainModel 1000%float 100000%float [] = Ret 25%float)
    by reflexivity.
  split; [exact Hcf|]. split; [reflexivity|].
  destruct (isValid_strict_comparison (C := Examples.methane)
              Examples.drainModel 1000%float 100000%float [] Hcf)
    as (d & Hd & Hmx).
  injection Hd as <-.
  destruct (Hmx ((-50)%float, Examples.B) eq_refl) as (_ & _ & _ & _ & Hneg & _).
  apply Hneg; reflexivity.
Defined.

(** C5, as stated, fails for a negative flux tolerance: on
    [overdrawnModel] the characteristic flux is [-2 * 50 = -100], the
    only edge flux is the net consumption [-50] of [B], and [-50] is
    strictly greater than [-100]: the negative flux makes the model
    invalid. *)
Lemma isValid_negative_tolerance_rejects_consumption :
  CoreEdgeReactionModel.charFlux (C := Examples.methane) Examples.overdrawnModel
                                 1000%float 100000%float [] = Ret (-100)%float
  /\ CoreEdgeReactionModel.specFlux (C := Examples.methane) Examples.overdrawnModel
                                    1000%float 100000%float []
     = Ret [(Examples.B, (-50)%float)]
  /\ PrimFloat.ltb (-50)%float 0%float = true
  /\ CoreEdgeReactionModel.isValid (C := Examples.methane) Examples.overdrawnModel
                                   1000%float 100000%float [] = Ret false.
Proof. repeat split; vm_compute; reflexivity. Qed.

(** C2, evaluated on the code. [isValid] returns a bare boolean, never
    a pair. On [halfModel] the flux to the edge species [B] (1) exceeds
    the characteristic flux (0.5): [max] selects [(1, B)], and the
    answer is [False] alone, without the species; on [mixedModel] (flux 1,
    characteristic flux 1) the answer is [True] alone. *)
Theorem isValid_returns_verdict_alone :
  CoreEdgeReactionModel.charFlux (C := Examples.methane) Examples.halfModel
                                 1000%float 100000%float [] = Ret 0.5%float
  /\ (d <- CoreEdgeReactionModel.specFlux (C := Examples.methane) Examples.halfModel
                                          1000%float 100000%float [] ;;
      CoreEdgeReactionModel.maxSpecFlux (C := Examples.methane) d)
     = Ret (1%float, Examples.B)
  /\ CoreEdgeReactionModel.isValid (C := Examples.methane) Examples.halfModel
                                   1000%float 100000%float [] = Ret false
  /\ CoreEdgeReactionModel.isValid (C := Examples.methane) Examples.mixedModel
                                   1000%float 100000%float [] = Ret true.
Proof. repeat split; vm_compute; reflexivity. Qed.

(** C4, evaluated on the code. Seeding a fresh model with [CH3], [H] and
    [CH4], the kinetics database knowing [CH3 + H -> CH4] and its
    reverse, leaves the reverse reaction in the edge although all its
    reactants and products are core species: [initialize] puts every
    reaction it finds in the edge, and only a later promotion of a
    species from the edge moves reactions to the core. *)
Theorem initialize_leaves_core_reaction_in_edge :
  CoreEdgeReactionModel.initialize (C := Examples.methane)
    [Examples.CH3; Examples.H; Examples.CH4] (CoreEdgeReactionModel.init None None)
  = CoreEdgeReactionModel.mk
      (ReactionModel.mk [Examples.CH3; Examples.H; Examples.CH4] [Examples.forward])
      (ReactionModel.mk [] [Examples.reverse])
      1.0%float 1.0e-8%float 1.0e-4%float
  /\ (forall s, In s (Invariants.referenced Examples.reverse) ->
                In s [Examples.CH3; Examples.H; Examples.CH4])
  /\ ~ In Examples.reverse [Examples.forward]
  /\ (Invariants.coreMembership
        (CoreEdgeReactionModel.initialize (C := Examples.methane)
           [Examples.CH3; Examples.H; Examples.CH4]
           (CoreEdgeReactionModel.init None None)) -> False).
Proof.
  assert (Hall : forall s, In s (Invariants.referenced Examples.reverse) ->
                           In s [Examples.CH3; Examples.H; Examples.CH4]).
  { simpl. intros s [<-|[<-|[<-|[]]]]; simpl; auto. }
  assert (Hnot : ~ In Examples.reverse [Examples.forward]).
  { intros [E|[]]. discriminate E. }
  split; [vm_compute; reflexivity|]. split; [exact Hall|]. split; [exact Hnot|].
  intro H3. apply Hnot.
  apply (H3 Examples.reverse); [right; left; reflexivity | exact Hall].
Qed.

(* ================================================================== *)
(** ** [BatchReactor.isModelValid], the validity check of [simulate]   *)
(* ================================================================== *)

Lemma enumerate_from_In {A} (l : list A) : forall n i v,
  In (i, v) (enumerate_from n l) ->
  exists k, i = n + k /\ nth_error l k = Some v.
Proof.
  induction l as [|x l IH]; simpl; intros n i v H; [contradiction|].
  destruct H as [[= <- <-]|H].
  - exists 0. split; [lia | reflexivity].
  - destruct (IH _ _ _ H) as (k & -> & Hk). exists (S k). split; [lia | exact Hk].
Qed.

Lemma invariants_fluxModel : Invariants.invariants Examples.fluxModel.
Proof.
  unfold Invariants.invariants, Invariants.disjointSpecies,
    Invariants.disjointReactions, Invariants.coreMembership,
    Invariants.speciesPresent, Invariants.referenced. simpl.
  repeat split.
  - intros s [<-|[<-|[]]] [E|[]]; discriminate E.
  - intros r [<-|[]] [E|[]]; discriminate E.
  - intros [<-|[]] s; simpl; intuition (subst; auto).
  - intros Hall. destruct H as [<-|[<-|[]]]; [auto|].
    exfalso. simpl in Hall. destruct (Hall Examples.B) as [E|[E|[]]];
      [auto | discriminate E | discriminate E].
  - intros r [<-|[<-|[]]] s; simpl; intuition (subst; auto).
Qed.

(** C1, as stated, fails. On [fluxModel], which satisfies invariants
    (1)-(4), the core reaction [A -> D] gives the edge species [B] no
    flux: [isValid] finds no flux entry and raises, while the check of
    [simulate] reports [B], whose flux 20 comes from the edge reaction
    [A -> B] alone. On [mixedModel], where [isValid] does answer, it
    answers valid (flux 1 from the core reaction against a
    characteristic flux of 1), and the check of [simulate] answers
    invalid with [B] (flux 21, the edge reaction included). *)
Lemma simulate_check_differs_from_isValid :
  Invariants.invariants Examples.fluxModel
  /\ CoreEdgeReactionModel.isValid (C := Examples.methane) Examples.fluxModel
       1000%float 100000%float [(Examples.A, 1%float); (Examples.D, 0%float)]
     = Raise ValueError
  /\ BatchReactor.isModelValid (C := Examples.methane) Examples.reactor
       Examples.fluxModel 100000%float 1%float 1000%float [1%float; 0%float]
       (BatchReactor.stoichiometryMatrix (C := Examples.methane) Examples.fluxModel)
       0%float
     = Ret (false, Some Examples.B)
  /\ BatchReactor.stoichiometryMatrix (C := Examples.methane) Examples.fluxModel
     = [[(-1)%float; (-1)%float]; [1%float; 0%float]; [0%float; 1%float]]
  /\ CoreEdgeReactionModel.isValid (C := Examples.methane) Examples.mixedModel
       1000%float 100000%float [(Examples.A, 1%float)]
     = Ret true
  /\ BatchReactor.isModelValid (C := Examples.methane) Examples.reactor
       Examples.mixedModel 100000%float 1%float 1000%float [1%float]
       (BatchReactor.stoichiometryMatrix (C := Examples.methane) Examples.mixedModel)
       0%float
     = Ret (false, Some Examples.B).
Proof.
  split; [exact invariants_fluxModel|].
  repeat split; vm_compute; reflexivity.
Qed.

(* ================================================================== *)
(** ** [BatchReactor.simulate]                                         *)
(* ================================================================== *)

Section Simulate.

Context {C : Collaborators} {VM : Type} {I : Integrator}.

Variables (self : BatchReactor.t VM) (model : CoreEdgeReactionModel.t).

Lemma simulate_loop_return stoichiometry y0 fuel t0 tf y r :
  PrimFloat.ltb t0 1.0e0%float = true ->
  BatchReactor.simulate_span self model stoichiometry y0 t0 tf y
  = Ret (BatchReactor.Return r) ->
  BatchReactor.simulate_loop (S fuel) self model stoichiometry y0 t0 tf y
  = Some (Ret r, 1).
Proof.
  intros Ht Hs. cbn [BatchReactor.simulate_loop]. rewrite Ht, Hs. reflexivity.
Qed.

Lemma simulate_loop_spans stoichiometry y0 n st st' :
  BatchReactor.spans self model stoichiometry y0 n st st' ->
  forall fuel r k,
    BatchReactor.simulate_loop fuel self model stoichiometry y0
                               (fst (fst st')) (snd (fst st')) (snd st')
    = Some (r, k) ->
    BatchReactor.simulate_loop (n + fuel) self model stoichiometry y0
                               (fst (fst st)) (snd (fst st)) (snd st)
    = Some (r, n + k).
Proof.
  induction 1 as [st|n t0 tf y t0' tf' y' st Ht Hs Hspans IH];
    intros fuel r k Hloop; [exact Hloop|].
  cbn [fst snd Nat.add BatchReactor.simulate_loop].
  rewrite Ht, Hs. cbn [negb].
  pose proof (IH fuel r k Hloop) as E. cbn [fst snd] in E.
  rewrite E. reflexivity.
Qed.

(** The span whose integration ends in [y1]: the validity check comes
    first, the test of the lead species second. *)
Lemma simulate_span_outcome stoichiometry y0 t0 tf y ys tcur y1 P V T Ni
      valid newSpecies :
  odeint (fun y' t' => BatchReactor.getResidual self y' t' model stoichiometry)
         y (t0, tf) (CoreEdgeReactionModel.absoluteTolerance model)
         (CoreEdgeReactionModel.relativeTolerance model) = (ys, tcur) ->
  last_item ys = Ret y1 ->
  BatchReactor.unpack y1 = Ret (P, V, T, Ni) ->
  BatchReactor.isModelValid self model P V T Ni stoichiometry tf
  = Ret (valid, newSpecies) ->
  (valid = false ->
   BatchReactor.simulate_span self model stoichiometry y0 t0 tf y
   = Ret (BatchReactor.Return (false, newSpecies)))
  /\ (valid = true ->
      forall lead lead0,
        index y1 3 = Ret lead -> index y0 3 = Ret lead0 ->
        PrimFloat.ltb lead (PrimFloat.mul 0.1%float lead0) = true ->
        BatchReactor.simulate_span self model stoichiometry y0 t0 tf y
        = Ret (BatchReactor.Return (true, None))).
Proof.
  intros Hode Hlast Hunpack Hvalid.
  unfold BatchReactor.simulate_span. rewrite Hode, Hlast. cbn [Py.bind].
  rewrite Hunpack. cbn [Py.bind]. rewrite Hvalid. cbn [Py.bind].
  split.
  - intros ->. reflexivity.
  - intros -> lead lead0 Hlead Hlead0 Hlt. cbn [negb].
    rewrite Hlead, Hlead0. cbn [Py.bind]. rewrite Hlt. reflexivity.
Qed.

(** C9. Take any run of [simulate] that passes the validity test of the
    seed state and goes through [n] spans to a loop state [(t0, tf, y)]
    with [t0 < 1.0], and let the integration of the next span end in
    [y1]. If the validity check passes there and the lead species'
    amount [y1[3]] is strictly below [0.1 * y0[3]], the run returns
    [(True, None)] with exactly [n + 1] integrations made: none
    follows. The validity check comes before the depletion test: if it
    fails with species [newSpecies], the run returns
    [(False, newSpecies)] after the same [n + 1] integrations, whatever
    the lead species' amount. Enough fuel is [n + 1] turns. *)
Theorem simulate_stops_on_depletion
        (stoichiometry : list (list float))
        (seedSpecies : option Species) (yinit : list float)
        (n : nat) (t0 tf : float) (y : list float)
        (ys : list (list float)) (tcur : list float) (y1 : list float)
        (P V T : float) (Ni : list float)
        (valid : bool) (newSpecies : option Species) (fuel : nat) :
  BatchReactor.simulate_start self model
  = Ret (true, seedSpecies, stoichiometry, yinit) ->
  BatchReactor.spans self model stoichiometry yinit n
    (1e-20%float, PrimFloat.mul 1e-20%float 1.1%float, yinit) (t0, tf, y) ->
  PrimFloat.ltb t0 1.0e0%float = true ->
  odeint (fun y' t' => BatchReactor.getResidual self y' t' model stoichiometry)
         y (t0, tf) (CoreEdgeReactionModel.absoluteTolerance model)
         (CoreEdgeReactionModel.relativeTolerance model) = (ys, tcur) ->
  last_item ys = Ret y1 ->
  BatchReactor.unpack y1 = Ret (P, V, T, Ni) ->
  BatchReactor.isModelValid self model P V T Ni stoichiometry tf
  = Ret (valid, newSpecies) ->
  (valid = true ->
   forall lead lead0,
     index y1 3 = Ret lead -> index yinit 3 = Ret lead0 ->
     PrimFloat.ltb lead (PrimFloat.mul 0.1%float lead0) = true ->
     BatchReactor.simulate (n + S fuel) self model = Some (Ret (true, None), n + 1))
  /\ (valid = false ->
      BatchReactor.simulate (n + S fuel) self model
      = Some (Ret (false, newSpecies), n + 1)).
Proof.
  intros Hstart Hspans Ht Hode Hlast Hunpack Hvalid.
  assert (Hrun : forall r,
             BatchReactor.simulate_span self model stoichiometry yinit t0 tf y
             = Ret (BatchReactor.Return r) ->
             BatchReactor.simulate (n + S fuel) self model = Some (Ret r, n + 1)).
  { intros r Hs. unfold BatchReactor.simulate. rewrite Hstart. cbn [negb].
    apply (simulate_loop_spans Hspans (S fuel)). cbn [fst snd].
    apply simulate_loop_return; assumption. }
  destruct (@simulate_span_outcome stoichiometry yinit t0 tf y ys tcur y1
              P V T Ni valid newSpecies Hode Hlast Hunpack Hvalid)
    as [Hinvalid Hdepleted].
  split.
  - intros Hv lead lead0 Hlead Hlead0 Hlt. apply Hrun.
    apply (Hdepleted Hv lead lead0); assumption.
  - intros Hv. apply Hrun, Hinvalid, Hv.
Qed.

End Simulate.

Lemma simulate_stops_on_depletion_witness :
  BatchReactor.simulate (C := Examples.methane) (I := Examples.quartering)
                        2 Examples.reactor Examples.calmModel
  = Some (Ret (true, None), 2).
Proof.
  pose (t1 := PrimFloat.mul 1e-20%float 1.1%float).
  pose (t2 := PrimFloat.mul t1 1.1%float).
  pose (ya := [100000%float; 1%float; 1000%float; 1%float; 0%float]).
  pose (yb := [100000%float; 1%float; 1000%float; 0.25%float; 0%float]).
  pose (yc := [100000%float; 1%float; 1000%float; 0.0625%float; 0%float]).
  refine (proj1 (simulate_stops_on_depletion
                   (C := Examples.methane) (I := Examples.quartering)
                   (self := Examples.reactor) (model := Examples.calmModel)
                   (stoichiometry := BatchReactor.stoichiometryMatrix
                                       (C := Examples.methane) Examples.calmModel)
                   (seedSpecies := None) (yinit := ya)
                   (n := 1) (t0 := t1) (tf := t2) (y := yb)
                   (ys := [yb; yc]) (tcur := [t2]) (y1 := yc)
                   (P := 100000%float) (V := 1%float) (T := 1000%float)
                   (Ni := [0.0625%float; 0%float])
                   (valid := true) (newSpecies := None) 0
                   _ _ _ _ _ _ _)
                eq_refl 0.0625%float 1%float _ _ _);
    try (vm_compute; reflexivity).
  eapply BatchReactor.spans_next;
    [vm_compute; reflexivity | vm_compute; reflexivity | constructor].
Defined.

(* ================================================================== *)
(** ** Moving species and reactions between edge and core              *)
(* ================================================================== *)

Lemma remove_first_keeps_NoDup {A} (eq_dec : forall a b : A, {a = b} + {a <> b}) x l :
  NoDup l -> NoDup (remove_first eq_dec x l).
Proof.
  induction 1 as [|y l Hy Hnd IH]; simpl; [constructor|].
  destruct (eq_dec x y); [exact Hnd|].
  constructor; [|exact IH]. intro H. apply Hy. eapply remove_first_In, H.
Qed.

Lemma count_occ_filter_le (keep : Reaction -> bool) l r :
  count_occ Reaction_eq_dec (filter keep l) r <= count_occ Reaction_eq_dec l r.
Proof.
  induction l as [|x l IH]; simpl; auto.
  destruct (keep x); simpl; destruct (Reaction_eq_dec x r); lia.
Qed.

Lemma count_occ_filter_false (keep : Reaction -> bool) l r :
  keep r = false -> count_occ Reaction_eq_dec (filter keep l) r = 0.
Proof.
  intro Hk. apply count_occ_not_In. intro H. apply filter_In in H.
  destruct H as [_ H]. congruence.
Qed.

Section Moves.

Import ReactionModel CoreEdgeReactionModel Invariants.

(** Where the reactions are after [addSpeciesToCore]. *)
Lemma addSpeciesToCore_counts spec m r :
  count_occ Reaction_eq_dec (reactions (core (addSpeciesToCore spec m))) r
  = count_occ Reaction_eq_dec (reactions (core m)) r
    + (if inEdge m spec && allCore (addSpeciesToCore spec m) r
       then count_occ Reaction_eq_dec (reactions (edge m)) r else 0)
  /\ count_occ Reaction_eq_dec (reactions (edge (addSpeciesToCore spec m))) r
     = if inEdge m spec && allCore (addSpeciesToCore spec m) r
       then 0 else count_occ Reaction_eq_dec (reactions (edge m)) r.
Proof.
  assert (Hall : forall m2, species (core m2) = species (core m) ++ [spec] ->
                            allCore (addSpeciesToCore spec m) r = allCore m2 r).
  { intros m2 E. unfold allCore, inCore.
    rewrite E, addSpeciesToCore_core. reflexivity. }
  pose (m1 := set_core m (ReactionModel.mk (species (core m) ++ [spec])
                                           (reactions (core m)))).
  pose (m2 := set_edge m1 (ReactionModel.mk
                             (remove_first Species_eq_dec spec (species (edge m)))
                             (reactions (edge m)))).
  rewrite (Hall m2 eq_refl).
  assert (Hdef : addSpeciesToCore spec m
                 = if inEdge m spec
                   then fold_left (fun m' rxn => addReactionToCore rxn m')
                                  (filter (allCore m2) (reactions (edge m))) m2
                   else m1) by reflexivity.
  rewrite Hdef. destruct (inEdge m spec); simpl.
  - match goal with |- context [fold_left ?f ?l ?m0] =>
      destruct (promote_reactions l m0) as [Hc He] end.
    rewrite Hc, He, count_occ_app. simpl.
    destruct (allCore m2 r) eqn:Hk.
    + rewrite (count_occ_filter_true _ _ _ Hk). split; lia.
    + rewrite (count_occ_filter_false _ _ _ Hk). split; lia.
  - split; lia.
Qed.

Lemma addSpeciesToCore_in_core spec m r :
  In r (reactions (core (addSpeciesToCore spec m)))
  <-> In r (reactions (core m))
      \/ (inEdge m spec = true /\ allCore (addSpeciesToCore spec m) r = true
          /\ In r (reactions (edge m))).
Proof.
  rewrite !(count_occ_In Reaction_eq_dec).
  destruct (addSpeciesToCore_counts spec m r) as [-> _].
  destruct (inEdge m spec), (allCore (addSpeciesToCore spec m) r); simpl;
    intuition (try lia; try discriminate).
Qed.

Lemma addSpeciesToCore_in_edge spec m r :
  In r (reactions (edge (addSpeciesToCore spec m)))
  <-> In r (reactions (edge m))
      /\ (inEdge m spec = false \/ allCore (addSpeciesToCore spec m) r = false).
Proof.
  rewrite !(count_occ_In Reaction_eq_dec).
  destruct (addSpeciesToCore_counts spec m r) as [_ ->].
  destruct (inEdge m spec), (allCore (addSpeciesToCore spec m) r); simpl;
    intuition (try lia; try discriminate).
Qed.

Lemma addSpeciesToCore_edge_subset spec m s :
  In s (species (edge (addSpeciesToCore spec m))) -> In s (species (edge m)).
Proof.
  rewrite addSpeciesToCore_edge. destruct (inEdge m spec); auto.
  apply remove_first_In.
Qed.

Lemma promote_tolerances l : forall m,
  fluxTolerance (fold_left (fun m' rxn => addReactionToCore rxn m') l m)
  = fluxTolerance m
  /\ absoluteTolerance (fold_left (fun m' rxn => addReactionToCore rxn m') l m)
     = absoluteTolerance m
  /\ relativeTolerance (fold_left (fun m' rxn => addReactionToCore rxn m') l m)
     = relativeTolerance m.
Proof.
  induction l as [|rxn l IH]; simpl; intro m; auto.
  destruct (IH (addReactionToCore rxn m)) as (-> & -> & ->).
  unfold addReactionToCore. simpl.
  destruct (contains Reaction_eq_dec rxn (reactions (edge m))); simpl; auto.
Qed.

Lemma addSpeciesToCore_tolerances spec m :
  fluxTolerance (addSpeciesToCore spec m) = fluxTolerance m
  /\ absoluteTolerance (addSpeciesToCore spec m) = absoluteTolerance m
  /\ relativeTolerance (addSpeciesToCore spec m) = relativeTolerance m.
Proof.
  unfold addSpeciesToCore. simpl. destruct (inEdge _ spec); simpl; auto.
  match goal with |- context [fold_left ?f ?l ?m0] =>
    destruct (promote_tolerances l m0) as (-> & -> & ->) end.
  auto.
Qed.

(** X1. [addSpeciesToCore] moves reactions, it neither loses nor
    duplicates one: every reaction occurs as often in core and edge
    together after the call as before; the flux and integration
    tolerances are untouched; and of the species lists only [spec]
    moves: it is appended to the core, one occurrence of it leaves the
    edge if there is one, and every other edge species stays. *)
Theorem addSpeciesToCore_conserves (spec : Species) (m : CoreEdgeReactionModel.t) :
  (forall r,
      count_occ Reaction_eq_dec (reactions (core (addSpeciesToCore spec m))) r
      + count_occ Reaction_eq_dec (reactions (edge (addSpeciesToCore spec m))) r
      = count_occ Reaction_eq_dec (reactions (core m)) r
        + count_occ Reaction_eq_dec (reactions (edge m)) r)
  /\ species (core (addSpeciesToCore spec m)) = species (core m) ++ [spec]
  /\ (forall s,
         count_occ Species_eq_dec (species (edge (addSpeciesToCore spec m))) s
         = if Species_eq_dec spec s
           then pred (count_occ Species_eq_dec (species (edge m)) s)
           else count_occ Species_eq_dec (species (edge m)) s)
  /\ fluxTolerance (addSpeciesToCore spec m) = fluxTolerance m.
Proof.
  split; [|split; [|split]].
  - intro r. destruct (addSpeciesToCore_counts spec m r) as [-> ->].
    destruct (inEdge m spec && allCore (addSpeciesToCore spec m) r); lia.
  - apply addSpeciesToCore_core.
  - intro s. rewrite addSpeciesToCore_edge. unfold inEdge.
    destruct (contains Species_eq_dec spec (species (edge m))) eqn:Hin.
    + apply count_remove_first.
    + destruct (Species_eq_dec spec s) as [<-|]; [|reflexivity].
      apply contains_not_In in Hin.
      apply (count_occ_not_In Species_eq_dec) in Hin. rewrite Hin. reflexivity.
  - apply addSpeciesToCore_tolerances.
Qed.

End Moves.

Section PromotionComplete.

Import ReactionModel CoreEdgeReactionModel Invariants.

(** C6. For a model that satisfies invariants (1)-(4), after
    [addSpeciesToCore spec] every reaction that was in the edge and
    whose reactants and products are now all core species is a core
    reaction and no longer an edge reaction. The single scan of the
    edge reactions completes the cascade: the reactions left in the
    edge were edge reactions before, and none of them has all its
    reactants and products in the core. One occurrence of [spec] has
    left the edge species if there was one; the edge listing no species
    twice, [spec] is not an edge species any more. *)
Theorem addSpeciesToCore_promotes (spec : Species) (m : CoreEdgeReactionModel.t) :
  invariants m ->
  (forall r,
      In r (reactions (edge m)) ->
      (forall s, In s (referenced r) ->
                 In s (species (core (addSpeciesToCore spec m)))) ->
      In r (reactions (core (addSpeciesToCore spec m)))
      /\ ~ In r (reactions (edge (addSpeciesToCore spec m))))
  /\ (forall r,
         In r (reactions (edge (addSpeciesToCore spec m))) ->
         In r (reactions (edge m))
         /\ ~ (forall s, In s (referenced r) ->
                         In s (species (core (addSpeciesToCore spec m)))))
  /\ count_occ Species_eq_dec (species (edge (addSpeciesToCore spec m))) spec
     = pred (count_occ Species_eq_dec (species (edge m)) spec)
  /\ (NoDup (species (edge m)) ->
      ~ In spec (species (edge (addSpeciesToCore spec m)))).
Proof.
  intros (H1 & H2 & H3 & H4).
  assert (Hpromoted : forall r,
             In r (reactions (edge m)) ->
             (forall s, In s (referenced r) ->
                        In s (species (core (addSpeciesToCore spec m)))) ->
             In r (reactions (core (addSpeciesToCore spec m)))
             /\ ~ In r (reactions (edge (addSpeciesToCore spec m)))).
  { intros r Hr Hall. destruct (inEdge m spec) eqn:Hedge.
    - apply addSpeciesToCore_cascade; assumption.
    - exfalso.
      assert (Hout : ~ In spec (species (edge m)))
        by (apply (contains_not_In Species_eq_dec); exact Hedge).
      rewrite addSpeciesToCore_core in Hall.
      assert (Hmodel : In r (reactions (core m) ++ reactions (edge m)))
        by (apply in_or_app; auto).
      assert (Hcore : forall s, In s (referenced r) -> In s (species (core m))).
      { intros s Hs. destruct (in_app_or _ _ _ (Hall s Hs)) as [Hc|[<-|[]]]; auto.
        destruct (in_app_or _ _ _ (H4 r Hmodel spec Hs)); tauto. }
      apply (H2 r); [apply (H3 r Hmodel); exact Hcore | exact Hr]. }
  split; [exact Hpromoted|]. split; [|split].
  - intros r Hleft. pose proof (proj1 (addSpeciesToCore_in_edge spec m r) Hleft)
      as [Hr _].
    split; [exact Hr|]. intro Hall.
    destruct (Hpromoted r Hr Hall) as [_ Hgone]. exact (Hgone Hleft).
  - rewrite addSpeciesToCore_edge. unfold inEdge.
    destruct (contains Species_eq_dec spec (species (edge m))) eqn:Hin.
    + rewrite count_remove_first.
      destruct (Species_eq_dec spec spec); [reflexivity | congruence].
    + apply contains_not_In in Hin.
      apply (count_occ_not_In Species_eq_dec) in Hin. rewrite Hin. reflexivity.
  - intro Hnd. rewrite addSpeciesToCore_edge.
    destruct (inEdge m spec) eqn:Hedge.
    + apply remove_first_NoDup. exact Hnd.
    + apply (contains_not_In Species_eq_dec). exact Hedge.
Qed.

End PromotionComplete.

Lemma addSpeciesToCore_promotes_witness :
  In Examples.rAB1
     (ReactionModel.reactions
        (CoreEdgeReactionModel.core
           (CoreEdgeReactionModel.addSpeciesToCore Examples.B Examples.calmModel)))
  /\ ~ In Examples.rAB1
         (ReactionModel.reactions
            (CoreEdgeReactionModel.edge
               (CoreEdgeReactionModel.addSpeciesToCore Examples.B Examples.calmModel)))
  /\ ~ In Examples.B
         (ReactionModel.species
            (CoreEdgeReactionModel.edge
               (CoreEdgeReactionModel.addSpeciesToCore Examples.B Examples.calmModel))).
Proof.
  destruct (addSpeciesToCore_promotes Examples.B invariants_calmModel)
    as (Hpromoted & _ & _ & Hgone).
  destruct (Hpromoted Examples.rAB1) as [Hcore Hedge].
  - simpl. auto.
  - intros s [<-|[<-|[]]]; simpl; auto.
  - split; [exact Hcore|]. split; [exact Hedge|].
    apply Hgone. exact NoDup_calm_edge.
Defined.

(* ================================================================== *)
(** ** The invariants under [addSpeciesToCore]                         *)
(* ================================================================== *)

Section KeepInvariants.

Import ReactionModel CoreEdgeReactionModel Invariants.

Lemma addSpeciesToCore_in_model spec m r :
  In r (reactions (core (addSpeciesToCore spec m))
        ++ reactions (edge (addSpeciesToCore spec m))) ->
  In r (reactions (core m) ++ reactions (edge m)).
Proof.
  intro H. apply in_or_app. apply in_app_or in H. destruct H as [H|H].
  - apply addSpeciesToCore_in_core in H. tauto.
  - apply addSpeciesToCore_in_edge in H. tauto.
Qed.

Lemma addSpeciesToCore_species_kept spec m s :
  In s (species (core m) ++ species (edge m)) ->
  In s (species (core (addSpeciesToCore spec m))
        ++ species (edge (addSpeciesToCore spec m))).
Proof.
  intro H. apply in_or_app. rewrite addSpeciesToCore_core, addSpeciesToCore_edge.
  apply in_app_or in H. destruct H as [H|H].
  - left. apply in_or_app. auto.
  - destruct (Species_eq_dec spec s) as [<-|Hne].
    + left. apply in_or_app. right. left. reflexivity.
    + right. destruct (inEdge m spec); auto.
      apply remove_first_other; assumption.
Qed.

Lemma addSpeciesToCore_disjointSpecies spec m :
  disjointSpecies m -> NoDup (species (edge m)) ->
  disjointSpecies (addSpeciesToCore spec m).
Proof.
  intros H1 Hnd s Hs He. rewrite addSpeciesToCore_core in Hs.
  pose proof (addSpeciesToCore_edge_subset _ _ _ He) as He0.
  apply in_app_or in Hs. destruct Hs as [Hs|[<-|[]]].
  - exact (H1 s Hs He0).
  - rewrite addSpeciesToCore_edge in He.
    assert (Hin : inEdge m spec = true) by (apply contains_In; exact He0).
    rewrite Hin in He. exact (remove_first_NoDup Species_eq_dec spec Hnd He).
Qed.

Lemma addSpeciesToCore_NoDup spec m :
  NoDup (species (edge m)) -> NoDup (species (edge (addSpeciesToCore spec m))).
Proof.
  intro Hnd. rewrite addSpeciesToCore_edge. destruct (inEdge m spec); auto.
  apply remove_first_keeps_NoDup. exact Hnd.
Qed.

Lemma addSpeciesToCore_speciesPresent spec m :
  speciesPresent m -> speciesPresent (addSpeciesToCore spec m).
Proof.
  intros H4 r Hr s Hs.
  apply addSpeciesToCore_species_kept.
  exact (H4 r (addSpeciesToCore_in_model _ _ _ Hr) s Hs).
Qed.

Lemma addSpeciesToCore_disjointReactions spec m :
  disjointReactions m -> disjointReactions (addSpeciesToCore spec m).
Proof.
  intros H2 r Hc He.
  apply addSpeciesToCore_in_core in Hc. apply addSpeciesToCore_in_edge in He.
  destruct He as [He Hnot]. destruct Hc as [Hc|(Hin & Hall & _)].
  - exact (H2 r Hc He).
  - destruct Hnot; congruence.
Qed.

Lemma addSpeciesToCore_coreMembership spec m :
  invariants m -> coreMembership (addSpeciesToCore spec m).
Proof.
  intros (H1 & H2 & H3 & H4) r Hr.
  pose proof (addSpeciesToCore_in_model _ _ _ Hr) as Hr0.
  rewrite <- allCore_spec. split.
  - intro Hc. apply addSpeciesToCore_in_core in Hc.
    destruct Hc as [Hc|(_ & Hall & _)]; [|exact Hall].
    apply allCore_spec. intros s Hs. rewrite addSpeciesToCore_core.
    apply in_or_app. left. exact (proj1 (H3 r Hr0) Hc s Hs).
  - intro Hall. apply addSpeciesToCore_in_core.
    destruct (in_app_or _ _ _ Hr0) as [Hc|He]; [left; exact Hc|].
    destruct (inEdge m spec) eqn:Hin; [right; auto|].
    left. apply (H3 r Hr0). intros s Hs.
    pose proof (proj1 (allCore_spec _ _) Hall s Hs) as Hin'.
    rewrite addSpeciesToCore_core in Hin'.
    destruct (in_app_or _ _ _ Hin') as [Hs'|[<-|[]]]; [exact Hs'|].
    destruct (in_app_or _ _ _ (H4 r Hr0 spec Hs)) as [Hs'|Hs']; [exact Hs'|].
    apply (contains_In Species_eq_dec) in Hs'. unfold inEdge in Hin. congruence.
Qed.

(** X2. [addSpeciesToCore] keeps invariants (1)-(4): on a model that
    satisfies them and whose edge lists no species twice, the model
    after the call satisfies them again, and its edge still lists no
    species twice. *)
Theorem addSpeciesToCore_keeps_invariants (spec : Species)
        (m : CoreEdgeReactionModel.t) :
  invariants m -> NoDup (species (edge m)) ->
  invariants (addSpeciesToCore spec m)
  /\ NoDup (species (edge (addSpeciesToCore spec m))).
Proof.
  intros Hinv Hnd. pose proof Hinv as (H1 & H2 & H3 & H4).
  split; [|apply addSpeciesToCore_NoDup; exact Hnd].
  split; [|split; [|split]].
  - apply addSpeciesToCore_disjointSpecies; assumption.
  - apply addSpeciesToCore_disjointReactions; assumption.
  - apply addSpeciesToCore_coreMembership; assumption.
  - apply addSpeciesToCore_speciesPresent; assumption.
Qed.

End KeepInvariants.

Lemma addSpeciesToCore_keeps_invariants_witness :
  Invariants.invariants
    (CoreEdgeReactionModel.addSpeciesToCore Examples.B Examples.calmModel)
  /\ NoDup (ReactionModel.species
              (CoreEdgeReactionModel.edge
                 (CoreEdgeReactionModel.addSpeciesToCore Examples.B Examples.calmModel))).
Proof.
  exact (addSpeciesToCore_keeps_invariants Examples.B
           invariants_calmModel NoDup_calm_edge).
Defined.

(* ================================================================== *)
(** ** [enlarge] and [initialize]                                      *)
(* ================================================================== *)

Section Growth.

Import ReactionModel CoreEdgeReactionModel Invariants.
Context {C : Collaborators}.

(** The loop that puts unknown species in the edge touches nothing but
    the edge species, and adds exactly the species of [specs] that are
    neither core nor edge species, each once. *)
Lemma addMissingToEdge_facts specs : forall m,
  core (addMissingToEdge specs m) = core m
  /\ reactions (edge (addMissingToEdge specs m)) = reactions (edge m)
  /\ (forall s, In s (species (edge (addMissingToEdge specs m)))
                <-> In s (species (edge m))
                    \/ (In s specs /\ ~ In s (species (core m))))
  /\ (NoDup (species (edge m)) ->
      NoDup (species (edge (addMissingToEdge specs m)))).
Proof.
  unfold addMissingToEdge.
  induction specs as [|s0 specs IH]; cbn [fold_left]; intro m.
  - repeat split; auto; simpl; tauto.
  - set (m1 := if negb (inEdge m s0) && negb (inCore m s0)
               then addSpeciesToEdge s0 m else m).
    destruct (IH m1) as (Hc & Hr & Hs & Hnd).
    assert (Hc1 : core m1 = core m)
      by (unfold m1; destruct (negb (inEdge m s0) && negb (inCore m s0)); reflexivity).
    assert (Hr1 : reactions (edge m1) = reactions (edge m))
      by (unfold m1; destruct (negb (inEdge m s0) && negb (inCore m s0)); reflexivity).
    assert (Hs1 : forall s, In s (species (edge m1))
                            <-> In s (species (edge m))
                                \/ (s = s0 /\ ~ In s (species (core m)))).
    { intro s. unfold m1, inEdge, inCore.
      destruct (contains Species_eq_dec s0 (species (edge m))) eqn:He; simpl.
      - apply contains_In in He. split; [tauto|].
        intros [H|[-> _]]; assumption.
      - destruct (contains Species_eq_dec s0 (species (core m))) eqn:Hk; simpl.
        + apply contains_In in Hk. split; [tauto|].
          intros [H|[-> H]]; [assumption | contradiction].
        + apply contains_not_In in Hk. rewrite in_app_iff. simpl. split.
          * intros [H|[<-|[]]]; auto.
          * intros [H|[-> _]]; auto. }
    rewrite Hc, Hr, Hc1, Hr1. split; [reflexivity|]. split; [reflexivity|]. split.
    + intro s. rewrite Hs, Hs1, Hc1. simpl. intuition (subst; auto).
    + intro Hnd0. apply Hnd. unfold m1, inEdge.
      destruct (contains Species_eq_dec s0 (species (edge m))) eqn:He; simpl; auto.
      destruct (inCore m s0); simpl; auto.
      apply contains_not_In in He.
      apply NoDup_app; auto.
      * constructor; [simpl; tauto | constructor].
      * intros a Ha [<-|[]]. exact (He Ha).
Qed.

Lemma addMissingToEdge_tolerances specs : forall m,
  fluxTolerance (addMissingToEdge specs m) = fluxTolerance m
  /\ absoluteTolerance (addMissingToEdge specs m) = absoluteTolerance m
  /\ relativeTolerance (addMissingToEdge specs m) = relativeTolerance m.
Proof.
  unfold addMissingToEdge.
  induction specs as [|s0 specs IH]; cbn [fold_left]; intro m; auto.
  match goal with |- context [fold_left ?f specs ?m0] =>
    destruct (IH m0) as (-> & -> & ->) end.
  destruct (negb (inEdge m s0) && negb (inCore m s0)); auto.
Qed.

(** The loop of [enlarge] over the species of a reaction is the loop of
    [initialize], and its flag tells whether all of them are core
    species. *)
Lemma scanSpecies_eq specs : forall flag m,
  scanSpecies specs (flag, m)
  = (flag && forallb (inCore m) specs, addMissingToEdge specs m).
Proof.
  unfold scanSpecies, addMissingToEdge.
  induction specs as [|s0 specs IH]; cbn [fold_left forallb]; intros flag m.
  - rewrite andb_true_r. reflexivity.
  - rewrite IH. f_equal.
    assert (Hcore : forall m', core m' = core m -> inCore m' = inCore m)
      by (intros m' E; unfold inCore; rewrite E; reflexivity).
    rewrite (Hcore (if negb (inEdge m s0) && negb (inCore m s0)
                    then addSpeciesToEdge s0 m else m))
      by (destruct (negb (inEdge m s0) && negb (inCore m s0)); reflexivity).
    destruct (inCore m s0), flag; reflexivity.
Qed.

Lemma enlarge_reaction_eq m rxn :
  enlarge_reaction m rxn
  = if allCore m rxn
    then addReactionToCore rxn
           (addMissingToEdge (products rxn) (addMissingToEdge (reactants rxn) m))
    else addReactionToEdge rxn
           (addMissingToEdge (products rxn) (addMissingToEdge (reactants rxn) m)).
Proof.
  unfold enlarge_reaction. rewrite !scanSpecies_eq. unfold allCore.
  assert (Hcore : inCore (addMissingToEdge (reactants rxn) m) = inCore m).
  { unfold inCore.
    destruct (addMissingToEdge_facts (reactants rxn) m) as (-> & _). reflexivity. }
  rewrite Hcore. reflexivity.
Qed.

(** After the two loops over a reaction's species, all of them are core
    or edge species. *)
Lemma addMissingToEdge_reaction m rxn :
  let m' := addMissingToEdge (products rxn) (addMissingToEdge (reactants rxn) m) in
  core m' = core m
  /\ reactions (edge m') = reactions (edge m)
  /\ (forall s, In s (species (edge m)) -> In s (species (edge m')))
  /\ (forall s, In s (species (edge m')) ->
                In s (species (edge m)) \/ ~ In s (species (core m)))
  /\ (forall s, In s (referenced rxn) ->
                In s (species (core m') ++ species (edge m')))
  /\ (NoDup (species (edge m)) -> NoDup (species (edge m'))).
Proof.
  intro m'. unfold m'.
  destruct (addMissingToEdge_facts (reactants rxn) m) as (Hc1 & Hr1 & Hs1 & Hn1).
  destruct (addMissingToEdge_facts (products rxn)
              (addMissingToEdge (reactants rxn) m)) as (Hc2 & Hr2 & Hs2 & Hn2).
  rewrite Hc2, Hc1, Hr2, Hr1. split; [reflexivity|]. split; [reflexivity|].
  split; [|split; [|split]].
  - intros s Hs. apply Hs2. left. apply Hs1. left. exact Hs.
  - intros s Hs. apply Hs2 in Hs. rewrite Hc1 in Hs.
    destruct Hs as [Hs|[_ Hs]]; [|right; exact Hs].
    apply Hs1 in Hs. tauto.
  - intros s Hs. apply in_or_app.
    destruct (in_dec Species_eq_dec s (species (core m))) as [Hk|Hk]; [left; exact Hk|].
    right. apply Hs2. rewrite Hc1. unfold referenced in Hs.
    apply in_app_or in Hs. destruct Hs as [Hs|Hs].
    + left. apply Hs1. right. auto.
    + right. auto.
  - intro Hnd. apply Hn2, Hn1, Hnd.
Qed.

End Growth.

Section GrowthInvariants.

Import ReactionModel CoreEdgeReactionModel Invariants.
Context {C : Collaborators}.

Lemma allCore_same_core m m' rxn :
  species (core m') = species (core m) -> allCore m' rxn = allCore m rxn.
Proof. intro E. unfold allCore, inCore. rewrite E. reflexivity. Qed.

(** The two loops over a reaction's species keep the invariants. *)
Lemma addMissingToEdge_keeps m rxn :
  invariants m -> NoDup (species (edge m)) ->
  invariants (addMissingToEdge (products rxn) (addMissingToEdge (reactants rxn) m))
  /\ NoDup (species (edge (addMissingToEdge (products rxn)
                             (addMissingToEdge (reactants rxn) m)))).
Proof.
  intros (H1 & H2 & H3 & H4) Hnd.
  destruct (addMissingToEdge_reaction m rxn) as (Hc & Hr & Hsub & Hnew & _ & Hn).
  split; [|apply Hn; exact Hnd].
  unfold invariants, disjointSpecies, disjointReactions, coreMembership,
    speciesPresent. rewrite Hc, Hr.
  split; [|split; [|split]]; auto.
  - intros s Hs He. destruct (Hnew s He) as [He'|Hk]; [exact (H1 s Hs He') | exact (Hk Hs)].
  - intros r Hr' s Hs. apply in_or_app.
    destruct (in_app_or _ _ _ (H4 r Hr' s Hs)); auto.
Qed.

Lemma enlarge_reaction_keeps m rxn :
  invariants m -> NoDup (species (edge m)) ->
  invariants (enlarge_reaction m rxn)
  /\ NoDup (species (edge (enlarge_reaction m rxn))).
Proof.
  intros Hinv Hnd. rewrite enlarge_reaction_eq.
  destruct (addMissingToEdge_keeps rxn Hinv Hnd) as ((H1 & H2 & H3 & H4) & Hnd').
  destruct (addMissingToEdge_reaction m rxn) as (Hc & _ & _ & _ & Hrefs & _).
  set (m' := addMissingToEdge (products rxn) (addMissingToEdge (reactants rxn) m)) in *.
  rewrite <- (allCore_same_core m m' rxn) by (rewrite Hc; reflexivity).
  destruct (allCore m' rxn) eqn:Hall.
  - assert (Hout : ~ In rxn (reactions (edge m'))).
    { intro He. apply (H2 rxn); [|exact He].
      apply (H3 rxn); [apply in_or_app; auto | apply allCore_spec; exact Hall]. }
    unfold addReactionToCore.
    replace (contains Reaction_eq_dec rxn (reactions (edge (set_core m' _))))
      with false by (symmetry; apply contains_not_In; exact Hout).
    split; [|exact Hnd'].
    unfold invariants, disjointSpecies, disjointReactions, coreMembership,
      speciesPresent. simpl.
    split; [exact H1|]. split; [|split].
    + intros r Hr. apply in_app_or in Hr. destruct Hr as [Hr|[<-|[]]]; auto.
    + intros r Hr. rewrite in_app_iff. simpl. split.
      * intros [Hk|[<-|[]]]; [|apply allCore_spec; exact Hall].
        apply (H3 r); [apply in_or_app; auto | exact Hk].
      * intro Ha. apply in_app_or in Hr. destruct Hr as [Hr|He].
        -- apply in_app_or in Hr. destruct Hr as [Hr|[<-|[]]]; auto.
        -- left. apply (H3 r); [apply in_or_app; auto | exact Ha].
    + intros r Hr s Hs. apply in_app_or in Hr. destruct Hr as [Hr|He].
      * apply in_app_or in Hr. destruct Hr as [Hr|[<-|[]]].
        -- apply (H4 r); [apply in_or_app; auto | exact Hs].
        -- apply Hrefs. exact Hs.
      * apply (H4 r); [apply in_or_app; auto | exact Hs].
  - assert (Hout : ~ In rxn (reactions (core m'))).
    { intro Hk.
      pose proof (proj1 (H3 rxn (in_or_app _ _ _ (or_introl Hk))) Hk) as Ha.
      apply (proj2 (allCore_spec m' rxn)) in Ha. congruence. }
    split; [|exact Hnd'].
    unfold invariants, disjointSpecies, disjointReactions, coreMembership,
      speciesPresent, addReactionToEdge. simpl.
    split; [exact H1|]. split; [|split].
    + intros r Hr He. apply in_app_or in He. destruct He as [He|[<-|[]]];
        [exact (H2 r Hr He) | exact (Hout Hr)].
    + intros r Hr. split.
      * intro Hk. apply (H3 r); [apply in_or_app; auto | exact Hk].
      * intro Ha. apply in_app_or in Hr. destruct Hr as [Hr|He]; [exact Hr|].
        apply in_app_or in He. destruct He as [He|[<-|[]]].
        -- apply (H3 r); [apply in_or_app; auto | exact Ha].
        -- apply (proj2 (allCore_spec m' rxn)) in Ha. congruence.
    + intros r Hr s Hs. apply in_app_or in Hr. destruct Hr as [Hr|He].
      * apply (H4 r); [apply in_or_app; auto | exact Hs].
      * apply in_app_or in He. destruct He as [He|[<-|[]]].
        -- apply (H4 r); [apply in_or_app; auto | exact Hs].
        -- apply Hrefs. exact Hs.
Qed.

Lemma enlarge_reactions_keep l : forall m,
  invariants m -> NoDup (species (edge m)) ->
  invariants (fold_left enlarge_reaction l m)
  /\ NoDup (species (edge (fold_left enlarge_reaction l m))).
Proof.
  induction l as [|rxn l IH]; cbn [fold_left]; intros m Hinv Hnd; auto.
  destruct (enlarge_reaction_keeps rxn Hinv Hnd) as [Hinv' Hnd'].
  apply IH; assumption.
Qed.

(** X3. [enlarge] keeps invariants (1)-(4), whatever the kinetics
    database returns: on a model that satisfies them and whose edge
    lists no species twice, the enlarged model satisfies them again and
    its edge still lists no species twice. *)
Theorem enlarge_keeps_invariants (newSpecies : Species)
        (m : CoreEdgeReactionModel.t) :
  invariants m -> NoDup (species (edge m)) ->
  invariants (enlarge newSpecies m)
  /\ NoDup (species (edge (enlarge newSpecies m))).
Proof.
  intros Hinv Hnd. unfold enlarge. apply enlarge_reactions_keep.
  - pose proof Hinv as (H1 & H2 & H3 & H4). split; [|split; [|split]].
    + apply addSpeciesToCore_disjointSpecies; assumption.
    + apply addSpeciesToCore_disjointReactions; assumption.
    + apply addSpeciesToCore_coreMembership; assumption.
    + apply addSpeciesToCore_speciesPresent; assumption.
  - apply addSpeciesToCore_NoDup. exact Hnd.
Qed.

End GrowthInvariants.

Lemma enlarge_keeps_invariants_witness :
  Invariants.invariants
    (CoreEdgeReactionModel.enlarge (C := Examples.methane) Examples.B Examples.calmModel)
  /\ NoDup (ReactionModel.species
              (CoreEdgeReactionModel.edge
                 (CoreEdgeReactionModel.enlarge (C := Examples.methane)
                    Examples.B Examples.calmModel))).
Proof.
  exact (enlarge_keeps_invariants (C := Examples.methane) Examples.B
           invariants_calmModel NoDup_calm_edge).
Defined.

Section GrowthResults.

Import ReactionModel CoreEdgeReactionModel Invariants.
Context {C : Collaborators}.

(** What one turn of the reaction loop of [enlarge] leaves. *)
Lemma enlarge_reaction_step m rxn :
  species (core (enlarge_reaction m rxn)) = species (core m)
  /\ (forall s, In s (species (edge m)) ->
                In s (species (edge (enlarge_reaction m rxn))))
  /\ (forall r, In r (reactions (core m)) ->
                In r (reactions (core (enlarge_reaction m rxn))))
  /\ (forall r, In r (reactions (edge m)) -> allCore m r = false ->
                In r (reactions (edge (enlarge_reaction m rxn))))
  /\ (forall s, In s (referenced rxn) ->
                In s (species (core (enlarge_reaction m rxn))
                      ++ species (edge (enlarge_reaction m rxn))))
  /\ (allCore m rxn = true -> In rxn (reactions (core (enlarge_reaction m rxn))))
  /\ (allCore m rxn = false -> In rxn (reactions (edge (enlarge_reaction m rxn)))).
Proof.
  rewrite enlarge_reaction_eq.
  destruct (addMissingToEdge_reaction m rxn) as (Hc & Hr & Hsub & _ & Hrefs & _).
  set (m' := addMissingToEdge (products rxn) (addMissingToEdge (reactants rxn) m)) in *.
  destruct (allCore m rxn) eqn:Hall.
  - destruct (addReactionToCore_species rxn m') as [Hcs Hes].
    destruct (addReactionToCore_reactions rxn m') as [Hcr Her].
    rewrite Hcs, Hes, Hcr, Hc.
    split; [reflexivity|]. split; [exact Hsub|]. split; [|split; [|split; [|split]]].
    + intros r Hk. apply in_or_app. auto.
    + intros r He Hf. apply (count_occ_In Reaction_eq_dec). rewrite Her, Hr.
      apply (count_occ_In Reaction_eq_dec) in He.
      destruct (Reaction_eq_dec rxn r) as [<-|]; [congruence | lia].
    + intros s Hs. rewrite <- Hc. apply Hrefs. exact Hs.
    + intros _. apply in_or_app. right. left. reflexivity.
    + discriminate.
  - unfold addReactionToEdge. simpl. rewrite Hc, Hr.
    split; [reflexivity|]. split; [exact Hsub|]. split; [|split; [|split; [|split]]].
    + auto.
    + intros r He _. apply in_or_app. auto.
    + intros s Hs. rewrite <- Hc. apply Hrefs. exact Hs.
    + discriminate.
    + intros _. apply in_or_app. right. left. reflexivity.
Qed.

Lemma enlarge_reactions_classified l : forall m,
  species (core (fold_left enlarge_reaction l m)) = species (core m)
  /\ (forall s, In s (species (edge m)) ->
                In s (species (edge (fold_left enlarge_reaction l m))))
  /\ (forall r, In r (reactions (core m)) ->
                In r (reactions (core (fold_left enlarge_reaction l m))))
  /\ (forall r, In r (reactions (edge m)) -> allCore m r = false ->
                In r (reactions (edge (fold_left enlarge_reaction l m))))
  /\ (forall rxn, In rxn l ->
        (forall s, In s (referenced rxn) ->
                   In s (species (core (fold_left enlarge_reaction l m))
                         ++ species (edge (fold_left enlarge_reaction l m))))
        /\ (allCore m rxn = true ->
            In rxn (reactions (core (fold_left enlarge_reaction l m))))
        /\ (allCore m rxn = false ->
            In rxn (reactions (edge (fold_left enlarge_reaction l m))))).
Proof.
  induction l as [|rxn0 l IH]; cbn [fold_left]; intro m.
  - split; [reflexivity|]. split; [auto|]. split; [auto|]. split; [auto|].
    intros rxn [].
  - destruct (enlarge_reaction_step m rxn0)
      as (Hcs & Hes & Hcr & Her & Hrefs & Htrue & Hfalse).
    destruct (IH (enlarge_reaction m rxn0)) as (Ics & Ies & Icr & Ier & Inew).
    assert (Hall : forall r, allCore (enlarge_reaction m rxn0) r = allCore m r)
      by (intro r; apply allCore_same_core; exact Hcs).
    rewrite Ics, Hcs. split; [reflexivity|]. split; [auto|]. split; [auto|].
    split.
    + intros r He Hf. apply Ier; [apply Her; assumption | rewrite Hall; exact Hf].
    + intros rxn [<-|Hin].
      * split; [|split].
        -- intros s Hs. apply in_or_app.
           destruct (in_app_or _ _ _ (Hrefs s Hs)) as [Hk|He].
           ++ left. rewrite <- Hcs. exact Hk.
           ++ right. apply Ies. exact He.
        -- intro Ht. apply Icr, Htrue, Ht.
        -- intro Hf. apply Ier; [apply Hfalse, Hf | rewrite Hall; exact Hf].
      * destruct (Inew rxn Hin) as (I1 & I2 & I3). rewrite Hall in I2, I3.
        rewrite Ics, Hcs in I1. auto.
Qed.

(** X4. [enlarge] files every reaction the kinetics database returns,
    whatever the model was: afterwards the core species are the former
    ones followed by [newSpecies], every species such a reaction refers
    to is a core or an edge species, and the reaction is a core reaction
    if all its reactants and products are core species, an edge reaction
    otherwise. *)
Theorem enlarge_files_discovered_reactions (newSpecies : Species)
        (m : CoreEdgeReactionModel.t) (rxn : Reaction) :
  In rxn (getReactions [newSpecies]
          ++ flat_map (fun coreSpecies =>
                         if reactive coreSpecies
                         then getReactions [newSpecies; coreSpecies] else [])
                      (species (core m))) ->
  species (core (enlarge newSpecies m)) = species (core m) ++ [newSpecies]
  /\ (forall s, In s (referenced rxn) ->
                In s (species (core (enlarge newSpecies m))
                      ++ species (edge (enlarge newSpecies m))))
  /\ ((forall s, In s (referenced rxn) -> In s (species (core (enlarge newSpecies m)))) ->
      In rxn (reactions (core (enlarge newSpecies m))))
  /\ (~ (forall s, In s (referenced rxn) -> In s (species (core (enlarge newSpecies m)))) ->
      In rxn (reactions (edge (enlarge newSpecies m)))).
Proof.
  intro Hin. unfold enlarge.
  match goal with |- context [fold_left enlarge_reaction ?l ?m0] =>
    destruct (enlarge_reactions_classified l m0) as (Hcs & _ & _ & _ & Hnew) end.
  destruct (Hnew rxn Hin) as (Hrefs & Htrue & Hfalse).
  rewrite Hcs in Hrefs |- *.
  split; [apply addSpeciesToCore_core|]. split; [exact Hrefs|].
  split.
  - intro Hall. apply Htrue, allCore_spec. exact Hall.
  - intro Hnot. apply Hfalse.
    destruct (allCore (addSpeciesToCore newSpecies m) rxn) eqn:Hk; [|reflexivity].
    exfalso. apply Hnot. apply allCore_spec. exact Hk.
Qed.

Local Abbreviation edgeStep :=
  (fun m' rxn =>
     addReactionToEdge rxn
       (addMissingToEdge (products rxn) (addMissingToEdge (reactants rxn) m'))).

(** One seed of [initialize]: the reactions found all go to the edge. *)
Lemma initialize_reactions_facts l : forall m,
  core (fold_left edgeStep l m) = core m
  /\ reactions (edge (fold_left edgeStep l m)) = reactions (edge m) ++ l
  /\ (disjointSpecies m -> speciesPresent m -> NoDup (species (edge m)) ->
      disjointSpecies (fold_left edgeStep l m)
      /\ speciesPresent (fold_left edgeStep l m)
      /\ NoDup (species (edge (fold_left edgeStep l m)))).
Proof.
  induction l as [|rxn l IH]; cbn [fold_left]; intro m.
  - rewrite app_nil_r. repeat split; auto.
  - destruct (IH (edgeStep m rxn)) as (Ic & Ir & Ikeep).
    destruct (addMissingToEdge_reaction m rxn) as (Hc & Hr & Hsub & Hnew & Hrefs & Hn).
    cbv zeta in Hc, Hr, Hsub, Hnew, Hrefs, Hn.
    set (m1 := addMissingToEdge (products rxn) (addMissingToEdge (reactants rxn) m)) in *.
    cbv beta in Ic, Ir, Ikeep |- *. fold m1 in Ic, Ir, Ikeep |- *.
    assert (Hc' : core (addReactionToEdge rxn m1) = core m) by exact Hc.
    assert (Hr' : reactions (edge (addReactionToEdge rxn m1)) = reactions (edge m) ++ [rxn])
      by (simpl; rewrite Hr; reflexivity).
    assert (Hs' : species (edge (addReactionToEdge rxn m1)) = species (edge m1))
      by reflexivity.
    rewrite Ic, Ir, Hc', Hr', <- app_assoc.
    split; [reflexivity|]. split; [reflexivity|].
    intros H1 H4 Hnd. apply Ikeep.
    + intros s Hs He. rewrite Hc' in Hs. rewrite Hs' in He.
      destruct (Hnew s He) as [He'|Hk]; [exact (H1 s Hs He') | exact (Hk Hs)].
    + intros r Hin s Hs. rewrite Hc', Hr' in Hin. rewrite Hc', Hs'.
      assert (Hold : In s (species (core m) ++ species (edge m)) ->
                     In s (species (core m) ++ species (edge m1))).
      { intro H. apply in_or_app. destruct (in_app_or _ _ _ H); auto. }
      apply in_app_or in Hin. destruct Hin as [Hin|Hin].
      * apply Hold, (H4 r); [apply in_or_app; auto | exact Hs].
      * apply in_app_or in Hin. destruct Hin as [Hin|[<-|[]]].
        -- apply Hold, (H4 r); [apply in_or_app; auto | exact Hs].
        -- rewrite <- Hc. apply Hrefs. exact Hs.
    + rewrite Hs'. apply Hn. exact Hnd.
Qed.

Lemma initialize_species_facts m species1 :
  species (core (initialize_species m species1)) = species (core m) ++ [species1]
  /\ (disjointSpecies m -> speciesPresent m -> NoDup (species (edge m)) ->
      disjointSpecies (initialize_species m species1)
      /\ speciesPresent (initialize_species m species1)
      /\ NoDup (species (edge (initialize_species m species1)))).
Proof.
  unfold initialize_species.
  match goal with |- context [fold_left ?f ?l ?m0] =>
    destruct (initialize_reactions_facts l m0) as (Hc & _ & Hkeep) end.
  rewrite Hc. split; [apply addSpeciesToCore_core|].
  intros H1 H4 Hnd. apply Hkeep.
  - apply addSpeciesToCore_disjointSpecies; assumption.
  - apply addSpeciesToCore_speciesPresent; assumption.
  - apply addSpeciesToCore_NoDup; assumption.
Qed.

(** X5. [initialize] keeps invariants (1) and (4), and the order of the
    seeds: the core species afterwards are the former ones followed by
    the seeds in the order given, and on a model whose core and edge
    species are disjoint, whose reactions refer to core or edge species
    only and whose edge lists no species twice, the same three hold
    afterwards, whatever the kinetics database returns. *)
Theorem initialize_keeps_species_invariants (coreSpecies : list Species)
        (m : CoreEdgeReactionModel.t) :
  species (core (initialize coreSpecies m)) = species (core m) ++ coreSpecies
  /\ (disjointSpecies m -> speciesPresent m -> NoDup (species (edge m)) ->
      disjointSpecies (initialize coreSpecies m)
      /\ speciesPresent (initialize coreSpecies m)
      /\ NoDup (species (edge (initialize coreSpecies m)))).
Proof.
  unfold initialize. revert m.
  induction coreSpecies as [|species1 seeds IH]; cbn [fold_left]; intro m.
  - rewrite app_nil_r. auto.
  - destruct (IH (initialize_species m species1)) as [Ic Ikeep].
    destruct (initialize_species_facts m species1) as [Hc Hkeep].
    rewrite Ic, Hc, <- app_assoc. split; [reflexivity|].
    intros H1 H4 Hnd. destruct (Hkeep H1 H4 Hnd) as (H1' & H4' & Hnd').
    apply Ikeep; assumption.
Qed.

End GrowthResults.

Lemma enlarge_files_discovered_reactions_witness :
  ReactionModel.species
    (CoreEdgeReactionModel.core
       (CoreEdgeReactionModel.enlarge (C := Examples.methane) Examples.H
                                      Examples.methylModel))
  = [Examples.CH3; Examples.H]
  /\ In Examples.CH4
        (ReactionModel.species
           (CoreEdgeReactionModel.edge
              (CoreEdgeReactionModel.enlarge (C := Examples.methane) Examples.H
                                             Examples.methylModel)))
  /\ In Examples.forward
        (ReactionModel.reactions
           (CoreEdgeReactionModel.edge
              (CoreEdgeReactionModel.enlarge (C := Examples.methane) Examples.H
                                             Examples.methylModel))).
Proof.
  destruct (enlarge_files_discovered_reactions (C := Examples.methane)
              Examples.H Examples.methylModel Examples.forward)
    as (Hcore & Hrefs & _ & Hedge).
  { simpl. left. reflexivity. }
  split; [exact Hcore|]. split.
  - specialize (Hrefs Examples.CH4). rewrite Hcore in Hrefs.
    destruct (in_app_or _ _ _ (Hrefs (or_intror (or_intror (or_introl eq_refl)))))
      as [[E|[E|[]]]|He]; [discriminate E | discriminate E | exact He].
  - apply Hedge. rewrite Hcore. intro Hall.
    destruct (Hall Examples.CH4 (or_intror (or_intror (or_introl eq_refl))))
      as [E|[E|[]]]; discriminate E.
Defined.

Section Seeding.

Import ReactionModel CoreEdgeReactionModel.
Context {C : Collaborators}.

Lemma addSpeciesToCore_empty_edge spec m :
  species (edge m) = [] ->
  addSpeciesToCore spec m
  = set_core m (ReactionModel.mk (species (core m) ++ [spec]) (reactions (core m))).
Proof.
  intro He. unfold addSpeciesToCore, inEdge. simpl. rewrite He. reflexivity.
Qed.

Lemma initialize_nothing_found seeds : forall m,
  species (edge m) = [] ->
  (forall s, In s seeds ->
             reactive s = false
             \/ (getReactions [s] = []
                 /\ forall s', getReactions [s; s'] = [])) ->
  initialize seeds m
  = set_core m (ReactionModel.mk (species (core m) ++ seeds) (reactions (core m))).
Proof.
  unfold initialize.
  induction seeds as [|species1 seeds IH]; cbn [fold_left]; intros m He Hnone.
  - rewrite app_nil_r. destruct m as [[cs cr] e tol atol rtol]. reflexivity.
  - assert (Hstep : initialize_species m species1 = addSpeciesToCore species1 m).
    { unfold initialize_species.
      destruct (Hnone species1 (or_introl eq_refl)) as [->|[Huni Hbi]]; [reflexivity|].
      rewrite Huni.
      replace (flat_map (fun species2 => getReactions [species1; species2])
                        (species (core m))) with (@nil Reaction).
      - destruct (reactive species1); reflexivity.
      - induction (species (core m)) as [|s' l IHl]; simpl; [reflexivity|].
        rewrite Hbi. exact IHl. }
    rewrite Hstep, (addSpeciesToCore_empty_edge _ _ He).
    rewrite IH; [|exact He | intros s Hs; apply Hnone; right; exact Hs].
    unfold set_core. simpl. rewrite <- app_assoc. reflexivity.
Qed.

(** X6. Seeds for which the kinetics database has nothing leave the
    rest of the model alone: on a model without edge species (a fresh
    one in particular), if every seed is either not reactive or has no
    reaction of its own and none with any partner, [initialize] only
    appends the seeds to the core species, in the order given; the
    edge stays empty and no reaction is added. A seed that is not
    reactive is never looked up. *)
Theorem initialize_without_reactions (seeds : list Species) :
  (forall s, In s seeds ->
             reactive s = false
             \/ (getReactions [s] = []
                 /\ forall s', getReactions [s; s'] = [])) ->
  (forall m, species (edge m) = [] ->
             initialize seeds m
             = set_core m (ReactionModel.mk (species (core m) ++ seeds)
                                            (reactions (core m))))
  /\ initialize seeds (CoreEdgeReactionModel.init None None)
     = CoreEdgeReactionModel.mk (ReactionModel.mk seeds []) (ReactionModel.mk [] [])
                                1.0%float 1.0e-8%float 1.0e-4%float.
Proof.
  intro Hnone. split.
  - intros m He. apply initialize_nothing_found; assumption.
  - rewrite initialize_nothing_found; [reflexivity | reflexivity | exact Hnone].
Qed.

End Seeding.

Lemma initialize_without_reactions_witness :
  CoreEdgeReactionModel.initialize (C := Examples.methane)
    [mkSpecies 21 false; Examples.A] (CoreEdgeReactionModel.init None None)
  = CoreEdgeReactionModel.mk
      (ReactionModel.mk [mkSpecies 21 false; Examples.A] [])
      (ReactionModel.mk [] []) 1.0%float 1.0e-8%float 1.0e-4%float.
Proof.
  apply (initialize_without_reactions (C := Examples.methane)).
  intros s [<-|[<-|[]]]; [left; reflexivity|].
  right. split; [reflexivity|]. intros [sid' reactive']. reflexivity.
Defined.

(* ================================================================== *)
(** ** What the validity checks can raise                              *)
(* ================================================================== *)

Section RootOfSquares.

Import FloatSign.

Lemma binary_round_sign prec emax mx ex :
  notNegative (binary_round prec emax false mx ex).
Proof.
  unfold binary_round.
  destruct (shl_align mx ex _) as [mz ez]. apply binary_round_aux_sign.
Qed.

Lemma SFadd_sign prec emax x y :
  notNegative x -> notNegative y -> notNegative (SFadd prec emax x y).
Proof.
  destruct x as [sx|sx| |sx mx ex], y as [sy|sy| |sy my ey]; simpl; auto;
    intros Hx Hy; subst; simpl; auto.
  - destruct sx, sy; simpl; auto.
  - apply binary_round_sign.
Qed.

Lemma SFmul_square_sign prec emax x : notNegative (SFmul prec emax x x).
Proof.
  destruct x as [[]|[]| |[] mx ex]; simpl; auto; apply binary_round_aux_sign.
Qed.

Lemma square_sign x : notNegative (Prim2SF (PrimFloat.mul x x)).
Proof. rewrite mul_spec. apply SFmul_square_sign. Qed.

Lemma sum_from_sign l : forall acc,
  notNegative (Prim2SF acc) ->
  (forall x, In x l -> notNegative (Prim2SF x)) ->
  notNegative (Prim2SF (fold_left PrimFloat.add l acc)).
Proof.
  induction l as [|x l IH]; simpl; intros acc Hacc Hl; auto.
  apply IH; [|auto]. rewrite add_spec. apply SFadd_sign; auto.
Qed.

Lemma sum_sign l :
  (forall x, In x l -> notNegative (Prim2SF x)) ->
  notNegative (Prim2SF (Py.sum l)).
Proof. intro Hl. apply sum_from_sign; [exact I | exact Hl]. Qed.

Lemma notNegative_not_below_zero x :
  notNegative (Prim2SF x) -> PrimFloat.ltb x 0%float = false.
Proof.
  rewrite ltb_spec. change (Prim2SF 0) with (S754_zero false).
  destruct (Prim2SF x) as [[]|[]| |[] m e]; simpl; auto; discriminate.
Qed.

(** [math.sqrt] of a sum of squares never raises. *)
Lemma math_sqrt_sum_of_squares l :
  (forall x, In x l -> exists r, x = PrimFloat.mul r r) ->
  math_sqrt (Py.sum l) = Ret (PrimFloat.sqrt (Py.sum l)).
Proof.
  intro Hl. unfold math_sqrt. rewrite notNegative_not_below_zero; [reflexivity|].
  apply sum_sign. intros x Hx. destruct (Hl x Hx) as [r ->]. apply square_sign.
Qed.

End RootOfSquares.

Lemma mapM_Raise {A B} (f : A -> result B) l e :
  mapM f l = Raise e -> exists x, In x l /\ f x = Raise e.
Proof.
  induction l as [|x l IH]; simpl; [discriminate|].
  destruct (f x) as [y|e0] eqn:Hx.
  - destruct (mapM f l) as [ys|e1]; [discriminate|].
    intros [= <-]. destruct (IH eq_refl) as (x' & Hin & Hx'). eauto.
  - intros [= <-]. eauto.
Qed.

Lemma mapM_Ret_In {A B} (f : A -> result B) l : forall ys y,
  mapM f l = Ret ys -> In y ys -> exists x, In x l /\ f x = Ret y.
Proof.
  induction l as [|x l IH]; simpl; intros ys y Hm Hy.
  - injection Hm as <-. destruct Hy.
  - destruct (f x) as [y0|e0] eqn:Hx; [|discriminate].
    destruct (mapM f l) as [ys0|e1]; [|discriminate].
    injection Hm as <-. destruct Hy as [<-|Hy]; eauto.
    destruct (IH _ _ eq_refl Hy) as (x' & Hin & Hx'). eauto.
Qed.

Lemma mapM_total {A B} (f : A -> result B) l :
  (forall x, In x l -> exists y, f x = Ret y) ->
  exists ys, mapM f l = Ret ys /\ List.length ys = List.length l.
Proof.
  induction l as [|x l IH]; simpl; intro H; eauto.
  destruct (H x (or_introl eq_refl)) as [y ->].
  destruct IH as (ys & -> & Hlen); [intros; apply H; auto|].
  exists (y :: ys). simpl. auto.
Qed.

Section IsValidErrors.

Import ReactionModel CoreEdgeReactionModel.
Context {C : Collaborators}.

Lemma rxnFlux_fold_entries (rate : Reaction -> float) l : forall d r v,
  In (r, v) (fold_left (fun d' rxn => dict_set Reaction_eq_dec d' rxn (rate rxn)) l d) ->
  In (r, v) d \/ (In r l /\ v = rate r).
Proof.
  assert (Hset : forall (d : list (Reaction * float)) k x r v,
             In (r, v) (dict_set Reaction_eq_dec d k x) ->
             In (r, v) d \/ (r = k /\ v = x)).
  { induction d as [|[k0 v0] d IHd]; simpl; intros k x r v H.
    - destruct H as [[= <- <-]|[]]. auto.
    - destruct (Reaction_eq_dec k k0) as [->|Hne]; simpl in H.
      + destruct H as [[= <- <-]|H]; auto.
      + destruct H as [H|H]; auto. destruct (IHd _ _ _ _ H); auto. }
  induction l as [|rxn l IH]; simpl; intros d r v H; auto.
  destruct (IH _ _ _ H) as [H'|[Hin ->]]; [|auto].
  destruct (Hset _ _ _ _ _ H') as [Hd|[-> ->]]; auto.
Qed.

Lemma rxnFlux_entries m T P conc r v :
  In (r, v) (rxnFlux m T P conc) ->
  In r (reactions (core m)) /\ v = getRate r T P conc.
Proof.
  intro H. unfold rxnFlux in H.
  destruct (rxnFlux_fold_entries (fun rxn => getRate rxn T P conc) _ _ _ _ H)
    as [[]|H']. exact H'.
Qed.

Lemma float_pow2_Raise x e : float_pow2 x = Raise e -> e = OverflowError.
Proof.
  unfold float_pow2. destruct (is_finite x && is_infinity (PrimFloat.mul x x));
    [intros [= <-]; reflexivity | discriminate].
Qed.

Lemma float_pow2_Ret x y : float_pow2 x = Ret y -> y = PrimFloat.mul x x.
Proof.
  unfold float_pow2. destruct (is_finite x && is_infinity (PrimFloat.mul x x));
    [discriminate | intros [= <-]; reflexivity].
Qed.

Lemma charFlux_outcome m T P conc :
  (forall e, charFlux m T P conc = Raise e ->
             e = OverflowError
             /\ exists rxn, In rxn (reactions (core m))
                            /\ float_pow2 (getRate rxn T P conc) = Raise OverflowError)
  /\ ((forall rxn, In rxn (reactions (core m)) ->
                   exists y, float_pow2 (getRate rxn T P conc) = Ret y) ->
      exists cf, charFlux m T P conc = Ret cf).
Proof.
  unfold charFlux.
  destruct (mapM float_pow2 (map snd (rxnFlux m T P conc))) as [squares|e0] eqn:Hsq;
    cbn [Py.bind].
  - rewrite math_sqrt_sum_of_squares.
    + cbn [Py.bind]. split; [intros e H; discriminate H | intros _; eauto].
    + intros x Hx. destruct (mapM_Ret_In _ _ _ Hsq Hx) as (r & _ & Hr).
      exists r. apply float_pow2_Ret. exact Hr.
  - destruct (mapM_Raise _ _ Hsq) as (v & Hin & Hv).
    apply in_map_iff in Hin. destruct Hin as ([r v'] & <- & Hin).
    destruct (rxnFlux_entries _ _ _ _ _ _ Hin) as [Hr ->]. simpl in Hv.
    pose proof (float_pow2_Raise _ Hv) as ->.
    split.
    + intros e [= <-]. split; [reflexivity|]. eauto.
    + intro Hall. destruct (Hall r Hr) as [y Hy]. congruence.
Qed.

(** X7. The only exceptions [isValid] raises are [OverflowError], when
    the square of a core reaction's rate overflows, and [ValueError],
    when no edge species has a flux entry: the root is never taken of a
    negative number and no flux is looked up for an unknown reaction.
    When no rate square overflows and some edge species has a flux
    entry, [isValid] returns a verdict. *)
Theorem isValid_raises_only_overflow_or_empty (m : CoreEdgeReactionModel.t)
        (T P : float) (conc : Conc) :
  (forall e, isValid m T P conc = Raise e ->
             (e = OverflowError
              /\ exists rxn, In rxn (reactions (core m))
                             /\ float_pow2 (getRate rxn T P conc) = Raise OverflowError)
             \/ (e = ValueError /\ specFlux m T P conc = Ret []))
  /\ ((forall rxn, In rxn (reactions (core m)) ->
                   exists y, float_pow2 (getRate rxn T P conc) = Ret y) ->
      forall d, specFlux m T P conc = Ret d -> d <> [] ->
                exists verdict, isValid m T P conc = Ret verdict).
Proof.
  destruct (charFlux_outcome m T P conc) as [Hraise Hret].
  destruct (specFlux_total m T P conc) as [d Hd].
  unfold isValid. rewrite Hd. split.
  - intros e. destruct (charFlux m T P conc) as [cf|e0]; cbn [Py.bind].
    + unfold maxSpecFlux. destruct d as [|kv d]; simpl.
      * intros [= <-]. right. auto.
      * destruct (PrimFloat.ltb cf _); discriminate.
    + intros [= <-]. left. apply Hraise. reflexivity.
  - intros Hall d' [= <-] Hne. destruct (Hret Hall) as [cf ->]. cbn [Py.bind].
    unfold maxSpecFlux. destruct d as [|kv d]; [congruence|]. simpl.
    destruct (PrimFloat.ltb cf _); eauto.
Qed.

End IsValidErrors.

(* ================================================================== *)
(** ** Rates and validity check of the reactor                         *)
(* ================================================================== *)

Lemma enumerate_from_length {A} (l : list A) : forall n,
  List.length (enumerate_from n l) = List.length l.
Proof. induction l; simpl; intro n; auto. Qed.

Lemma dot_same_length a b :
  List.length a = List.length b -> exists v, dot a b = Ret v.
Proof. intro H. unfold dot. rewrite H, Nat.eqb_refl. eauto. Qed.

Section ReactorRates.

Import ReactionModel CoreEdgeReactionModel.
Context {C : Collaborators} {VM : Type}.

Local Abbreviation concStep Ni V :=
  (fun (acc : result Conc) (ispec : nat * Species) =>
     d <- acc ;;
     n <- index Ni (fst ispec) ;;
     Ret (dict_set Species_eq_dec d (snd ispec) (PrimFloat.div n V))).

Lemma conc_fold_Raise Ni V l e :
  fold_left (concStep Ni V) l (Raise e) = Raise e.
Proof. induction l as [|x l IH]; simpl; auto. Qed.

(** The concentration dictionary: built when [Ni] has an entry for every
    core species, [IndexError] otherwise; a species listed once gets
    its own amount over the volume. *)
Lemma conc_fold_outcome Ni V l : forall n d,
  (n + List.length l <= List.length Ni ->
   exists Ci,
     fold_left (concStep Ni V) (enumerate_from n l) (Ret d) = Ret Ci
     /\ (NoDup l ->
         forall k spec amount,
           nth_error l k = Some spec -> nth_error Ni (n + k) = Some amount ->
           dict_get Species_eq_dec Ci spec = Ret (PrimFloat.div amount V))
     /\ (forall spec, ~ In spec l ->
                      dict_get Species_eq_dec Ci spec = dict_get Species_eq_dec d spec))
  /\ (n <= List.length Ni -> List.length Ni < n + List.length l ->
      fold_left (concStep Ni V) (enumerate_from n l) (Ret d) = Raise IndexError).
Proof.
  induction l as [|x l IH]; intros n d.
  - split.
    + intros _. exists d. simpl. split; [reflexivity|]. split; [|reflexivity].
      intros _ [|k] spec amount H; discriminate H.
    + simpl. lia.
  - change (enumerate_from n (x :: l)) with ((n, x) :: enumerate_from (S n) l).
    cbn [fold_left List.length].
    match goal with |- context [fold_left _ (enumerate_from (S n) l) ?acc1] =>
      assert (Hhead : acc1
                      = match nth_error Ni n with
                        | Some a => Ret (dict_set Species_eq_dec d x (PrimFloat.div a V))
                        | None => Raise IndexError
                        end)
        by (unfold index; cbn; destruct (nth_error Ni n); reflexivity);
      rewrite Hhead; clear Hhead
    end.
    destruct (nth_error Ni n) as [amount0|] eqn:Hn.
    + destruct (IH (S n) (dict_set Species_eq_dec d x (PrimFloat.div amount0 V)))
        as [Hok Hshort].
      assert (Hn' : n < List.length Ni) by (apply nth_error_Some; congruence).
      split; [|intros; apply Hshort; lia].
      intro Hlen. destruct Hok as (Ci & HCi & Hget & Hkeep); [lia|].
      exists Ci. split; [exact HCi|]. split.
      * intros Hnd k spec amount Hk Ha. inversion Hnd as [|? ? Hx Hnd']; subst.
        destruct k as [|k]; simpl in Hk.
        -- injection Hk as <-. rewrite Nat.add_0_r in Ha.
           rewrite Hkeep by exact Hx. rewrite dict_get_set.
           destruct (Species_eq_dec x x); [|congruence]. congruence.
        -- apply (Hget Hnd' k); [exact Hk|].
           rewrite <- Ha. f_equal. lia.
      * intros spec Hout. rewrite Hkeep by (intro; apply Hout; right; assumption).
        rewrite dict_get_set.
        destruct (Species_eq_dec spec x) as [->|]; [|reflexivity].
        exfalso. apply Hout. left. reflexivity.
    + rewrite conc_fold_Raise.
      apply nth_error_None in Hn. split; [lia | reflexivity].
Qed.

(** X8. [BatchReactor.getReactionRates] needs a mole number for every
    core species: with fewer it raises [IndexError]; otherwise it
    returns one rate per reaction, core reactions first, each evaluated
    at the concentration dictionary in which every core species (the
    core listing none twice) has its mole number divided by [V]. *)
Theorem getReactionRates_outcome (self : BatchReactor.t VM)
        (P V T : float) (Ni : list float) (model : CoreEdgeReactionModel.t) :
  (List.length Ni < List.length (species (core model)) ->
   BatchReactor.getReactionRates self P V T Ni model = Raise IndexError)
  /\ (List.length (species (core model)) <= List.length Ni ->
      exists Ci,
        BatchReactor.getReactionRates self P V T Ni model
        = Ret (map (fun rxn => getRate rxn T P Ci)
                   (reactions (core model)) ++
               map (fun rxn => getRate rxn T P Ci)
                   (reactions (edge model)))
        /\ (NoDup (species (core model)) ->
            forall k spec amount,
              nth_error (species (core model)) k = Some spec ->
              nth_error Ni k = Some amount ->
              dict_get Species_eq_dec Ci spec = Ret (PrimFloat.div amount V))).
Proof.
  unfold BatchReactor.getReactionRates, enumerate.
  destruct (conc_fold_outcome Ni V (species (core model)) 0 []) as [Hok Hshort].
  unfold Conc in *. split.
  - intro Hlen. rewrite Hshort by (simpl; lia). reflexivity.
  - intro Hlen. destruct Hok as (Ci & -> & Hget & _); [simpl; exact Hlen|].
    exists Ci. cbn [Py.bind]. split.
    + unfold CoreEdgeReactionModel.getReactionRates, getLists. simpl.
      rewrite map_app. reflexivity.
    + intros Hnd k spec amount Hk Ha. apply (Hget Hnd k); assumption.
Qed.

Lemma getReactionRates_total (self : BatchReactor.t VM) P V T Ni model :
  List.length (species (core model)) <= List.length Ni ->
  exists Ci,
    BatchReactor.getReactionRates self P V T Ni model
    = Ret (map (fun rxn => getRate rxn T P Ci)
               (reactions (core model) ++ reactions (edge model))).
Proof.
  intro Hlen. unfold BatchReactor.getReactionRates, enumerate.
  destruct (conc_fold_outcome Ni V (species (core model)) 0 []) as [Hok _].
  unfold Conc in *. destruct Hok as (Ci & -> & _); [simpl; exact Hlen|].
  exists Ci. reflexivity.
Qed.

Lemma getReactionRates_short (self : BatchReactor.t VM) P V T Ni model :
  List.length Ni < List.length (species (core model)) ->
  BatchReactor.getReactionRates self P V T Ni model = Raise IndexError.
Proof.
  intro Hlen. unfold BatchReactor.getReactionRates, enumerate.
  destruct (conc_fold_outcome Ni V (species (core model)) 0 []) as [_ Hshort].
  unfold Conc in *. rewrite Hshort by (simpl; lia). reflexivity.
Qed.

(** The matrix of [simulate] times a rate per reaction: one flux per
    species. *)
Lemma stoichiometry_times_rates model (rates : list float) :
  List.length rates
  = List.length (reactions (core model) ++ reactions (edge model)) ->
  exists dNidt,
    matvec (BatchReactor.stoichiometryMatrix model) rates = Ret dNidt
    /\ List.length dNidt
       = List.length (species (core model)) + List.length (species (edge model)).
Proof.
  intro Hlen. unfold matvec, BatchReactor.stoichiometryMatrix, getLists.
  match goal with |- context [mapM ?f ?M] =>
    destruct (mapM_total f M) as (dNidt & Hm & Hl) end.
  - intros row Hrow. apply in_map_iff in Hrow. destruct Hrow as (spec & <- & _).
    apply dot_same_length. rewrite length_map. symmetry. exact Hlen.
  - exists dNidt. split; [exact Hm|].
    rewrite Hl, length_map, length_app. reflexivity.
Qed.

(** Without edge species the maximum is taken over no flux at all. *)
Lemma isModelValid_no_edge (self : BatchReactor.t VM) model P V T Ni time :
  List.length (species (core model)) <= List.length Ni ->
  species (edge model) = [] ->
  BatchReactor.isModelValid self model P V T Ni
    (BatchReactor.stoichiometryMatrix model) time = Raise ValueError.
Proof.
  intros Hlen Hedge. unfold BatchReactor.isModelValid, getLists.
  destruct (getReactionRates_total self P V T Ni model Hlen) as [Ci ->].
  cbn [Py.bind].
  rewrite math_sqrt_sum_of_squares
    by (intros x Hx; apply in_map_iff in Hx; destruct Hx as (r & <- & _); eauto).
  cbn [Py.bind].
  destruct (stoichiometry_times_rates model
              (map (fun rxn => getRate rxn T P Ci)
                   (reactions (core model) ++ reactions (edge model))))
    as (dNidt & -> & Hl); [apply length_map|].
  cbn [Py.bind]. rewrite Hedge in Hl. simpl in Hl. rewrite Nat.add_0_r in Hl.
  rewrite skipn_all2 by lia. reflexivity.
Qed.

(** With edge species there is a largest edge flux, and the species it
    names is an edge species. *)
Lemma isModelValid_with_edge (self : BatchReactor.t VM) model P V T Ni time :
  List.length (species (core model)) <= List.length Ni ->
  species (edge model) <> [] ->
  BatchReactor.isModelValid self model P V T Ni
    (BatchReactor.stoichiometryMatrix model) time = Ret (true, None)
  \/ exists spec,
      In spec (species (edge model))
      /\ BatchReactor.isModelValid self model P V T Ni
           (BatchReactor.stoichiometryMatrix model) time
         = Ret (false, Some spec).
Proof.
  intros Hlen Hedge. unfold BatchReactor.isModelValid, getLists.
  destruct (getReactionRates_total self P V T Ni model Hlen) as [Ci ->].
  cbn [Py.bind].
  rewrite math_sqrt_sum_of_squares
    by (intros x Hx; apply in_map_iff in Hx; destruct Hx as (r & <- & _); eauto).
  cbn [Py.bind].
  destruct (stoichiometry_times_rates model
              (map (fun rxn => getRate rxn T P Ci)
                   (reactions (core model) ++ reactions (edge model))))
    as (dNidt & -> & Hl); [apply length_map|].
  cbn [Py.bind].
  set (nc := List.length (species (core model))) in *.
  set (fluxes := map (fun iv : nat * float => (snd iv, fst iv + nc))
                     (enumerate (skipn nc dNidt))).
  assert (Hne : fluxes <> []).
  { unfold fluxes, enumerate. intro E. apply (f_equal (@List.length _)) in E.
    rewrite length_map, enumerate_from_length, length_skipn in E. simpl in E.
    destruct (species (edge model)); [congruence | simpl in Hl; lia]. }
  destruct (max_nonempty (tuple_gt Nat.eqb (fun a b => Nat.ltb b a)) Hne)
    as [[maxSpeciesFlux maxSpecies] Hmax].
  rewrite Hmax. cbn [Py.bind].
  destruct (PrimFloat.ltb _ maxSpeciesFlux); [|left; reflexivity].
  right. apply max_In, in_map_iff in Hmax.
  destruct Hmax as ([i v] & [= <- <-] & Hin).
  apply enumerate_from_In in Hin. destruct Hin as (k & -> & Hk). simpl.
  assert (Hlt : k < List.length (species (edge model))).
  { assert (Hsome : nth_error (skipn nc dNidt) k <> None) by congruence.
    apply nth_error_Some in Hsome. rewrite length_skipn in Hsome. lia. }
  destruct (nth_error (species (edge model)) k) as [spec|] eqn:Hs;
    [|apply nth_error_None in Hs; lia].
  exists spec. split; [eapply nth_error_In; exact Hs|].
  unfold index. rewrite nth_error_app2 by (fold nc; lia).
  fold nc. replace (k + nc - nc) with k by lia. rewrite Hs. reflexivity.
Qed.

(** X9. On the stoichiometry matrix that [simulate] builds, the
    validity check of the reactor raises [IndexError] when [Ni] is
    shorter than the core species, raises [ValueError] when the model
    has no edge species (the maximum is taken over no flux at all), and
    otherwise returns a verdict: [(True, None)], or [False] with one of
    the edge species. *)
Theorem isModelValid_outcome (self : BatchReactor.t VM)
        (model : CoreEdgeReactionModel.t) (P V T : float) (Ni : list float)
        (time : float) :
  (List.length Ni < List.length (species (core model)) ->
   BatchReactor.isModelValid self model P V T Ni
     (BatchReactor.stoichiometryMatrix model) time = Raise IndexError)
  /\ (List.length (species (core model)) <= List.length Ni ->
      species (edge model) = [] ->
      BatchReactor.isModelValid self model P V T Ni
        (BatchReactor.stoichiometryMatrix model) time = Raise ValueError)
  /\ (List.length (species (core model)) <= List.length Ni ->
      species (edge model) <> [] ->
      BatchReactor.isModelValid self model P V T Ni
        (BatchReactor.stoichiometryMatrix model) time = Ret (true, None)
      \/ exists spec,
          In spec (species (edge model))
          /\ BatchReactor.isModelValid self model P V T Ni
               (BatchReactor.stoichiometryMatrix model) time
             = Ret (false, Some spec)).
Proof.
  split; [|split].
  - intro Hlen. unfold BatchReactor.isModelValid, getLists.
    rewrite getReactionRates_short by exact Hlen. reflexivity.
  - intros Hlen Hedge. apply isModelValid_no_edge; assumption.
  - intros Hlen Hedge. apply isModelValid_with_edge; assumption.
Qed.

(** The rows of a product, one by one. *)
Lemma mapM_map_Forall2 {A B D} (g : A -> B) (f : B -> result D) l : forall ys,
  mapM f (map g l) = Ret ys -> Forall2 (fun x y => f (g x) = Ret y) l ys.
Proof.
  induction l as [|x l IH]; simpl; intros ys H.
  - injection H as <-. constructor.
  - destruct (f (g x)) as [y|e] eqn:Hx; [|discriminate].
    destruct (mapM f (map g l)) as [ys0|e]; [|discriminate].
    injection H as <-. constructor; auto.
Qed.

Lemma enumerate_from_nth {A} (l : list A) : forall n k v,
  nth_error l k = Some v -> In (n + k, v) (enumerate_from n l).
Proof.
  induction l as [|x l IH]; intros n [|k] v H; simpl in *; try discriminate.
  - injection H as <-. left. f_equal. lia.
  - right. replace (n + S k) with (S n + k) by lia. apply IH. exact H.
Qed.

(** C1, as the code has it. The validity check that [simulate] runs
    takes the rates of all reactions, core then edge, at the
    concentrations [Ni[i] / V], and the flux of an edge species is its
    row of the full stoichiometry matrix times all these rates, so that
    edge reactions contribute. Given a mole number for every core
    species and a model with an edge species, the check answers: with
    [(flux, k)] the entry that [max] selects among the edge fluxes
    paired with their row numbers (a maximum by value, when the fluxes
    are numbers) and [spec] the edge species of that row, it answers
    [(False, spec)] if [flux] is strictly greater than the flux
    tolerance times the root of the sum of the squared core reaction
    rates, and [(True, None)] if not. *)
Theorem isModelValid_counts_all_reactions
        (self : BatchReactor.t VM) (model : CoreEdgeReactionModel.t)
        (P V T : float) (Ni : list float) (time : float) :
  List.length (species (core model)) <= List.length Ni ->
  species (edge model) <> [] ->
  exists Ci root fluxes k spec flux,
    let allReactions := reactions (core model) ++ reactions (edge model) in
    let rates := map (fun rxn => getRate rxn T P Ci) allReactions in
    let nc := List.length (species (core model)) in
    (NoDup (species (core model)) ->
     forall i s amount,
       nth_error (species (core model)) i = Some s ->
       nth_error Ni i = Some amount ->
       dict_get Species_eq_dec Ci s = Ret (PrimFloat.div amount V))
    /\ BatchReactor.getReactionRates self P V T Ni model = Ret rates
    /\ math_sqrt (Py.sum (map (fun x => PrimFloat.mul x x)
                              (map (fun rxn => getRate rxn T P Ci)
                                   (reactions (core model)))))
       = Ret root
    /\ Forall2 (fun s f =>
                  dot (map (fun rxn => getStoichiometricCoefficient rxn s)
                           allReactions) rates = Ret f)
               (species (edge model)) fluxes
    /\ Py.max (tuple_gt Nat.eqb (fun a b => Nat.ltb b a))
              (map (fun iv => (snd iv, fst iv + nc)) (enumerate fluxes))
       = Ret (flux, k + nc)
    /\ nth_error (species (edge model)) k = Some spec
    /\ nth_error fluxes k = Some flux
    /\ ((forall f, In f fluxes -> PrimFloat.is_nan f = false) ->
        forall f, In f fluxes -> PrimFloat.ltb flux f = false)
    /\ BatchReactor.isModelValid self model P V T Ni
         (BatchReactor.stoichiometryMatrix model) time
       = Ret (if PrimFloat.ltb (PrimFloat.mul (fluxTolerance model) root) flux
              then (false, Some spec) else (true, None)).
Proof.
  intros Hlen Hedge.
  assert (Hconc : exists Ci,
             BatchReactor.getReactionRates self P V T Ni model
             = Ret (map (fun rxn => getRate rxn T P Ci)
                        (reactions (core model) ++ reactions (edge model)))
             /\ (NoDup (species (core model)) ->
                 forall i s amount,
                   nth_error (species (core model)) i = Some s ->
                   nth_error Ni i = Some amount ->
                   dict_get Species_eq_dec Ci s = Ret (PrimFloat.div amount V))).
  { unfold BatchReactor.getReactionRates, enumerate.
    destruct (conc_fold_outcome Ni V (species (core model)) 0 []) as [Hok _].
    unfold Conc in *. destruct Hok as (Ci & -> & Hget & _); [simpl; exact Hlen|].
    exists Ci. split; [reflexivity|].
    intros Hnd i s amount Hs Ha. apply (Hget Hnd i); assumption. }
  destruct Hconc as (Ci & Hrates & HCi).
  set (allReactions := reactions (core model) ++ reactions (edge model)) in *.
  set (rates := map (fun rxn => getRate rxn T P Ci) allReactions) in *.
  set (nc := List.length (species (core model))) in *.
  destruct (stoichiometry_times_rates model rates) as (dNidt & HdN & _);
    [apply length_map|].
  pose proof HdN as Hrows.
  unfold matvec, BatchReactor.stoichiometryMatrix, getLists in Hrows.
  apply mapM_map_Forall2 in Hrows.
  apply Forall2_app_inv_l in Hrows.
  destruct Hrows as (coreFluxes & fluxes & Hcore & Hfluxes & ->).
  pose proof (Forall2_length Hcore) as Hlc.
  pose proof (Forall2_length Hfluxes) as Hle.
  assert (Hskip : skipn nc (coreFluxes ++ fluxes) = fluxes).
  { unfold nc. rewrite Hlc, skipn_app, skipn_all, Nat.sub_diag. reflexivity. }
  assert (Hne : map (fun iv : nat * float => (snd iv, fst iv + nc))
                    (enumerate fluxes) <> []).
  { unfold enumerate. intro E. apply (f_equal (@List.length _)) in E.
    rewrite length_map, enumerate_from_length in E. simpl in E.
    destruct (species (edge model)); [congruence | simpl in Hle; lia]. }
  destruct (max_nonempty (tuple_gt Nat.eqb (fun a b => Nat.ltb b a)) Hne)
    as [[flux maxSpecies] Hmax].
  pose proof (max_In _ _ Hmax) as Hsel. apply in_map_iff in Hsel.
  destruct Hsel as ([i v] & [= -> <-] & Hin).
  apply enumerate_from_In in Hin. destruct Hin as (k & -> & Hk). simpl in Hk, Hmax.
  assert (Hlt : k < List.length (species (edge model))).
  { rewrite Hle. apply nth_error_Some. congruence. }
  destruct (nth_error (species (edge model)) k) as [spec|] eqn:Hs;
    [|apply nth_error_None in Hs; lia].
  exists Ci, (PrimFloat.sqrt
                (Py.sum (map (fun x => PrimFloat.mul x x)
                             (map (fun rxn => getRate rxn T P Ci)
                                  (reactions (core model)))))),
         fluxes, k, spec, flux.
  cbv zeta. fold allReactions rates nc.
  assert (Hroot : forall l,
             math_sqrt (Py.sum (map (fun x => PrimFloat.mul x x) l))
             = Ret (PrimFloat.sqrt (Py.sum (map (fun x => PrimFloat.mul x x) l)))).
  { intro l. apply math_sqrt_sum_of_squares.
    intros x Hx. apply in_map_iff in Hx. destruct Hx as (r & <- & _). eauto. }
  split; [exact HCi|]. split; [exact Hrates|]. split; [apply Hroot|].
  split; [exact Hfluxes|]. split; [exact Hmax|]. split; [exact Hs|].
  split; [exact Hk|]. split.
  - intros Hnan f Hf.
    apply In_nth_error in Hf. destruct Hf as [j Hj].
    refine (@max_first_maximal _ _ _ _ (flux, k + nc) _ Hmax (f, j + nc) _).
    + intros x Hx. apply in_map_iff in Hx. destruct Hx as ([i' v'] & <- & Hx).
      apply enumerate_from_In in Hx. destruct Hx as (k' & _ & Hk').
      simpl. apply Hnan. eapply nth_error_In, Hk'.
    + apply in_map_iff. exists (j, f). split; [reflexivity|].
      apply (enumerate_from_nth fluxes 0 j Hj).
  - unfold BatchReactor.isModelValid, getLists. rewrite Hrates. cbn [Py.bind].
    unfold rates at 1, allReactions at 1.
    rewrite firstn_map, firstn_app, firstn_all, Nat.sub_diag, firstn_O, app_nil_r.
    rewrite Hroot. cbn [Py.bind]. rewrite HdN. cbn [Py.bind].
    fold nc. rewrite Hskip, Hmax. cbn [Py.bind].
    destruct (PrimFloat.ltb _ flux); [|reflexivity].
    unfold index. rewrite nth_error_app2 by (fold nc; lia).
    fold nc. replace (k + nc - nc) with k by lia. rewrite Hs. reflexivity.
Qed.

End ReactorRates.

Lemma isModelValid_counts_all_reactions_witness :
  exists root spec flux,
    In spec [Examples.B]
    /\ dot (map (fun rxn => Examples.stoichiometricCoefficient rxn spec)
                [Examples.rAD; Examples.rAB])
           [10%float; 20%float] = Ret flux
    /\ BatchReactor.isModelValid (C := Examples.methane) Examples.reactor
         Examples.fluxModel 100000%float 1%float 1000%float [1%float; 0%float]
         (BatchReactor.stoichiometryMatrix (C := Examples.methane) Examples.fluxModel)
         0%float
       = Ret (if PrimFloat.ltb (PrimFloat.mul 1%float root) flux
              then (false, Some spec) else (true, None)).
Proof.
  destruct (@isModelValid_counts_all_reactions Examples.methane unit
              Examples.reactor Examples.fluxModel
              100000%float 1%float 1000%float [1%float; 0%float] 0%float)
    as (Ci & root & fluxes & k & spec & flux
        & _ & _ & _ & Hfluxes & _ & Hs & Hf & _ & Hres).
  - simpl. lia.
  - discriminate.
  - exists root, spec, flux. split; [eapply nth_error_In; exact Hs|].
    split; [|exact Hres].
    destruct k as [|[|k]]; simpl in Hs; try discriminate. injection Hs as <-.
    inversion Hfluxes as [|s0 f0 l0 l1 Hdot Hrest]; subst.
    simpl in Hf. injection Hf as <-. exact Hdot.
Defined.

(* ================================================================== *)
(** ** The residual of the batch reactor                               *)
(* ================================================================== *)

Lemma firstn_map_app {A B} (f : A -> B) (a b : list A) :
  firstn (List.length a) (map f (a ++ b)) = map f a.
Proof.
  rewrite map_app, <- (length_map f a), firstn_app, Nat.sub_diag, firstn_all.
  simpl. apply app_nil_r.
Qed.

Section Residual.

Import ReactionModel CoreEdgeReactionModel.
Context {C : Collaborators} {VM : Type}.

(** The block of the matrix that [getResidual] cuts out: core species
    by core reactions. *)
Lemma core_block model :
  map (firstn (List.length (reactions (core model))))
      (firstn (List.length (species (core model)))
              (BatchReactor.stoichiometryMatrix model))
  = map (fun spec => map (fun rxn => getStoichiometricCoefficient rxn spec)
                         (reactions (core model)))
        (species (core model)).
Proof.
  unfold BatchReactor.stoichiometryMatrix, getLists.
  rewrite firstn_map_app, map_map. apply map_ext. intro spec.
  apply firstn_map_app.
Qed.

Lemma core_rates model T P Ci :
  firstn (List.length (reactions (core model)))
         (CoreEdgeReactionModel.getReactionRates model T P Ci)
  = map (fun rxn => getRate rxn T P Ci) (reactions (core model)).
Proof.
  unfold CoreEdgeReactionModel.getReactionRates, getLists. cbn [snd].
  apply firstn_map_app.
Qed.

(** The species balances: one entry per core species. *)
Lemma core_balances model T P Ci :
  exists dNidt,
    matvec (map (fun spec => map (fun rxn => getStoichiometricCoefficient rxn spec)
                                 (reactions (core model)))
                (species (core model)))
           (map (fun rxn => getRate rxn T P Ci) (reactions (core model)))
    = Ret dNidt
    /\ List.length dNidt = List.length (species (core model)).
Proof.
  unfold matvec.
  match goal with |- context [mapM ?f ?M] =>
    destruct (mapM_total f M) as (dNidt & Hm & Hl) end.
  - intros row Hrow. apply in_map_iff in Hrow. destruct Hrow as (spec & <- & _).
    apply dot_same_length. rewrite !length_map. reflexivity.
  - exists dNidt. split; [exact Hm|]. rewrite Hl, length_map. reflexivity.
Qed.

(** X10. [getResidual] on the matrix of [simulate]: a state [y] with
    fewer than three entries raises [ValueError]; mole numbers for
    fewer than the core species raise [IndexError]; otherwise a reactor
    whose [equationOfState] was never set raises [AttributeError], mole
    numbers for more than the core species raise [ValueError] (the
    shapes of [dVdNi] and [dNidt] differ), and with exactly one mole
    number per core species the residual is
    [[0, dVdt, 0] + dNidt]: pressure and temperature are held, and
    there is one balance per core species. *)
Theorem getResidual_outcome (self : BatchReactor.t VM)
        (model : CoreEdgeReactionModel.t) (time : float) :
  (forall y, List.length y < 3 ->
             BatchReactor.getResidual self y time model
               (BatchReactor.stoichiometryMatrix model) = Raise ValueError)
  /\ (forall P V T Ni,
        (List.length Ni < List.length (species (core model)) ->
         BatchReactor.getResidual self (P :: V :: T :: Ni) time model
           (BatchReactor.stoichiometryMatrix model) = Raise IndexError)
        /\ (List.length (species (core model)) <= List.length Ni ->
            ReactionSystem.equationOfState self = None ->
            BatchReactor.getResidual self (P :: V :: T :: Ni) time model
              (BatchReactor.stoichiometryMatrix model) = Raise AttributeError)
        /\ (List.length (species (core model)) < List.length Ni ->
            ReactionSystem.equationOfState self <> None ->
            BatchReactor.getResidual self (P :: V :: T :: Ni) time model
              (BatchReactor.stoichiometryMatrix model) = Raise ValueError)
        /\ (List.length Ni = List.length (species (core model)) ->
            ReactionSystem.equationOfState self <> None ->
            exists dVdt dNidt,
              BatchReactor.getResidual self (P :: V :: T :: Ni) time model
                (BatchReactor.stoichiometryMatrix model)
              = Ret (0%float :: dVdt :: 0%float :: dNidt)
              /\ List.length dNidt = List.length Ni)).
Proof.
  split.
  - intros [|a [|b [|c y]]] Hy; try reflexivity. simpl in Hy. lia.
  - intros P V T Ni.
    assert (Hrun : List.length (species (core model)) <= List.length Ni ->
                   exists dNidt,
                     List.length dNidt = List.length (species (core model))
                     /\ BatchReactor.getResidual self (P :: V :: T :: Ni) time model
                          (BatchReactor.stoichiometryMatrix model)
                        = match ReactionSystem.equationOfState self with
                          | None => Raise AttributeError
                          | Some eos =>
                              s <- dot (map (fun i => getdVdNi eos P V T Ni i) Ni) dNidt ;;
                              Ret (0%float
                                   :: PrimFloat.add
                                        (PrimFloat.add
                                           (PrimFloat.mul (getdVdP eos P V T Ni) 0%float)
                                           (PrimFloat.mul (getdVdT eos P V T Ni) 0%float)) s
                                   :: 0%float :: dNidt)
                          end).
    { intro Hlen. unfold BatchReactor.getResidual.
      cbn [BatchReactor.unpack Py.bind].
      destruct (getReactionRates_total self P V T Ni model Hlen) as [Ci ->].
      cbn [Py.bind]. rewrite core_block, firstn_map_app.
      destruct (core_balances model T P Ci) as (dNidt & -> & Hl).
      cbn [Py.bind]. exists dNidt. split; [exact Hl | reflexivity]. }
    split; [|split; [|split]].
    + intro Hlen. unfold BatchReactor.getResidual.
      cbn [BatchReactor.unpack Py.bind].
      rewrite getReactionRates_short by exact Hlen. reflexivity.
    + intros Hlen Heos. destruct (Hrun Hlen) as (dNidt & _ & ->).
      rewrite Heos. reflexivity.
    + intros Hlen Heos. destruct Hrun as (dNidt & Hl & ->); [lia|].
      destruct (ReactionSystem.equationOfState self) as [eos|]; [|congruence].
      unfold dot. rewrite length_map, Hl.
      destruct (Nat.eqb_spec (List.length Ni) (List.length (species (core model))));
        [lia | reflexivity].
    + intros Hlen Heos. destruct Hrun as (dNidt & Hl & ->); [lia|].
      destruct (ReactionSystem.equationOfState self) as [eos|]; [|congruence].
      destruct (dot_same_length (map (fun i => getdVdNi eos P V T Ni i) Ni) dNidt)
        as [s ->]; [rewrite length_map; congruence|].
      cbn [Py.bind]. eexists _, dNidt. split; [reflexivity | congruence].
Qed.

(** X11. The residual does not see the edge: two models with the same
    core, each with the matrix [simulate] builds for it, have the same
    residual at every state, whatever their edges and tolerances
    are. *)
Theorem getResidual_ignores_edge (self : BatchReactor.t VM)
        (model model' : CoreEdgeReactionModel.t) (y : list float) (time : float) :
  core model = core model' ->
  BatchReactor.getResidual self y time model
    (BatchReactor.stoichiometryMatrix model)
  = BatchReactor.getResidual self y time model'
      (BatchReactor.stoichiometryMatrix model').
Proof.
  intro Hcore. unfold BatchReactor.getResidual.
  destruct (BatchReactor.unpack y) as [[[[P V] T] Ni]|e]; [|reflexivity].
  cbn [Py.bind]. rewrite !core_block.
  unfold BatchReactor.getReactionRates. rewrite <- Hcore.
  match goal with |- context [fold_left ?f ?l ?a] =>
    destruct (fold_left f l a) as [Ci|e] end; [|reflexivity].
  cbn [Py.bind].
  rewrite core_rates.
  pose proof (core_rates model' T P Ci) as E. rewrite <- Hcore in E. rewrite E.
  reflexivity.
Qed.

End Residual.

Lemma getResidual_ignores_edge_witness :
  BatchReactor.getResidual (C := Examples.methane) Examples.reactor
    [100000%float; 1%float; 1000%float; 1%float; 0%float] 0%float
    Examples.fluxModel
    (BatchReactor.stoichiometryMatrix (C := Examples.methane) Examples.fluxModel)
  = BatchReactor.getResidual (C := Examples.methane) Examples.reactor
      [100000%float; 1%float; 1000%float; 1%float; 0%float] 0%float
      Examples.sealedModel
      (BatchReactor.stoichiometryMatrix (C := Examples.methane) Examples.sealedModel).
Proof.
  apply (getResidual_ignores_edge (C := Examples.methane)). reflexivity.
Defined.

(* ================================================================== *)
(** ** Outcomes of [BatchReactor.simulate]                             *)
(* ================================================================== *)

Section SimulateOutcomes.

Import ReactionModel CoreEdgeReactionModel.
Context {C : Collaborators} {VM : Type} {I : Integrator}.

Variables (self : BatchReactor.t VM) (model : CoreEdgeReactionModel.t).

Lemma initialMoles_length V :
  List.length (BatchReactor.initialMoles self model V)
  = List.length (species (core model)).
Proof. unfold BatchReactor.initialMoles. apply length_map. Qed.

(** What a seed state that was built tells. *)
Lemma simulate_start_inv vs stoichiometry y :
  BatchReactor.simulate_start self model = Ret (vs, stoichiometry, y) ->
  exists P T,
    BatchReactor.initialPressure self = Ret P
    /\ BatchReactor.initialTemperature self = Ret T
    /\ stoichiometry = BatchReactor.stoichiometryMatrix model
    /\ y = P :: 1.0%float :: T :: BatchReactor.initialMoles self model 1.0%float
    /\ BatchReactor.isModelValid self model P 1.0%float T
         (BatchReactor.initialMoles self model 1.0%float)
         (BatchReactor.stoichiometryMatrix model) 0.0%float = Ret vs.
Proof.
  unfold BatchReactor.simulate_start.
  destruct (BatchReactor.initialPressure self) as [P|e]; [|discriminate].
  destruct (BatchReactor.initialTemperature self) as [T|e]; [|discriminate].
  cbn [Py.bind].
  destruct (BatchReactor.isModelValid self model P 1.0%float T _ _ _) as [vs'|e]
    eqn:Hv; [|discriminate].
  cbn [Py.bind]. intros [= <- <- <-]. exists P, T. auto.
Qed.

(** The verdicts of the validity check on the matrix of [simulate]. *)
Lemma isModelValid_verdict P V T Ni time valid newSpecies :
  BatchReactor.isModelValid self model P V T Ni
    (BatchReactor.stoichiometryMatrix model) time = Ret (valid, newSpecies) ->
  (valid = true /\ newSpecies = None)
  \/ (valid = false
      /\ exists spec, newSpecies = Some spec /\ In spec (species (edge model))).
Proof.
  intro H.
  destruct (Nat.lt_ge_cases (List.length Ni) (List.length (species (core model))))
    as [Hshort|Hlen].
  - unfold BatchReactor.isModelValid, getLists in H.
    rewrite getReactionRates_short in H by exact Hshort. discriminate H.
  - destruct (species (edge model)) as [|s l] eqn:Hedge.
    + rewrite isModelValid_no_edge in H by assumption. discriminate H.
    + destruct (@isModelValid_with_edge C VM self model P V T Ni time Hlen)
        as [E|(spec & Hin & E)]; [rewrite Hedge; discriminate | |];
        rewrite E in H; injection H as <- <-.
      * left. auto.
      * right. split; [reflexivity|]. exists spec. rewrite <- Hedge. auto.
Qed.

Lemma simulate_span_verdict y0 t0 tf y valid newSpecies :
  BatchReactor.simulate_span self model (BatchReactor.stoichiometryMatrix model)
                             y0 t0 tf y
  = Ret (BatchReactor.Return (valid, newSpecies)) ->
  (valid = true /\ newSpecies = None)
  \/ (valid = false
      /\ exists spec, newSpecies = Some spec /\ In spec (species (edge model))).
Proof.
  unfold BatchReactor.simulate_span.
  destruct (odeint _ y (t0, tf) _ _) as [ys tcur].
  destruct (last_item ys) as [y1|e]; [|discriminate]. cbn [Py.bind].
  destruct (BatchReactor.unpack y1) as [[[[P V] T] Ni]|e]; [|discriminate].
  cbn [Py.bind].
  destruct (BatchReactor.isModelValid self model P V T Ni _ tf) as [[v sp]|e]
    eqn:Hv; [|discriminate].
  cbn [Py.bind]. apply isModelValid_verdict in Hv.
  destruct v; cbn [negb].
  - destruct (index y1 3) as [lead|e]; [|discriminate]. cbn [Py.bind].
    destruct (index y0 3) as [lead0|e]; [|discriminate]. cbn [Py.bind].
    destruct (PrimFloat.ltb lead _).
    + intros [= <- <-]. left. auto.
    + destruct (last_item tcur); discriminate.
  - intros [= <- <-]. exact Hv.
Qed.

Lemma simulate_loop_verdict y0 valid newSpecies : forall fuel t0 tf y n,
  BatchReactor.simulate_loop fuel self model
    (BatchReactor.stoichiometryMatrix model) y0 t0 tf y
  = Some (Ret (valid, newSpecies), n) ->
  (valid = true /\ newSpecies = None)
  \/ (valid = false
      /\ exists spec, newSpecies = Some spec /\ In spec (species (edge model))).
Proof.
  induction fuel as [|fuel IH]; intros t0 tf y n; cbn [BatchReactor.simulate_loop];
    destruct (PrimFloat.ltb t0 1.0e0%float); cbn [negb];
    try (intros [= <- <- <-]; left; auto; fail); try discriminate.
  destruct (BatchReactor.simulate_span self model _ y0 t0 tf y)
    as [[[v sp]|t0' tf' y']|e] eqn:Hs.
  - intros [= <- <- <-]. eapply simulate_span_verdict, Hs.
  - destruct (BatchReactor.simulate_loop fuel self model _ y0 t0' tf' y')
      as [[r k]|] eqn:Hl; [|discriminate].
    intros [= -> <-]. eapply IH, Hl.
  - discriminate.
Qed.

(** X12. A configured reactor cannot simulate a model without edge
    species: with pressure and temperature read from the profiles,
    [simulate] raises [ValueError] in the validity test of the seed
    state, before any integration. *)
Theorem simulate_without_edge_species (P T : float) (fuel : nat) :
  BatchReactor.initialPressure self = Ret P ->
  BatchReactor.initialTemperature self = Ret T ->
  species (edge model) = [] ->
  BatchReactor.simulate fuel self model = Some (Raise ValueError, 0).
Proof.
  intros HP HT Hedge. unfold BatchReactor.simulate, BatchReactor.simulate_start.
  rewrite HP, HT. cbn [Py.bind].
  rewrite isModelValid_no_edge; [reflexivity | | exact Hedge].
  rewrite initialMoles_length. apply Nat.le_refl.
Qed.

(** X13. Whatever the integrator does, a verdict of [simulate] is
    either [(True, None)] or [False] with a species that is in the
    edge of the model. *)
Theorem simulate_verdict_species (fuel : nat) (valid : bool)
        (newSpecies : option Species) (n : nat) :
  BatchReactor.simulate fuel self model = Some (Ret (valid, newSpecies), n) ->
  (valid = true /\ newSpecies = None)
  \/ (valid = false
      /\ exists spec, newSpecies = Some spec /\ In spec (species (edge model))).
Proof.
  unfold BatchReactor.simulate.
  destruct (BatchReactor.simulate_start self model)
    as [[[[v sp] stoichiometry] y]|e] eqn:Hstart; [|discriminate].
  apply simulate_start_inv in Hstart.
  destruct Hstart as (P & T & _ & _ & -> & _ & Hv).
  apply isModelValid_verdict in Hv.
  destruct v; cbn [negb].
  - apply simulate_loop_verdict.
  - intros [= <- <- <-]. exact Hv.
Qed.

(** X14. A reactor built with a volume model cannot be simulated: the
    constructor then accepts at most one of the temperature and
    pressure models, and [simulate] reads both. It raises before any
    integration: [AttributeError] for the missing model, unless the
    pressure model given leaves the pressure unset ([TypeError]) or
    claims to be isobaric without a breakpoint ([IndexError]). *)
Theorem simulate_with_volume_model
        (temperatureModel : option (TemperatureModel.t float))
        (pressureModel : option (PressureModel.t float)) (volumeModel : VM)
        (initialConcentration : option Conc) (fuel : nat) :
  BatchReactor.init temperatureModel pressureModel (Some volumeModel)
                    initialConcentration = Ret self ->
  BatchReactor.simulate fuel self model = Some (Raise AttributeError, 0)
  \/ (exists pm, pressureModel = Some pm
                 /\ PressureModel.isIsobaric pm = false
                 /\ BatchReactor.simulate fuel self model
                    = Some (Raise TypeError, 0))
  \/ (exists pm, pressureModel = Some pm
                 /\ PressureModel.isIsobaric pm = true
                 /\ PressureModel.pressures pm = []
                 /\ BatchReactor.simulate fuel self model
                    = Some (Raise IndexError, 0)).
Proof.
  unfold BatchReactor.init, ReactionSystem.init, ReactionSystem.setModels.
  destruct temperatureModel as [tm|], pressureModel as [pm|];
    cbn [Py.bind]; try discriminate; intros [= <-];
    unfold BatchReactor.simulate, BatchReactor.simulate_start,
           BatchReactor.initialPressure, BatchReactor.initialTemperature;
    cbn [ReactionSystem.pressureModel ReactionSystem.temperatureModel Py.bind];
    try (left; reflexivity).
  unfold PressureModel.getPressure.
  destruct (PressureModel.isIsobaric pm) eqn:Hiso.
  - destruct (PressureModel.pressures pm) as [|row rows] eqn:Hrows.
    + right. right. exists pm. auto.
    + left. reflexivity.
  - right. left. exists pm. auto.
Qed.

(** X15. The time ceiling: a run of [simulate] that passes the validity
    test of the seed state and goes through [n] spans to a loop state
    whose [t0] is not below [1.0] returns [(True, None)] after exactly
    [n] integrations. Enough fuel is [n] turns. *)
Theorem simulate_reaches_ceiling
        (stoichiometry : list (list float))
        (seedSpecies : option Species) (yinit : list float)
        (n : nat) (t0 tf : float) (y : list float) (fuel : nat) :
  BatchReactor.simulate_start self model
  = Ret (true, seedSpecies, stoichiometry, yinit) ->
  BatchReactor.spans self model stoichiometry yinit n
    (1e-20%float, PrimFloat.mul 1e-20%float 1.1%float, yinit) (t0, tf, y) ->
  PrimFloat.ltb t0 1.0e0%float = false ->
  BatchReactor.simulate (n + fuel) self model = Some (Ret (true, None), n).
Proof.
  intros Hstart Hspans Ht. unfold BatchReactor.simulate. rewrite Hstart.
  cbn [negb].
  pose proof (@simulate_loop_spans C VM I self model stoichiometry yinit n _ _
                Hspans fuel (Ret (true, None)) 0) as E.
  cbn [fst snd] in E. rewrite Nat.add_0_r in E. apply E.
  destruct fuel; cbn [BatchReactor.simulate_loop]; rewrite Ht; reflexivity.
Qed.

(** An integrator that hands the state back unchanged and reports a
    time [tc] with [tc * 1.1 < 1.0] keeps the loop turning. *)
Lemma simulate_loop_stalls stoichiometry y P V T Ni seedSpecies lead tc :
  (forall t0 tf, exists ys tcur,
      odeint (fun y' t' => BatchReactor.getResidual self y' t' model stoichiometry)
             y (t0, tf) (absoluteTolerance model) (relativeTolerance model)
      = (ys, tcur)
      /\ last_item ys = Ret y /\ last_item tcur = Ret tc) ->
  BatchReactor.unpack y = Ret (P, V, T, Ni) ->
  BatchReactor.isModelValid self model P V T Ni stoichiometry 0.0%float
  = Ret (true, seedSpecies) ->
  index y 3 = Ret lead ->
  PrimFloat.ltb lead (PrimFloat.mul 0.1%float lead) = false ->
  PrimFloat.ltb (PrimFloat.mul tc 1.1%float) 1.0e0%float = true ->
  forall fuel t0 tf,
    PrimFloat.ltb t0 1.0e0%float = true ->
    PrimFloat.ltb tf 1.0e0%float = true ->
    BatchReactor.simulate_loop fuel self model stoichiometry y t0 tf y = None.
Proof.
  intros Hode Hunpack Hvalid Hlead Hkept Htc.
  induction fuel as [|fuel IH]; intros t0 tf Ht0 Htf;
    cbn [BatchReactor.simulate_loop]; rewrite Ht0; cbn [negb]; [reflexivity|].
  assert (Hspan : BatchReactor.simulate_span self model stoichiometry y t0 tf y
                  = Ret (BatchReactor.Continue tf (PrimFloat.mul tc 1.1%float) y)).
  { unfold BatchReactor.simulate_span.
    destruct (Hode t0 tf) as (ys & tcur & -> & -> & Hlast).
    cbn [Py.bind]. rewrite Hunpack. cbn [Py.bind].
    change (BatchReactor.isModelValid self model P V T Ni stoichiometry tf)
      with (BatchReactor.isModelValid self model P V T Ni stoichiometry 0.0%float).
    rewrite Hvalid. cbn [Py.bind negb]. rewrite Hlead. cbn [Py.bind].
    rewrite Hkept, Hlast. reflexivity. }
  rewrite Hspan, (IH tf (PrimFloat.mul tc 1.1%float) Htf Htc). reflexivity.
Qed.

(** X16. [simulate] has no bound on its turns of its own: after a seed
    state that passes the validity test, an integrator that hands that
    state back unchanged at every span and reports a time [tc] with
    [tc * 1.1 < 1.0] keeps [simulate] in its loop for ever, the lead
    species never falling below a tenth of its own amount. No amount of
    fuel gives a result. *)
Theorem simulate_never_returns
        (stoichiometry : list (list float))
        (seedSpecies : option Species) (y : list float)
        (lead tc : float) (fuel : nat) :
  BatchReactor.simulate_start self model
  = Ret (true, seedSpecies, stoichiometry, y) ->
  (forall t0 tf, exists ys tcur,
      odeint (fun y' t' => BatchReactor.getResidual self y' t' model stoichiometry)
             y (t0, tf) (absoluteTolerance model) (relativeTolerance model)
      = (ys, tcur)
      /\ last_item ys = Ret y /\ last_item tcur = Ret tc) ->
  index y 3 = Ret lead ->
  PrimFloat.ltb lead (PrimFloat.mul 0.1%float lead) = false ->
  PrimFloat.ltb (PrimFloat.mul tc 1.1%float) 1.0e0%float = true ->
  BatchReactor.simulate fuel self model = None.
Proof.
  intros Hstart Hode Hlead Hkept Htc.
  unfold BatchReactor.simulate. rewrite Hstart. cbn [negb].
  apply simulate_start_inv in Hstart.
  destruct Hstart as (P & T & _ & _ & Hm & Hy & Hv). rewrite <- Hm in Hv.
  eapply simulate_loop_stalls; try eassumption; try reflexivity.
  rewrite Hy. reflexivity.
Qed.

End SimulateOutcomes.

Lemma simulate_without_edge_species_witness :
  BatchReactor.simulate (C := Examples.methane) (I := Examples.quartering)
                        3 Examples.reactor Examples.sealedModel
  = Some (Raise ValueError, 0).
Proof.
  apply (@simulate_without_edge_species
           Examples.methane unit Examples.quartering
           Examples.reactor Examples.sealedModel 100000%float 1000%float 3);
    reflexivity.
Defined.

Lemma simulate_verdict_species_witness :
  (false = true /\ Some Examples.B = None)
  \/ (false = false
      /\ exists spec, Some Examples.B = Some spec
                      /\ In spec (ReactionModel.species
                                    (CoreEdgeReactionModel.edge Examples.fluxModel))).
Proof.
  apply (@simulate_verdict_species
           Examples.methane unit Examples.quartering
           Examples.reactor Examples.fluxModel 3 false (Some Examples.B) 0).
  vm_compute. reflexivity.
Defined.

Lemma simulate_with_volume_model_witness :
  BatchReactor.simulate (C := Examples.methane) (I := Examples.quartering) 3
    (ReactionSystem.mk
       (Some (TemperatureModel.setIsothermal TemperatureModel.init 1000%float))
       None (Some tt) [] None)
    Examples.fluxModel
  = Some (Raise AttributeError, 0)
  \/ (exists pm : PressureModel.t float, None = Some pm
                 /\ PressureModel.isIsobaric pm = false
                 /\ BatchReactor.simulate
                      (C := Examples.methane) (I := Examples.quartering) 3
                      (ReactionSystem.mk
                         (Some (TemperatureModel.setIsothermal
                                  TemperatureModel.init 1000%float))
                         None (Some tt) [] None)
                      Examples.fluxModel
                    = Some (Raise TypeError, 0))
  \/ (exists pm : PressureModel.t float, None = Some pm
                 /\ PressureModel.isIsobaric pm = true
                 /\ PressureModel.pressures pm = []
                 /\ BatchReactor.simulate
                      (C := Examples.methane) (I := Examples.quartering) 3
                      (ReactionSystem.mk
                         (Some (TemperatureModel.setIsothermal
                                  TemperatureModel.init 1000%float))
                         None (Some tt) [] None)
                      Examples.fluxModel
                    = Some (Raise IndexError, 0)).
Proof.
  apply (@simulate_with_volume_model
           Examples.methane unit Examples.quartering _ Examples.fluxModel
           (Some (TemperatureModel.setIsothermal TemperatureModel.init 1000%float))
           None tt None 3).
  reflexivity.
Defined.

Lemma simulate_reaches_ceiling_witness :
  BatchReactor.simulate (C := Examples.methane) (I := Examples.resting 1%float)
                        2 Examples.reactor Examples.calmModel
  = Some (Ret (true, None), 2).
Proof.
  pose (ya := [100000%float; 1%float; 1000%float; 1%float; 0%float]).
  apply (@simulate_reaches_ceiling
           Examples.methane unit (Examples.resting 1%float)
           Examples.reactor Examples.calmModel
           (BatchReactor.stoichiometryMatrix (C := Examples.methane)
                                             Examples.calmModel)
           None ya 2 (PrimFloat.mul 1%float 1.1%float)
           (PrimFloat.mul 1%float 1.1%float) ya 0);
    try (vm_compute; reflexivity).
  eapply BatchReactor.spans_next;
    [vm_compute; reflexivity | vm_compute; reflexivity |].
  eapply BatchReactor.spans_next;
    [vm_compute; reflexivity | vm_compute; reflexivity | constructor].
Defined.

Lemma simulate_never_returns_witness :
  BatchReactor.simulate (C := Examples.methane) (I := Examples.resting 0%float)
                        1000 Examples.reactor Examples.calmModel
  = None.
Proof.
  pose (ya := [100000%float; 1%float; 1000%float; 1%float; 0%float]).
  apply (@simulate_never_returns
           Examples.methane unit (Examples.resting 0%float)
           Examples.reactor Examples.calmModel
           (BatchReactor.stoichiometryMatrix (C := Examples.methane)
                                             Examples.calmModel)
           None ya 1%float 0%float 1000);
    try (vm_compute; reflexivity).
  intros t0 tf. exists [ya; ya], [0%float]. repeat split.
Defined.

(* ================================================================== *)
(** ** From a failed simulation to the enlarged model                  *)
(* ================================================================== *)

Section SimulateThenEnlarge.

Import ReactionModel CoreEdgeReactionModel Invariants.
Context {C : Collaborators} {VM : Type} {I : Integrator}.

(** X17. The species a failed simulation hands back can be fed to
    [enlarge]: on a model within invariants (1)-(4) whose edge lists no
    species twice, a verdict [False] of [simulate] names a species of
    the edge, and enlarging the model by it gives a model within the
    invariants again, with that species as the last core species. *)
Theorem simulate_then_enlarge (self : BatchReactor.t VM)
        (model : CoreEdgeReactionModel.t) (fuel : nat)
        (newSpecies : option Species) (n : nat) :
  invariants model -> NoDup (species (edge model)) ->
  BatchReactor.simulate fuel self model = Some (Ret (false, newSpecies), n) ->
  exists spec,
    newSpecies = Some spec
    /\ In spec (species (edge model))
    /\ invariants (enlarge spec model)
    /\ NoDup (species (edge (enlarge spec model)))
    /\ species (core (enlarge spec model)) = species (core model) ++ [spec].
Proof.
  intros Hinv Hnd Hsim.
  assert (Hverdict : exists spec, newSpecies = Some spec
                                  /\ In spec (species (edge model))).
  { unfold BatchReactor.simulate in Hsim.
    destruct (BatchReactor.simulate_start self model)
      as [[[[v sp] stoichiometry] y]|e] eqn:Hstart; [|discriminate].
    apply simulate_start_inv in Hstart.
    destruct Hstart as (P & T & _ & _ & -> & _ & Hv).
    apply isModelValid_verdict in Hv.
    destruct v; cbn [negb] in Hsim.
    - apply simulate_loop_verdict in Hsim.
      destruct Hsim as [[? _]|[_ H]]; [discriminate | exact H].
    - injection Hsim as <- <-.
      destruct Hv as [[? _]|[_ H]]; [discriminate | exact H]. }
  destruct Hverdict as (spec & -> & Hin). exists spec.
  split; [reflexivity|]. split; [exact Hin|].
  unfold enlarge.
  match goal with |- context [fold_left enlarge_reaction ?l ?m0] =>
    destruct (enlarge_reactions_counts l m0) as [Hc _];
    assert (Hkeep : invariants (fold_left enlarge_reaction l m0)
                    /\ NoDup (species (edge (fold_left enlarge_reaction l m0))))
  end.
  { apply enlarge_reactions_keep.
    - pose proof Hinv as (H1 & H2 & H3 & H4). split; [|split; [|split]].
      + apply addSpeciesToCore_disjointSpecies; assumption.
      + apply addSpeciesToCore_disjointReactions; assumption.
      + apply addSpeciesToCore_coreMembership; assumption.
      + apply addSpeciesToCore_speciesPresent; assumption.
    - apply addSpeciesToCore_NoDup. exact Hnd. }
  destruct Hkeep as [Hinv' Hnd'].
  split; [exact Hinv'|]. split; [exact Hnd'|].
  rewrite Hc. apply addSpeciesToCore_core.
Qed.

End SimulateThenEnlarge.

Lemma simulate_then_enlarge_witness :
  exists spec,
    Some Examples.B = Some spec
    /\ In spec (ReactionModel.species
                  (CoreEdgeReactionModel.edge Examples.fluxModel))
    /\ Invariants.invariants
         (CoreEdgeReactionModel.enlarge (C := Examples.methane) spec
                                        Examples.fluxModel)
    /\ NoDup (ReactionModel.species
                (CoreEdgeReactionModel.edge
                   (CoreEdgeReactionModel.enlarge (C := Examples.methane) spec
                                                  Examples.fluxModel)))
    /\ ReactionModel.species
         (CoreEdgeReactionModel.core
            (CoreEdgeReactionModel.enlarge (C := Examples.methane) spec
                                           Examples.fluxModel))
       = ReactionModel.species (CoreEdgeReactionModel.core Examples.fluxModel)
         ++ [spec].
Proof.
  apply (@simulate_then_enlarge
           Examples.methane unit Examples.quartering
           Examples.reactor Examples.fluxModel 3 (Some Examples.B) 0
           invariants_fluxModel NoDup_calm_edge).
  vm_compute. reflexivity.
Defined.
